(** * vmxtool: layout-preserving editing of VMware dictionary files

    A shallow embedding of vmxtool.  The program with case-insensitive
    keys and inline comments (the second program of
    src/unnamed/part_001) is embedded in full: [findClosingQuote],
    [LoadDictionary], [Save], [Print], [escapeQuotes], [unescapeQuotes],
    [findEntryCaseInsensitive], [normalizeKeyCase], [Add], [Set],
    [Remove], [Query], [KeyExists], [parseKeyValue] and the command line
    of [run].  The two other programs of the repository, src/vmxtool.go
    and the first program of src/unnamed/part_001, follow in modules of
    their own.

    Go strings are byte sequences: they are modelled as [string], whose
    characters are the 256 values of [ascii].  Keys are compared with
    [strings.ToLower] and [strings.EqualFold], which read the case tables
    of package unicode for the runes above 0x7F: the tables are
    parameters ([CaseTables]), and what is proved holds for every
    table. *)

From Stdlib Require Import Strings.String Strings.Ascii Lists.List Bool.Bool.
From Stdlib Require Import Arith.Arith NArith.NArith Lia.
Import ListNotations.
Local Open Scope list_scope.
Local Open Scope string_scope.

(** * The part of Go's standard library the tool uses *)

Module GoStrings.

(** Tests on the numeric value of a byte. *)
Definition byteIs (n : N) (c : ascii) : bool := N.eqb (N_of_ascii c) n.
Definition byteIn (lo hi : N) (c : ascii) : bool :=
  N.leb lo (N_of_ascii c) && N.leb (N_of_ascii c) hi.

(** [utf8.RuneSelf]: bytes below 0x80 are single-byte runes. *)
Definition isASCIIByte (c : ascii) : bool := N.ltb (N_of_ascii c) 128.

(** The [asciiSpace] table of package strings: tab, line feed, vertical
    tab, form feed, carriage return and space. *)
Definition asciiSpace (c : ascii) : bool :=
  byteIn 9 13 c || byteIs 32 c.

(** The white space runes of [unicode.IsSpace] that take two bytes in
    UTF-8: U+0085 (C2 85) and U+00A0 (C2 A0). *)
Definition space2 (c d : ascii) : bool :=
  byteIs 194 c && (byteIs 133 d || byteIs 160 d).

(** Those that take three bytes: U+1680 (E1 9A 80), U+2000..U+200A
    (E2 80 80 .. E2 80 8A), U+2028, U+2029, U+202F (E2 80 A8, A9, AF),
    U+205F (E2 81 9F) and U+3000 (E3 80 80). *)
Definition space3 (c d e : ascii) : bool :=
  (byteIs 225 c && byteIs 154 d && byteIs 128 e)
  || (byteIs 226 c && byteIs 128 d
      && (byteIn 128 138 e || byteIs 168 e || byteIs 169 e || byteIs 175 e))
  || (byteIs 226 c && byteIs 129 d && byteIs 159 e)
  || (byteIs 227 c && byteIs 128 d && byteIs 128 e).

(** [strings.TrimLeftFunc(s, unicode.IsSpace)]: runes are decoded from the
    left and dropped while they are white space; a byte sequence that is
    not the encoding of a white space rune stops the loop. *)
Fixpoint trimLeftSpace (s : string) : string :=
  match s with
  | EmptyString => EmptyString
  | String c r1 =>
      if asciiSpace c then trimLeftSpace r1
      else
        match r1 with
        | EmptyString => s
        | String d r2 =>
            if space2 c d then trimLeftSpace r2
            else
              match r2 with
              | EmptyString => s
              | String e r3 => if space3 c d e then trimLeftSpace r3 else s
              end
        end
  end.

(** [s] consists of white space runes only. *)
Definition allSpace (s : string) : bool :=
  match trimLeftSpace s with EmptyString => true | _ => false end.

(** [strings.TrimRightFunc(s, unicode.IsSpace)]: the longest suffix made
    of white space runes is cut off. *)
Fixpoint trimRightSpace (s : string) : string :=
  match s with
  | EmptyString => EmptyString
  | String c r => if allSpace s then EmptyString else String c (trimRightSpace r)
  end.

(** [strings.TrimSpace]. *)
Definition TrimSpace (s : string) : string := trimRightSpace (trimLeftSpace s).

(** [strings.TrimRight(s, cutset)] for a cutset of single bytes. *)
Fixpoint allBytes (p : ascii -> bool) (s : string) : bool :=
  match s with
  | EmptyString => true
  | String c r => p c && allBytes p r
  end.

Fixpoint TrimRight (s : string) (cutset : ascii -> bool) : string :=
  match s with
  | EmptyString => EmptyString
  | String c r =>
      if allBytes cutset s then EmptyString else String c (TrimRight r cutset)
  end.

(** The cutset of [Save]: space and tab. *)
Definition spaceOrTab (c : ascii) : bool := byteIs 32 c || byteIs 9 c.

(** [strings.HasPrefix]. *)
Fixpoint HasPrefix (s prefix : string) {struct prefix} : bool :=
  match prefix, s with
  | EmptyString, _ => true
  | String p ps, String c r => Ascii.eqb c p && HasPrefix r ps
  | String _ _, EmptyString => false
  end.

(** [strings.Index(s, sep)] for a one-byte [sep]; [None] stands for -1. *)
Fixpoint IndexByte (s : string) (sep : ascii) : option nat :=
  match s with
  | EmptyString => None
  | String c r =>
      if Ascii.eqb c sep then Some 0
      else match IndexByte r sep with Some i => Some (S i) | None => None end
  end.

(** [strings.Contains(s, sep)] for a one-byte [sep]. *)
Definition Contains (s : string) (sep : ascii) : bool :=
  match IndexByte s sep with Some _ => true | None => false end.

(** [strings.Cut] at the first occurrence of a one-byte separator. *)
Fixpoint Cut (s : string) (sep : ascii) : option (string * string) :=
  match s with
  | EmptyString => None
  | String c r =>
      if Ascii.eqb c sep then Some (EmptyString, r)
      else match Cut r sep with
           | Some (before, after) => Some (String c before, after)
           | None => None
           end
  end.

(** [strings.SplitN(s, sep, 2)] for a one-byte [sep]: one element when
    [sep] does not occur, else the text before and after its first
    occurrence. *)
Definition SplitN2 (s : string) (sep : ascii) : list string :=
  match Cut s sep with
  | Some (before, after) => [before; after]
  | None => [s]
  end.

(** Slices [s[lo:hi]] and [s[lo:]]. *)
Definition slice (s : string) (lo hi : nat) : string := substring lo (hi - lo) s.
Definition sliceFrom (s : string) (lo : nat) : string :=
  substring lo (String.length s - lo) s.

(** [strings.ReplaceAll] as [escapeQuotes] and [unescapeQuotes] call it:
    every double quote becomes backslash, double quote; and every
    backslash, double quote becomes a double quote.  Occurrences are
    replaced from left to right without overlap. *)
Definition dquote : ascii := "034"%char.
Definition backslash : ascii := "092"%char.

Fixpoint ReplaceAll_quote_escaped (s : string) : string :=
  match s with
  | EmptyString => EmptyString
  | String c r =>
      if Ascii.eqb c dquote
      then String backslash (String dquote (ReplaceAll_quote_escaped r))
      else String c (ReplaceAll_quote_escaped r)
  end.

Fixpoint ReplaceAll_escaped_quote (s : string) : string :=
  match s with
  | EmptyString => EmptyString
  | String c r =>
      match r with
      | String d r' =>
          if Ascii.eqb c backslash && Ascii.eqb d dquote
          then String dquote (ReplaceAll_escaped_quote r')
          else String c (ReplaceAll_escaped_quote r)
      | EmptyString => s
      end
  end.

End GoStrings.

(** [bufio.Scanner] with the default split function [bufio.ScanLines] and
    the default buffer. *)
Module GoBufio.

Definition LF : ascii := "010"%char.
Definition CR : ascii := "013"%char.

(** The text between line feeds; the text after the last line feed is a
    line of its own unless it is empty. *)
Fixpoint rawLines (data : string) : list string :=
  match data with
  | EmptyString => []
  | String c r =>
      if Ascii.eqb c LF then EmptyString :: rawLines r
      else match rawLines r with
           | [] => [String c EmptyString]
           | l :: ls => String c l :: ls
           end
  end.

(** [dropCR]: one trailing carriage return is dropped from a line. *)
Fixpoint dropCR (line : string) : string :=
  match line with
  | EmptyString => EmptyString
  | String c EmptyString => if Ascii.eqb c CR then EmptyString else line
  | String c r => String c (dropCR r)
  end.

(** [bufio.MaxScanTokenSize]: a line and its line feed must fit in the
    buffer of 64 * 1024 bytes, or [Scan] stops with [ErrTooLong]. *)
Definition MaxScanTokenSize : N := 65536.

Definition fits (line : string) : bool :=
  N.ltb (N.of_nat (String.length line)) MaxScanTokenSize.

(** All tokens of the scanner, or [None] for [bufio.ErrTooLong]. *)
Definition scanLines (data : string) : option (list string) :=
  let ls := rawLines data in
  if forallb fits ls then Some (map dropCR ls) else None.

End GoBufio.

Import GoStrings GoBufio.

(** [utf8]: the decoding of runes, as a range loop over a string and
    [utf8.DecodeRuneInString] do it, and their encoding. *)

Module GoUtf8.

(** [utf8.RuneError]. *)
Definition runeError : N := 65533.

(** A continuation byte, 0x80 to 0xBF. *)
Definition isCont (c : ascii) : bool := byteIn 128 191 c.

(** [decoderune] of package runtime, with the test for a byte below
    [utf8.RuneSelf] that a range loop over a string makes before it: the
    rune at the start of [s] and the number of bytes it takes; an invalid
    sequence gives [runeError] and one byte. *)
Definition decoderune (s : string) : N * nat :=
  match s with
  | EmptyString => (runeError, 1)
  | String b0 r1 =>
      let n0 := N_of_ascii b0 in
      if N.ltb n0 128 then (n0, 1)
      else if N.leb 192 n0 && N.ltb n0 224 then
        match r1 with
        | String b1 _ =>
            if isCont b1 then
              let r := N.lor (N.shiftl (N.land n0 31) 6)
                             (N.land (N_of_ascii b1) 63) in
              if N.ltb 127 r then (r, 2) else (runeError, 1)
            else (runeError, 1)
        | EmptyString => (runeError, 1)
        end
      else if N.leb 224 n0 && N.ltb n0 240 then
        match r1 with
        | String b1 (String b2 _) =>
            if isCont b1 && isCont b2 then
              let r := N.lor (N.shiftl (N.land n0 15) 12)
                        (N.lor (N.shiftl (N.land (N_of_ascii b1) 63) 6)
                               (N.land (N_of_ascii b2) 63)) in
              if N.ltb 2047 r && negb (N.leb 55296 r && N.leb r 57343)
              then (r, 3) else (runeError, 1)
            else (runeError, 1)
        | _ => (runeError, 1)
        end
      else if N.leb 240 n0 && N.ltb n0 248 then
        match r1 with
        | String b1 (String b2 (String b3 _)) =>
            if isCont b1 && isCont b2 && isCont b3 then
              let r := N.lor (N.shiftl (N.land n0 7) 18)
                        (N.lor (N.shiftl (N.land (N_of_ascii b1) 63) 12)
                          (N.lor (N.shiftl (N.land (N_of_ascii b2) 63) 6)
                                 (N.land (N_of_ascii b3) 63))) in
              if N.ltb 65535 r && N.leb r 1114111
              then (r, 4) else (runeError, 1)
            else (runeError, 1)
        | _ => (runeError, 1)
        end
      else (runeError, 1)
  end.

(** The runes of a range loop over a string; [skip] bytes of the rune
    before are still to be passed. *)
Fixpoint runesFrom (skip : nat) (s : string) : list N :=
  match s with
  | EmptyString => []
  | String _ r =>
      match skip with
      | S k => runesFrom k r
      | 0 => let '(char, width) := decoderune s in
             char :: runesFrom (width - 1) r
      end
  end.

Definition runes (s : string) : list N := runesFrom 0 s.

(** [unicode.IsSpace]: the switch for Latin-1, and the table
    [White_Space] for the other runes. *)
Definition IsSpace (r : N) : bool :=
  if N.leb r 255 then
    N.eqb r 9 || N.eqb r 10 || N.eqb r 11 || N.eqb r 12 || N.eqb r 13
    || N.eqb r 32 || N.eqb r 133 || N.eqb r 160
  else
    N.eqb r 5760
    || (N.leb 8192 r && N.leb r 8202)
    || (N.leb 8232 r && N.leb r 8233)
    || N.eqb r 8239 || N.eqb r 8287 || N.eqb r 12288.

(** [utf8.AppendRune]: the encoding of a rune; a surrogate and a value
    above [utf8.MaxRune] are written as [runeError]. *)
Definition appendRune (r : N) : string :=
  if N.leb r 127 then String (ascii_of_N r) EmptyString
  else if N.leb r 2047 then
    String (ascii_of_N (N.lor 192 (N.shiftr r 6)))
      (String (ascii_of_N (N.lor 128 (N.land r 63))) EmptyString)
  else
    let r :=
      if N.ltb 1114111 r || (N.leb 55296 r && N.leb r 57343)
      then runeError else r in
    if N.leb r 65535 then
      String (ascii_of_N (N.lor 224 (N.shiftr r 12)))
        (String (ascii_of_N (N.lor 128 (N.land (N.shiftr r 6) 63)))
          (String (ascii_of_N (N.lor 128 (N.land r 63))) EmptyString))
    else
      String (ascii_of_N (N.lor 240 (N.shiftr r 18)))
        (String (ascii_of_N (N.lor 128 (N.land (N.shiftr r 12) 63)))
          (String (ascii_of_N (N.lor 128 (N.land (N.shiftr r 6) 63)))
            (String (ascii_of_N (N.lor 128 (N.land r 63))) EmptyString))).

End GoUtf8.

Import GoUtf8.

(** [strings.ToLower] and [strings.EqualFold], with the functions of
    package unicode they call. *)
Module GoCase.

(** The case tables of package unicode are not among the sources: they
    are parameters.  [lowerCase r] is [unicode.To(unicode.LowerCase, r)],
    which [unicode.ToLower] returns for a rune above [unicode.MaxASCII];
    [simpleFold r] is what [unicode.SimpleFold] returns for such a rune,
    from [caseOrbit] and [CaseRanges]. *)
Class CaseTables : Type := mkCaseTables {
  lowerCase : N -> N;
  simpleFold : N -> N
}.

(** Tables in which the long s, U+017F, and the Kelvin sign, U+212A, are
    as package unicode has them: the long s is its own lower case and
    folds to S, the Kelvin sign has the lower case k and folds to K.  The
    other runes above 0x7F are left alone; the examples use none of
    them. *)
Definition sampleTables : CaseTables :=
  mkCaseTables
    (fun r => if N.eqb r 8490 then 107%N else r)
    (fun r => if N.eqb r 383 then 83%N else if N.eqb r 8490 then 75%N else r).

Section Tables.

Context {T : CaseTables}.

(** [unicode.ToLower]. *)
Definition unicodeToLower (r : N) : N :=
  if N.leb r 127 then
    if N.leb 65 r && N.leb r 90 then (r + 32)%N else r
  else lowerCase r.

(** The table [asciiFold] of package unicode: a letter folds to its other
    case, except that k folds to the Kelvin sign and s to the long s. *)
Definition asciiFold (r : N) : N :=
  if N.leb 65 r && N.leb r 90 then (r + 32)%N
  else if N.eqb r 107 then 8490%N
  else if N.eqb r 115 then 383%N
  else if N.leb 97 r && N.leb r 122 then (r - 32)%N
  else r.

(** [unicode.SimpleFold]. *)
Definition SimpleFold (r : N) : N :=
  if N.ltb 1114111 r then r
  else if N.ltb r 128 then asciiFold r
  else simpleFold r.

(** [strings.Map]: the loop that looks for the first rune the mapping
    changes, copying the bytes before it, and the loop that writes the
    mapping of every rune after it.  An invalid byte counts as changed;
    [skip] bytes of the rune before are still to be passed. *)
Fixpoint mapRest (mapping : N -> N) (skip : nat) (s : string) : string :=
  match s with
  | EmptyString => EmptyString
  | String _ rest =>
      match skip with
      | S k => mapRest mapping k rest
      | 0 => let '(c, width) := decoderune s in
             appendRune (mapping c) ++ mapRest mapping (width - 1) rest
      end
  end.

Fixpoint mapScan (mapping : N -> N) (skip : nat) (s : string) : string :=
  match s with
  | EmptyString => EmptyString
  | String b rest =>
      match skip with
      | S k => String b (mapScan mapping k rest)
      | 0 => let '(c, width) := decoderune s in
             let r := mapping c in
             if N.eqb r c && negb (N.eqb c runeError && Nat.eqb width 1)
             then String b (mapScan mapping (width - 1) rest)
             else appendRune r ++ mapRest mapping (width - 1) rest
      end
  end.

Definition Map (mapping : N -> N) (s : string) : string := mapScan mapping 0 s.

(** The ASCII path of [strings.ToLower]: the bytes 'A'..'Z' become
    'a'..'z'. *)
Definition lowerByte (c : ascii) : ascii :=
  if byteIn 65 90 c then ascii_of_N (N_of_ascii c + 32) else c.

Fixpoint lowerBytes (s : string) : string :=
  match s with
  | EmptyString => EmptyString
  | String c r => String (lowerByte c) (lowerBytes r)
  end.

Fixpoint anyByte (p : ascii -> bool) (s : string) : bool :=
  match s with
  | EmptyString => false
  | String c r => p c || anyByte p r
  end.

(** [strings.ToLower]: a string of bytes below [utf8.RuneSelf] is
    returned as it is when it has no upper-case letter and with its
    upper-case letters replaced otherwise; any other string is mapped
    rune by rune. *)
Definition ToLower (s : string) : string :=
  if allBytes isASCIIByte s then
    if anyByte (byteIn 65 90) s then lowerBytes s else s
  else Map unicodeToLower s.

(** The loop of [strings.EqualFold] over [unicode.SimpleFold], from the
    smaller rune [sr] towards the larger [tr]: the rune it ends at.  The
    loop passes through runes below [tr], so when it ends it has taken
    fewer than [tr] steps. *)
Definition foldOrbit (sr tr : N) : N :=
  N.iter tr
    (fun r => if negb (N.eqb r sr) && N.ltb r tr then SimpleFold r else r)
    (SimpleFold sr).

(** The comparison of two runes in [strings.EqualFold]. *)
Definition runeFold (sr tr : N) : bool :=
  if N.eqb tr sr then true
  else
    let lo := N.min sr tr in
    let hi := N.max sr tr in
    if N.ltb hi 128 then N.leb 65 lo && N.leb lo 90 && N.eqb hi (lo + 32)
    else N.eqb (foldOrbit lo hi) hi.

(** [s[n:]]. *)
Fixpoint dropBytes (n : nat) (s : string) : string :=
  match n, s with
  | S k, String _ r => dropBytes k r
  | _, _ => s
  end.

(** The part of [strings.EqualFold] after the label hasUnicode: the runes
    of [s] are compared with those decoded from [t]. *)
Fixpoint foldFrom (skip : nat) (s t : string) : bool :=
  match s with
  | EmptyString => match t with EmptyString => true | String _ _ => false end
  | String _ rest =>
      match skip with
      | S k => foldFrom k rest t
      | 0 =>
          let '(sr, width) := decoderune s in
          match t with
          | EmptyString => false
          | String _ _ =>
              let '(tr, size) := decoderune t in
              if runeFold sr tr
              then foldFrom (width - 1) rest (dropBytes size t)
              else false
          end
      end
  end.

(** The comparison of two bytes below [utf8.RuneSelf] in
    [strings.EqualFold]: equal bytes, or an upper-case letter and its
    lower-case form. *)
Definition foldEq (sr tr : ascii) : bool :=
  Ascii.eqb tr sr
  || (let lo := N.min (N_of_ascii sr) (N_of_ascii tr) in
      let hi := N.max (N_of_ascii sr) (N_of_ascii tr) in
      N.leb 65 lo && N.leb lo 90 && N.eqb hi (lo + 32)).

(** [strings.EqualFold]: byte by byte while both bytes are below
    [utf8.RuneSelf], rune by rune from the first pair with a byte that is
    not; both strings must end together. *)
Fixpoint EqualFold (s t : string) : bool :=
  match s, t with
  | String sr s', String tr t' =>
      if N.leb 128 (N.lor (N_of_ascii sr) (N_of_ascii tr)) then foldFrom 0 s t
      else if foldEq sr tr then EqualFold s' t'
      else false
  | EmptyString, EmptyString => true
  | _, _ => false
  end.

End Tables.

End GoCase.

Import GoCase.

(** * The file system the tool works on

    [os.Open] and [os.Create] are the only contact with the operating
    system.  What a path names decides what they do:
    - [Absent]: nothing, where a file can be created; [os.Open] fails
      with an error for which [os.IsNotExist] holds;
    - [Uncreatable]: nothing, where no file can be created either, as
      for the empty path or a path in a directory that does not exist;
    - [Denied]: something that can be neither opened nor created;
    - [Regular]: a file that can be read and written, with its bytes;
    - [ReadOnly]: a file that can be read, with its bytes, but not
      written: [os.Create] fails.
    A file that has been created takes every write: the errors of
    [WriteString] and [Flush] are not modelled. *)

Inductive node : Type :=
| Absent
| Uncreatable
| Denied
| Regular (data : string)
| ReadOnly (data : string).

Definition filesystem : Type := string -> node.

(** [os.Create] followed by the writes and [Flush]: the file at [path]
    holds [data] and nothing else. *)
Definition writeFile (fs : filesystem) (path data : string) : filesystem :=
  fun p => if String.eqb p path then Regular data else fs p.

(** [os.Create] succeeds at [path]. *)
Definition canCreate (fs : filesystem) (path : string) : bool :=
  match fs path with
  | Absent | Regular _ => true
  | Uncreatable | Denied | ReadOnly _ => false
  end.

(** The errors of the tool: a failure of [os.Open] other than a missing
    file, or of [os.Create]; the scanner's token too long; the error of
    [Add], key already exists; and the error of [Remove] and [Query], key
    does not exist. *)
Inductive error : Type :=
| PathError
| ErrTooLong
| DuplicateKeyError (key : string)
| KeyNotFoundError (key : string).

Inductive result (A : Type) : Type :=
| Ok (a : A)
| Err (e : error).

Arguments Ok {A} a.
Arguments Err {A} e.

(** * The dictionary *)

(** One line of the file. *)
Record Entry : Type := mkEntry {
  Original : string;
  Key : string;
  Value : string;
  InlineComment : string;
  InlineCommentSpace : string;
  IsComment : bool;
  IsBlank : bool
}.

Record Dictionary : Type := mkDictionary {
  Filename : string;
  Entries : list Entry
}.

(** The double quote and the line feed as strings, and the two bytes the
    parser looks for. *)
Definition Q : string := String dquote EmptyString.
Definition NL : string := String LF EmptyString.
Definition hash : ascii := "#"%char.
Definition equals : ascii := "="%char.

(** The comparison of a string with the empty string. *)
Definition isEmpty (s : string) : bool :=
  match s with EmptyString => true | String _ _ => false end.

(** [s[i] == c], false when [i] is out of range. *)
Definition byteAtIs (s : string) (i : nat) (c : ascii) : bool :=
  match get i s with
  | Some x => Ascii.eqb x c
  | None => false
  end.

(** The loop of [findClosingQuote], with [n] iterations left. *)
Fixpoint findClosingQuoteLoop (s : string) (n i : nat) : option nat :=
  match n with
  | 0 => None
  | S n' =>
      if byteAtIs s i dquote then
        if Nat.ltb 0 i && byteAtIs s (i - 1) backslash
        then findClosingQuoteLoop s n' (S i)
        else Some i
      else findClosingQuoteLoop s n' (S i)
  end.

(** [findClosingQuote]: the index of the first double quote at or after
    [startIdx] that no backslash precedes; [None] stands for -1. *)
Definition findClosingQuote (s : string) (startIdx : nat) : option nat :=
  findClosingQuoteLoop s (String.length s - startIdx) startIdx.

Definition escapeQuotes (value : string) : string :=
  ReplaceAll_quote_escaped value.

Definition unescapeQuotes (value : string) : string :=
  ReplaceAll_escaped_quote value.

(** The value, inline comment and inline comment space that
    [LoadDictionary] takes from the text after the equals sign. *)
Definition parseValue (valueAndComment : string) : string * string * string :=
  if HasPrefix valueAndComment Q then
    match findClosingQuote valueAndComment 1 with
    | Some endQuoteIdx =>
        let value := unescapeQuotes (slice valueAndComment 1 endQuoteIdx) in
        let remainder := sliceFrom valueAndComment (endQuoteIdx + 1) in
        if Nat.ltb 0 (String.length remainder) then
          match IndexByte remainder hash with
          | Some commentIdx =>
              (value, sliceFrom remainder commentIdx, slice remainder 0 commentIdx)
          | None => (value, EmptyString, EmptyString)
          end
        else (value, EmptyString, EmptyString)
    | None => (valueAndComment, EmptyString, EmptyString)
    end
  else
    match IndexByte valueAndComment hash with
    | Some commentIdx =>
        let value := TrimSpace (slice valueAndComment 0 commentIdx) in
        let beforeComment := slice valueAndComment 0 commentIdx in
        let inlineCommentSpace :=
          if Nat.ltb (String.length value) (String.length beforeComment)
          then sliceFrom beforeComment (String.length value)
          else EmptyString in
        (value, sliceFrom valueAndComment commentIdx, inlineCommentSpace)
    | None => (valueAndComment, EmptyString, EmptyString)
    end.

(** The body of the scanner loop of [LoadDictionary]: one line of the file
    becomes one [Entry]. *)
Definition parseLine (original : string) : Entry :=
  let trimmed := TrimSpace original in
  if isEmpty trimmed then
    mkEntry original EmptyString EmptyString EmptyString EmptyString false true
  else if HasPrefix trimmed "#" then
    mkEntry original EmptyString EmptyString EmptyString EmptyString true false
  else
    match SplitN2 trimmed equals with
    | [part0; part1] =>
        let key := TrimSpace part0 in
        let valueAndComment := TrimSpace part1 in
        let '(value, inlineComment, inlineCommentSpace) :=
          parseValue valueAndComment in
        mkEntry original key value inlineComment inlineCommentSpace false false
    | _ =>
        mkEntry original EmptyString EmptyString EmptyString EmptyString true false
    end.

(** [LoadDictionary]: a missing file gives a dictionary without entries;
    any other failure to open, and a line too long for the scanner, is an
    error. *)
Definition LoadDictionary (filename : string) (fs : filesystem)
  : result Dictionary :=
  match fs filename with
  | Absent | Uncreatable => Ok (mkDictionary filename [])
  | Denied => Err PathError
  | Regular data | ReadOnly data =>
      match scanLines data with
      | Some lines => Ok (mkDictionary filename (map parseLine lines))
      | None => Err ErrTooLong
      end
  end.

(** The line [Save] writes for an entry. *)
Definition saveLine (entry : Entry) : string :=
  if IsBlank entry then EmptyString
  else if IsComment entry then Original entry
  else if negb (isEmpty (Key entry)) then
    let formattedValue := Q ++ escapeQuotes (Value entry) ++ Q in
    let line :=
      if Contains (Original entry) equals then
        let originalParts := SplitN2 (Original entry) equals in
        let keyPart := TrimRight (nth 0 originalParts EmptyString) spaceOrTab in
        keyPart ++ " = " ++ formattedValue
      else Key entry ++ " = " ++ formattedValue in
    if negb (isEmpty (InlineComment entry))
    then line ++ InlineCommentSpace entry ++ InlineComment entry
    else line
  else Original entry.

(** The line [Print] prints for an entry. *)
Definition printLine (entry : Entry) : string :=
  if IsBlank entry then EmptyString
  else if IsComment entry then Original entry
  else if negb (isEmpty (Key entry)) then
    let formattedValue := Q ++ escapeQuotes (Value entry) ++ Q in
    let line := Key entry ++ " = " ++ formattedValue in
    if negb (isEmpty (InlineComment entry))
    then line ++ InlineCommentSpace entry ++ InlineComment entry
    else line
  else Original entry.

(** Each line is written with a line feed after it. *)
Fixpoint unlines (ls : list string) : string :=
  match ls with
  | [] => EmptyString
  | l :: r => l ++ NL ++ unlines r
  end.

(** The bytes [Save] writes and the bytes [Print] sends to standard
    output. *)
Definition saveBytes (d : Dictionary) : string :=
  unlines (map saveLine (Entries d)).

Definition Print (d : Dictionary) : string :=
  unlines (map printLine (Entries d)).

(** [Save]: the file is created or truncated, then written; when
    [os.Create] fails its error is returned and nothing is written. *)
Definition Save (d : Dictionary) (filename : string) (fs : filesystem)
  : filesystem * option error :=
  if canCreate fs filename
  then (writeFile fs filename (saveBytes d), None)
  else (fs, Some PathError).

(** The operations that compare keys read the case tables. *)
Section Keys.

Context {T : CaseTables}.

Definition keyMatches (lowerKey : string) (entry : Entry) : bool :=
  String.eqb (ToLower (Key entry)) lowerKey.

(** [findEntryCaseInsensitive]: the first entry whose lower-cased key is
    the lower-cased [key]. *)
Definition findEntryCaseInsensitive (d : Dictionary) (key : string)
  : option Entry :=
  find (keyMatches (ToLower key)) (Entries d).

Definition normalizeKeyCase (d : Dictionary) (key : string) : string :=
  match findEntryCaseInsensitive d key with
  | Some entry => Key entry
  | None => key
  end.

Definition KeyExists (d : Dictionary) (key : string) : bool :=
  match findEntryCaseInsensitive d key with
  | Some _ => true
  | None => false
  end.

Definition withEntries (d : Dictionary) (es : list Entry) : Dictionary :=
  mkDictionary (Filename d) es.

Definition newEntry (key value : string) : Entry :=
  mkEntry (key ++ " = " ++ Q ++ escapeQuotes value ++ Q) key value
          EmptyString EmptyString false false.

(** [Add]. *)
Definition Add (d : Dictionary) (key value : string) : result Dictionary :=
  if KeyExists d key then Err (DuplicateKeyError key)
  else Ok (withEntries d (Entries d ++ [newEntry key value])%list).

(** What [Set] stores through the pointer to the entry it found. *)
Definition updateEntry (entry : Entry) (value : string) : Entry :=
  let original := Key entry ++ " = " ++ Q ++ escapeQuotes value ++ Q in
  mkEntry
    (if negb (isEmpty (InlineComment entry))
     then original ++ InlineCommentSpace entry ++ InlineComment entry
     else original)
    (Key entry) value (InlineComment entry) (InlineCommentSpace entry)
    (IsComment entry) (IsBlank entry).

(** The entries after the first one that [findEntryCaseInsensitive]
    reaches has been updated in place; [None] when it reaches none. *)
Fixpoint updateFirst (lowerKey value : string) (es : list Entry)
  : option (list Entry) :=
  match es with
  | [] => None
  | entry :: rest =>
      if keyMatches lowerKey entry then Some (updateEntry entry value :: rest)
      else match updateFirst lowerKey value rest with
           | Some rest' => Some (entry :: rest')
           | None => None
           end
  end.

(** [Set]; the name has an underscore because [Set] is a sort of Rocq. *)
Definition Set_ (d : Dictionary) (key value : string) : Dictionary :=
  match updateFirst (ToLower key) value (Entries d) with
  | Some es => withEntries d es
  | None =>
      let normalizedKey := normalizeKeyCase d key in
      withEntries d (Entries d ++ [newEntry normalizedKey value])%list
  end.

(** The loop of [Remove]: the first entry whose key folds to [key] is
    deleted; [None] when there is none. *)
Fixpoint removeFirst (key : string) (es : list Entry) : option (list Entry) :=
  match es with
  | [] => None
  | entry :: rest =>
      if EqualFold (Key entry) key then Some rest
      else match removeFirst key rest with
           | Some rest' => Some (entry :: rest')
           | None => None
           end
  end.

(** [Remove]. *)
Definition Remove (d : Dictionary) (key : string) : result Dictionary :=
  match removeFirst key (Entries d) with
  | Some es => Ok (withEntries d es)
  | None => Err (KeyNotFoundError key)
  end.

(** [Query]. *)
Definition Query (d : Dictionary) (key : string) : result string :=
  match findEntryCaseInsensitive d key with
  | Some entry => Ok (Value entry)
  | None => Err (KeyNotFoundError key)
  end.

(** * Notions used to state the properties *)


(** The last byte of a string. *)
Fixpoint lastByte (s : string) : option ascii :=
  match s with
  | EmptyString => None
  | String c r =>
      match r with
      | EmptyString => Some c
      | String _ _ => lastByte r
      end
  end.

(** [findClosingQuote] as a scan that remembers the byte before the one
    it looks at. *)
Fixpoint scanQuote (prev : ascii) (s : string) (i : nat) : option nat :=
  match s with
  | EmptyString => None
  | String c r =>
      if Ascii.eqb c dquote then
        if Ascii.eqb prev backslash then scanQuote c r (S i) else Some i
      else scanQuote c r (S i)
  end.

(** A key that is read back as it was written: it is not empty, has no
    white space at either end, no equals sign, and does not start a
    comment. *)
Definition wfKey (key : string) : Prop :=
  key <> EmptyString
  /\ TrimSpace key = key
  /\ Contains key equals = false
  /\ HasPrefix key "#" = false.

(** The canonical form of an assignment. *)
Definition canonicalLine (key value : string) : string :=
  key ++ " = " ++ Q ++ escapeQuotes value ++ Q.

(** What may follow the closing quote: nothing, or an inline comment,
    which starts at the first hash and does not end in white space, after
    a gap. *)
Inductive inlineTail : string -> string -> Prop :=
| tail_none : inlineTail EmptyString EmptyString
| tail_comment (gap text : string) :
    Contains gap hash = false ->
    trimRightSpace (String hash text) = String hash text ->
    inlineTail gap (String hash text).

(** The comparison of keys in [findEntryCaseInsensitive]. *)
Definition keyEq (a b : string) : bool := String.eqb (ToLower a) (ToLower b).

(** Two bytes that are equal or are the two cases of one of the letters
    A to Z, and two strings that are so byte for byte. *)
Definition sameLetter (x y : ascii) : bool :=
  Ascii.eqb x y
  || (byteIn 65 90 x && N.eqb (N_of_ascii y) (N_of_ascii x + 32))
  || (byteIn 65 90 y && N.eqb (N_of_ascii x) (N_of_ascii y + 32)).

Fixpoint sameLetters (a b : string) : bool :=
  match a, b with
  | EmptyString, EmptyString => true
  | String x a', String y b' => sameLetter x y && sameLetters a' b'
  | _, _ => false
  end.

(** The long s, U+017F, in UTF-8. *)
Definition longS : string :=
  String (ascii_of_N 197) (String (ascii_of_N 191) EmptyString).

(** The index of the entry [findEntryCaseInsensitive] returns, or the
    number of entries when it returns none: where [Set] writes. *)
Fixpoint findIndex (lowerKey : string) (es : list Entry) : nat :=
  match es with
  | [] => 0
  | entry :: rest =>
      if keyMatches lowerKey entry then 0 else S (findIndex lowerKey rest)
  end.

(** The three kinds of line, as the flags of an [Entry] tell them. *)
Inductive Kind : Type := Blank | Comment | Assignment.

Definition hasKind (e : Entry) (k : Kind) : Prop :=
  match k with
  | Blank => IsBlank e = true /\ IsComment e = false /\ Key e = EmptyString
  | Comment => IsBlank e = false /\ IsComment e = true /\ Key e = EmptyString
  | Assignment => IsBlank e = false /\ IsComment e = false
  end.

(** What [Set] and [Save] put after the closing quote of an entry. *)
Definition inlineSuffix (e : Entry) : string :=
  if negb (isEmpty (InlineComment e))
  then InlineCommentSpace e ++ InlineComment e
  else EmptyString.

(** A file system with one regular file. *)
Definition oneFile (path data : string) : filesystem :=
  writeFile (fun _ => Absent) path data.

Definition BS : string := String backslash EmptyString.

(** A line that [Save] and [Print] give back byte for byte: an empty
    line, a comment, or an assignment in canonical form, with or without
    an inline comment. *)
Inductive preservedLine : string -> Prop :=
| preserved_empty : preservedLine EmptyString
| preserved_comment (l : string) :
    IsComment (parseLine l) = true -> preservedLine l
| preserved_assignment (key value gap cmt : string) :
    wfKey key -> lastByte value <> Some backslash -> inlineTail gap cmt ->
    preservedLine (canonicalLine key value ++ gap ++ cmt).

(** The same without inline comments. *)
Inductive roundTripLine : string -> Prop :=
| roundTrip_empty : roundTripLine EmptyString
| roundTrip_comment (l : string) :
    IsComment (parseLine l) = true -> roundTripLine l
| roundTrip_assignment (key value : string) :
    wfKey key -> lastByte value <> Some backslash ->
    roundTripLine (canonicalLine key value).

(** A line of text that the scanner returns as it stands in the file: it
    has no line feed in it, no carriage return at its end, and fits the
    buffer. *)
Definition scannedAsIs (l : string) : Prop :=
  Contains l LF = false /\ dropCR l = l /\ fits l = true.

(** The lines [LoadDictionary] reads at [path], where [Save] can write
    afterwards: those the scanner finds in a file that can be read and
    written, none when the path names nothing and a file can be created
    there. *)
Definition fileLoads (fs : filesystem) (path : string) (lines : list string)
  : Prop :=
  match fs path with
  | Regular data => scanLines data = Some lines
  | Absent => lines = []
  | Uncreatable | Denied | ReadOnly _ => False
  end.

(** The lines [LoadDictionary] reads at [path], where [Save] cannot
    write afterwards: those of a file that can be read but not written,
    none when the path names nothing and no file can be created there. *)
Definition fileLoadsOnly (fs : filesystem) (path : string) (lines : list string)
  : Prop :=
  match fs path with
  | ReadOnly data => scanLines data = Some lines
  | Uncreatable => lines = []
  | Absent | Denied | Regular _ => False
  end.

(** * The command line *)

(** The two errors of [parseKeyValue]: invalid format, expected KEY=VALUE;
    and key cannot be empty. *)
Inductive kvError : Type :=
| InvalidFormat
| EmptyKey.

Inductive kvResult : Type :=
| KeyValue (key value : string)
| KVError (e : kvError).

(** [parseKeyValue]: the argument is split at its first equals sign, both
    parts are trimmed, and a value between double quotes loses them and
    is unescaped. *)
Definition parseKeyValue (kv : string) : kvResult :=
  match SplitN2 kv equals with
  | [part0; part1] =>
      let key := TrimSpace part0 in
      let value := TrimSpace part1 in
      let value :=
        if Nat.leb 2 (String.length value)
           && byteAtIs value 0 dquote
           && byteAtIs value (String.length value - 1) dquote
        then unescapeQuotes (slice value 1 (String.length value - 1))
        else value in
      if isEmpty key then KVError EmptyKey else KeyValue key value
  | _ => KVError InvalidFormat
  end.

(** The version information that is set during the build, and the text
    of the error of the operating system for a path that cannot be opened
    or created. *)
Record Environment : Type := mkEnvironment {
  Version : string;
  BuildDate : string;
  Commit : string;
  pathErrorText : string -> string
}.

(** What [printHelp] prints. *)
Definition printHelp : string :=
  "A tool to examine and modify VMware VMX configuration files.

Available commands:
    help
        Prints help.

    version
        Prints version information.

    print FILE
        Prints the contents of the specified VMX file.

    add FILE KEY=VALUE
        Adds a new entry to the specified VMX file.
        Fails if the key already exists.

    set FILE KEY=VALUE
        Sets an entry in the specified VMX file, adding it if it does
        not already exist.

    remove FILE KEY
        Removes the entry with the specified key from the specified VMX
        file. Fails if the key does not exist.

    query FILE KEY
        Prints the value for the specified key from the specified VMX
        file. Fails if the key does not exist." ++ NL.

(** What [printVersion] prints; the last line starts with the two bytes
    of the copyright sign. *)
Definition printVersion (env : Environment) : string :=
  "vmxtool version " ++ Version env ++ NL
  ++ "Build date: " ++ BuildDate env ++ NL
  ++ "Commit: " ++ Commit env ++ NL
  ++ String (ascii_of_N 194) (String (ascii_of_N 169) " 2025 David Parsons") ++ NL.

(** The text of an error, as the verb v of [fmt.Printf] prints it. *)
Definition errorText (env : Environment) (path : string) (e : error) : string :=
  match e with
  | PathError => pathErrorText env path
  | ErrTooLong => "bufio.Scanner: token too long"
  | DuplicateKeyError key => "key '" ++ key ++ "' already exists"
  | KeyNotFoundError key => "key '" ++ key ++ "' does not exist"
  end.

Definition kvErrorText (e : kvError) : string :=
  match e with
  | InvalidFormat => "invalid format: expected KEY=VALUE"
  | EmptyKey => "key cannot be empty"
  end.

Definition usageHint : string :=
  "Use 'vmxtool help' for usage information" ++ NL.

(** The commands [add] and [set] of [run], after the count of the
    arguments has been checked. *)
Definition runAdd (env : Environment) (filename keyValue : string)
           (fs : filesystem) : nat * string * filesystem :=
  match parseKeyValue keyValue with
  | KVError e => (1, "Error: " ++ kvErrorText e ++ NL, fs)
  | KeyValue key value =>
      match LoadDictionary filename fs with
      | Err e => (1, "Error loading file: " ++ errorText env filename e ++ NL, fs)
      | Ok dict =>
          if KeyExists dict key then
            let existingKey :=
              match findEntryCaseInsensitive dict key with
              | Some entry => Key entry
              | None => EmptyString
              end in
            (1, "Error: key '" ++ key ++ "' already exists (as '"
                ++ existingKey ++ "')" ++ NL, fs)
          else
            match Add dict key value with
            | Err e => (1, "Error: " ++ errorText env filename e ++ NL, fs)
            | Ok dict' =>
                match Save dict' filename fs with
                | (fs', Some e) =>
                    (1, "Error saving file: " ++ errorText env filename e ++ NL, fs')
                | (fs', None) => (0, EmptyString, fs')
                end
            end
      end
  end.

Definition runSet (env : Environment) (filename keyValue : string)
           (fs : filesystem) : nat * string * filesystem :=
  match parseKeyValue keyValue with
  | KVError e => (1, "Error: " ++ kvErrorText e ++ NL, fs)
  | KeyValue key value =>
      match LoadDictionary filename fs with
      | Err e => (1, "Error loading file: " ++ errorText env filename e ++ NL, fs)
      | Ok dict =>
          match Save (Set_ dict key value) filename fs with
          | (fs', Some e) =>
              (1, "Error saving file: " ++ errorText env filename e ++ NL, fs')
          | (fs', None) => (0, EmptyString, fs')
          end
      end
  end.

(** The commands [remove], [query] and [print]. *)
Definition runRemove (env : Environment) (filename key : string)
           (fs : filesystem) : nat * string * filesystem :=
  match LoadDictionary filename fs with
  | Err e => (1, "Error loading file: " ++ errorText env filename e ++ NL, fs)
  | Ok dict =>
      match Remove dict key with
      | Err e => (1, "Error: " ++ errorText env filename e ++ NL, fs)
      | Ok dict' =>
          match Save dict' filename fs with
          | (fs', Some e) =>
              (1, "Error saving file: " ++ errorText env filename e ++ NL, fs')
          | (fs', None) => (0, EmptyString, fs')
          end
      end
  end.

Definition runQuery (env : Environment) (filename key : string)
           (fs : filesystem) : nat * string * filesystem :=
  match LoadDictionary filename fs with
  | Err e => (1, "Error loading file: " ++ errorText env filename e ++ NL, fs)
  | Ok dict =>
      match Query dict key with
      | Err e => (1, "Error: " ++ errorText env filename e ++ NL, fs)
      | Ok value => (0, value ++ NL, fs)
      end
  end.

Definition runPrint (env : Environment) (filename : string)
           (fs : filesystem) : nat * string * filesystem :=
  match LoadDictionary filename fs with
  | Err e => (1, "Error loading file: " ++ errorText env filename e ++ NL, fs)
  | Ok dict => (0, Print dict, fs)
  end.

(** [run]: the exit code, what is written to standard output, and the
    file system afterwards, for the arguments [os.Args]. *)
Definition run (env : Environment) (args : list string) (fs : filesystem)
  : nat * string * filesystem :=
  match args with
  | _ :: command :: rest =>
      if String.eqb command "help" then (0, printHelp, fs)
      else if String.eqb command "version" then (0, printVersion env, fs)
      else if String.eqb command "print" then
        match rest with
        | [filename] => runPrint env filename fs
        | _ => (1, "Error: print command requires FILE argument" ++ NL
                   ++ "Usage: vmxtool print FILE" ++ NL, fs)
        end
      else if String.eqb command "add" then
        match rest with
        | [filename; keyValue] => runAdd env filename keyValue fs
        | _ => (1, "Error: add command requires FILE and KEY=VALUE arguments" ++ NL
                   ++ "Usage: vmxtool add FILE KEY=VALUE" ++ NL, fs)
        end
      else if String.eqb command "set" then
        match rest with
        | [filename; keyValue] => runSet env filename keyValue fs
        | _ => (1, "Error: set command requires FILE and KEY=VALUE arguments" ++ NL
                   ++ "Usage: vmxtool set FILE KEY=VALUE" ++ NL, fs)
        end
      else if String.eqb command "remove" then
        match rest with
        | [filename; key] => runRemove env filename key fs
        | _ => (1, "Error: remove command requires FILE and KEY arguments" ++ NL
                   ++ "Usage: vmxtool remove FILE KEY" ++ NL, fs)
        end
      else if String.eqb command "query" then
        match rest with
        | [filename; key] => runQuery env filename key fs
        | _ => (1, "Error: query command requires FILE and KEY arguments" ++ NL
                   ++ "Usage: vmxtool query FILE KEY" ++ NL, fs)
        end
      else
        (1, "Error: unknown command '" ++ command ++ "'" ++ NL ++ usageHint, fs)
  | _ => (1, "Error: no command provided" ++ NL ++ usageHint, fs)
  end.

(** The byte at index [j] is preceded by a backslash: the test of
    findClosingQuote, [i > 0 && s[i-1] == backslash]. *)
Definition escapedAt (s : string) (j : nat) : bool :=
  Nat.ltb 0 j && byteAtIs s (j - 1) backslash.

(** The lower-cased keys of the entries that have a key, in the order of
    the entries: what [findEntryCaseInsensitive] compares. *)
Definition keyedLower (es : list Entry) : list string :=
  map (fun e => ToLower (Key e))
      (filter (fun e => negb (isEmpty (Key e))) es).

(** No two entries with a key have the same key up to case. *)
Definition uniqueKeys (d : Dictionary) : Prop :=
  NoDup (keyedLower (Entries d)).

End Keys.

(** * The two other programs of the repository

    The file src/vmxtool.go and the first program of
    src/unnamed/part_001 (its lines 1 to 483) are two more programs for
    the same command line.  They compare keys byte for byte, have no
    inline comments, and read a value by removing the double quotes
    around it.  The first writes a value between double quotes only when
    [needsQuoting] says so; the second always writes it between double
    quotes, with [escapeQuotes]. *)

(** ** What the two programs have in common *)

Module Earlier.

Record Entry : Type := mkEntry {
  Original : string;
  Key : string;
  Value : string;
  IsComment : bool;
  IsBlank : bool
}.

Record Dictionary : Type := mkDictionary {
  Filename : string;
  Entries : list Entry
}.

(** The double quotes around a value are removed when it has both (in
    [LoadDictionary], and in [parseKeyValue] of src/vmxtool.go). *)
Definition removeQuotes (value : string) : string :=
  if Nat.leb 2 (String.length value)
     && byteAtIs value 0 dquote
     && byteAtIs value (String.length value - 1) dquote
  then slice value 1 (String.length value - 1)
  else value.

(** The body of the scanner loop of [LoadDictionary]. *)
Definition parseLine (original : string) : Entry :=
  let trimmed := TrimSpace original in
  if isEmpty trimmed then mkEntry original EmptyString EmptyString false true
  else if HasPrefix trimmed "#" then
    mkEntry original EmptyString EmptyString true false
  else
    match SplitN2 trimmed equals with
    | [part0; part1] =>
        let key := TrimSpace part0 in
        let value := TrimSpace part1 in
        mkEntry original key (removeQuotes value) false false
    | _ => mkEntry original EmptyString EmptyString true false
    end.

Definition LoadDictionary (filename : string) (fs : filesystem)
  : result Dictionary :=
  match fs filename with
  | Absent | Uncreatable => Ok (mkDictionary filename [])
  | Denied => Err PathError
  | Regular data | ReadOnly data =>
      match scanLines data with
      | Some lines => Ok (mkDictionary filename (map parseLine lines))
      | None => Err ErrTooLong
      end
  end.

Definition hasKey (key : string) (entry : Entry) : bool :=
  String.eqb (Key entry) key.

Definition KeyExists (d : Dictionary) (key : string) : bool :=
  existsb (hasKey key) (Entries d).

Definition Query (d : Dictionary) (key : string) : result string :=
  match find (hasKey key) (Entries d) with
  | Some entry => Ok (Value entry)
  | None => Err (KeyNotFoundError key)
  end.

Definition withEntries (d : Dictionary) (es : list Entry) : Dictionary :=
  mkDictionary (Filename d) es.

Fixpoint removeFirst (key : string) (es : list Entry) : option (list Entry) :=
  match es with
  | [] => None
  | entry :: rest =>
      if hasKey key entry then Some rest
      else match removeFirst key rest with
           | Some rest' => Some (entry :: rest')
           | None => None
           end
  end.

Definition Remove (d : Dictionary) (key : string) : result Dictionary :=
  match removeFirst key (Entries d) with
  | Some es => Ok (withEntries d es)
  | None => Err (KeyNotFoundError key)
  end.

(** The loop of [Set]: the value of the first entry with the key is
    replaced, its line is kept; [None] when no entry has the key. *)
Fixpoint updateFirst (key value : string) (es : list Entry)
  : option (list Entry) :=
  match es with
  | [] => None
  | entry :: rest =>
      if hasKey key entry then
        Some (mkEntry (Original entry) (Key entry) value
                      (IsComment entry) (IsBlank entry) :: rest)
      else match updateFirst key value rest with
           | Some rest' => Some (entry :: rest')
           | None => None
           end
  end.

(** [Add] and [Set], for the line [original] that [Add] gives the new
    entry; [Set] ends in a call of [Add], whose error it drops. *)
Definition addWith (original : string -> string -> string)
           (d : Dictionary) (key value : string) : result Dictionary :=
  if KeyExists d key then Err (DuplicateKeyError key)
  else Ok (withEntries d
             (Entries d ++ [mkEntry (original key value) key value false false])).

Definition setWith (original : string -> string -> string)
           (d : Dictionary) (key value : string) : Dictionary :=
  match updateFirst key value (Entries d) with
  | Some es => withEntries d es
  | None =>
      match addWith original d key value with
      | Ok d' => d'
      | Err _ => d
      end
  end.

(** [Save] and [Print], for the text [format] that stands for a value. *)
Definition saveLineWith (format : string -> string) (entry : Entry) : string :=
  if IsBlank entry then EmptyString
  else if IsComment entry then Original entry
  else if negb (isEmpty (Key entry)) then
    if Contains (Original entry) equals then
      let originalParts := SplitN2 (Original entry) equals in
      let keyPart := TrimRight (nth 0 originalParts EmptyString) spaceOrTab in
      keyPart ++ " = " ++ format (Value entry)
    else Key entry ++ " = " ++ format (Value entry)
  else Original entry.

Definition printLineWith (format : string -> string) (entry : Entry) : string :=
  if IsBlank entry then EmptyString
  else if IsComment entry then Original entry
  else if negb (isEmpty (Key entry)) then
    Key entry ++ " = " ++ format (Value entry)
  else Original entry.

Definition saveWith (format : string -> string) (d : Dictionary)
           (filename : string) (fs : filesystem) : filesystem * option error :=
  if canCreate fs filename
  then (writeFile fs filename (unlines (map (saveLineWith format) (Entries d))),
        None)
  else (fs, Some PathError).

(** What a program is made of, for [main]: the two programs have the
    same [main], but for the way it ends the process. *)
Record Program : Type := mkProgram {
  parseKV : string -> kvResult;
  add : Dictionary -> string -> string -> result Dictionary;
  set : Dictionary -> string -> string -> Dictionary;
  save : Dictionary -> string -> filesystem -> filesystem * option error;
  print : Dictionary -> string;
  help : string;
  version : Environment -> string
}.

(** [main]: the exit code, what is written to standard output, and the
    file system afterwards, for the arguments [os.Args]. *)
Definition main (p : Program) (env : Environment) (args : list string)
           (fs : filesystem) : nat * string * filesystem :=
  match args with
  | _ :: command :: rest =>
      if String.eqb command "help" then (0, help p, fs)
      else if String.eqb command "version" then (0, version p env, fs)
      else if String.eqb command "print" then
        match rest with
        | [filename] =>
            match LoadDictionary filename fs with
            | Err e =>
                (1, "Error loading file: " ++ errorText env filename e ++ NL, fs)
            | Ok dict => (0, print p dict, fs)
            end
        | _ => (1, "Error: print command requires FILE argument" ++ NL
                   ++ "Usage: vmxtool print FILE" ++ NL, fs)
        end
      else if String.eqb command "add" then
        match rest with
        | [filename; keyValue] =>
            match parseKV p keyValue with
            | KVError e => (1, "Error: " ++ kvErrorText e ++ NL, fs)
            | KeyValue key value =>
                match LoadDictionary filename fs with
                | Err e =>
                    (1, "Error loading file: " ++ errorText env filename e ++ NL,
                     fs)
                | Ok dict =>
                    match add p dict key value with
                    | Err e =>
                        (1, "Error: " ++ errorText env filename e ++ NL, fs)
                    | Ok dict' =>
                        match save p dict' filename fs with
                        | (fs', Some e) =>
                            (1, "Error saving file: "
                                ++ errorText env filename e ++ NL, fs')
                        | (fs', None) =>
                            (0, "Added: " ++ key ++ "=" ++ value ++ NL, fs')
                        end
                    end
                end
            end
        | _ => (1, "Error: add command requires FILE and KEY=VALUE arguments"
                   ++ NL ++ "Usage: vmxtool add FILE KEY=VALUE" ++ NL, fs)
        end
      else if String.eqb command "set" then
        match rest with
        | [filename; keyValue] =>
            match parseKV p keyValue with
            | KVError e => (1, "Error: " ++ kvErrorText e ++ NL, fs)
            | KeyValue key value =>
                match LoadDictionary filename fs with
                | Err e =>
                    (1, "Error loading file: " ++ errorText env filename e ++ NL,
                     fs)
                | Ok dict =>
                    match save p (set p dict key value) filename fs with
                    | (fs', Some e) =>
                        (1, "Error saving file: "
                            ++ errorText env filename e ++ NL, fs')
                    | (fs', None) =>
                        (0, "Set: " ++ key ++ "=" ++ value ++ NL, fs')
                    end
                end
            end
        | _ => (1, "Error: set command requires FILE and KEY=VALUE arguments"
                   ++ NL ++ "Usage: vmxtool set FILE KEY=VALUE" ++ NL, fs)
        end
      else if String.eqb command "remove" then
        match rest with
        | [filename; key] =>
            match LoadDictionary filename fs with
            | Err e =>
                (1, "Error loading file: " ++ errorText env filename e ++ NL, fs)
            | Ok dict =>
                match Remove dict key with
                | Err e => (1, "Error: " ++ errorText env filename e ++ NL, fs)
                | Ok dict' =>
                    match save p dict' filename fs with
                    | (fs', Some e) =>
                        (1, "Error saving file: "
                            ++ errorText env filename e ++ NL, fs')
                    | (fs', None) => (0, "Removed: " ++ key ++ NL, fs')
                    end
                end
            end
        | _ => (1, "Error: remove command requires FILE and KEY arguments" ++ NL
                   ++ "Usage: vmxtool remove FILE KEY" ++ NL, fs)
        end
      else if String.eqb command "query" then
        match rest with
        | [filename; key] =>
            match LoadDictionary filename fs with
            | Err e =>
                (1, "Error loading file: " ++ errorText env filename e ++ NL, fs)
            | Ok dict =>
                match Query dict key with
                | Err e => (1, "Error: " ++ errorText env filename e ++ NL, fs)
                | Ok value => (0, value ++ NL, fs)
                end
            end
        | _ => (1, "Error: query command requires FILE and KEY arguments" ++ NL
                   ++ "Usage: vmxtool query FILE KEY" ++ NL, fs)
        end
      else
        (1, "Error: unknown command '" ++ command ++ "'" ++ NL ++ usageHint, fs)
  | _ => (1, "Error: no command provided" ++ NL ++ usageHint, fs)
  end.

End Earlier.

(** ** src/unnamed/part_001, lines 1 to 483: values always quoted *)

Module Quoted.

Import Earlier.

(** The text [Save] and [Print] write for a value. *)
Definition formattedValue (value : string) : string :=
  Q ++ escapeQuotes value ++ Q.

Definition saveLine : Entry -> string := saveLineWith formattedValue.
Definition printLine : Entry -> string := printLineWith formattedValue.

Definition Save : Dictionary -> string -> filesystem -> filesystem * option error :=
  saveWith formattedValue.

Definition Print (d : Dictionary) : string :=
  unlines (map printLine (Entries d)).

(** The line of the entry [Add] makes: the value is not escaped there. *)
Definition newOriginal (key value : string) : string :=
  key ++ " = " ++ Q ++ value ++ Q.

Definition Add : Dictionary -> string -> string -> result Dictionary :=
  addWith newOriginal.

Definition Set_ : Dictionary -> string -> string -> Dictionary :=
  setWith newOriginal.

(** What [printHelp] of this program prints. *)
Definition printHelp : string :=
  "A tool to examine and modify VMware VMX configuration files.

Available commands:
    help
        Prints help.

    version
        Prints version information.

    print FILE
        Prints the contents of the specified VMX file.

    add FILE KEY=VALUE
        Adds a new entry to the specified VMX file.
        Fails if the key already exists.

    set FILE KEY=VALUE
        Sets an entry in the specified VMX file, adding it if it does
        not already exist.

    remove FILE KEY
        Remove the entry with the specified key from the specified VMX
        file. Fails if the key does not exist.

    query FILE KEY
        Prints the value for the specified key from the specified VMX
        file. Fails if the key does not exist." ++ NL.

(** [parseKeyValue] and [printVersion] are those of the last program. *)
Definition program : Program :=
  mkProgram parseKeyValue Add Set_ Save Print printHelp printVersion.

Definition main : Environment -> list string -> filesystem
                  -> nat * string * filesystem :=
  Earlier.main program.

End Quoted.

(** ** src/vmxtool.go: values quoted when needed *)

Module Unquoted.

Import Earlier.

(** [needsQuoting]: the value is empty, or one of its runes is white
    space, a double quote or an equals sign. *)
Definition needsQuoting (value : string) : bool :=
  isEmpty value
  || existsb (fun char => IsSpace char || N.eqb char 34 || N.eqb char 61)
             (runes value).

Definition formattedValue (value : string) : string :=
  if needsQuoting value then Q ++ value ++ Q else value.

Definition saveLine : Entry -> string := saveLineWith formattedValue.
Definition printLine : Entry -> string := printLineWith formattedValue.

Definition Save : Dictionary -> string -> filesystem -> filesystem * option error :=
  saveWith formattedValue.

Definition Print (d : Dictionary) : string :=
  unlines (map printLine (Entries d)).

Definition newOriginal (key value : string) : string :=
  key ++ " = " ++ value.

Definition Add : Dictionary -> string -> string -> result Dictionary :=
  addWith newOriginal.

Definition Set_ : Dictionary -> string -> string -> Dictionary :=
  setWith newOriginal.

(** [parseKeyValue] of this program removes the quotes and leaves the
    escapes. *)
Definition parseKeyValue (kv : string) : kvResult :=
  match SplitN2 kv equals with
  | [part0; part1] =>
      let key := TrimSpace part0 in
      let value := removeQuotes (TrimSpace part1) in
      if isEmpty key then KVError EmptyKey else KeyValue key value
  | _ => KVError InvalidFormat
  end.

(** [printVersion] of this program ends without line feed; its
    [printHelp] prints what that of the last program prints. *)
Definition printVersion (env : Environment) : string :=
  "vmxtool version " ++ Version env ++ NL
  ++ "Build date: " ++ BuildDate env ++ NL
  ++ "Commit: " ++ Commit env ++ NL
  ++ String (ascii_of_N 194) (String (ascii_of_N 169) " 2025 David Parsons").

Definition program : Program :=
  mkProgram parseKeyValue Add Set_ Save Print printHelp printVersion.

Definition main : Environment -> list string -> filesystem
                  -> nat * string * filesystem :=
  Earlier.main program.

End Unquoted.

(** The first [skip] bytes of [s] are continuation bytes. *)
Fixpoint contPrefix (skip : nat) (s : string) : bool :=
  match skip, s with
  | S k, String c r => isCont c && contPrefix k r
  | _, _ => true
  end.

(** The test of [needsQuoting] on a rune. *)
Definition quotingRune (char : N) : bool :=
  IsSpace char || N.eqb char 34 || N.eqb char 61.

(** The test of [needsQuoting] on a byte below 0x80. *)
Definition quotingByte (c : ascii) : bool :=
  asciiSpace c || Ascii.eqb c dquote || Ascii.eqb c equals.

(** * Facts about the string functions *)

Section StringFacts.

Lemma string_length_ind (P : string -> Prop) :
  (forall s, (forall t, String.length t < String.length s -> P t) -> P s) ->
  forall s, P s.
Proof.
  intros step s.
  remember (String.length s) as n eqn:Hn.
  revert s Hn.
  induction n as [n IH] using lt_wf_ind.
  intros s Hn. apply step. intros t Ht. apply (IH (String.length t)); subst; auto.
Qed.

Lemma append_nil_r (s : string) : s ++ EmptyString = s.
Proof. induction s; simpl; congruence. Qed.

Lemma append_assoc (a b c : string) : (a ++ b) ++ c = a ++ (b ++ c).
Proof. induction a; simpl; congruence. Qed.

Lemma append_length (a b : string) :
  String.length (a ++ b) = String.length a + String.length b.
Proof. induction a; simpl; congruence. Qed.

Lemma isEmpty_false (s : string) : isEmpty s = false <-> s <> EmptyString.
Proof. destruct s; simpl; split; congruence. Qed.

End StringFacts.

Ltac byte_facts :=
  unfold space2, space3, asciiSpace, spaceOrTab, isASCIIByte, byteIs, byteIn in *;
  repeat match goal with
  | H : _ && _ = true |- _ => apply andb_true_iff in H; destruct H
  | H : _ || _ = true |- _ => apply orb_true_iff in H; destruct H
  | H : N.eqb _ _ = true |- _ => apply N.eqb_eq in H
  | H : N.leb _ _ = true |- _ => apply N.leb_le in H
  | H : N.ltb _ _ = true |- _ => apply N.ltb_lt in H
  | H : N.ltb _ _ = false |- _ => apply N.ltb_ge in H
  | H : N.leb _ _ = false |- _ => apply N.leb_gt in H
  | H : N.eqb _ _ = false |- _ => apply N.eqb_neq in H
  end.

Section TrimFacts.

Lemma space2_not_ascii (c d : ascii) :
  space2 c d = true -> isASCIIByte c = false /\ isASCIIByte d = false.
Proof.
  intros H. byte_facts; split; apply N.ltb_ge; lia.
Qed.

Lemma space3_not_ascii (c d e : ascii) :
  space3 c d e = true ->
  isASCIIByte c = false /\ isASCIIByte d = false /\ isASCIIByte e = false.
Proof.
  intros H. byte_facts; repeat split; apply N.ltb_ge; lia.
Qed.

Lemma asciiSpace_ascii (c : ascii) : asciiSpace c = true -> isASCIIByte c = true.
Proof. intros H. byte_facts; apply N.ltb_lt; lia. Qed.

Lemma space2_ascii_r (c x : ascii) : isASCIIByte x = true -> space2 c x = false.
Proof.
  intros Hx. destruct (space2 c x) eqn:E; auto.
  apply space2_not_ascii in E. destruct E; congruence.
Qed.

Lemma space3_ascii_m (c x e : ascii) : isASCIIByte x = true -> space3 c x e = false.
Proof.
  intros Hx. destruct (space3 c x e) eqn:E; auto.
  apply space3_not_ascii in E. destruct E as (_ & ? & _); congruence.
Qed.

Lemma space3_ascii_r (c d x : ascii) : isASCIIByte x = true -> space3 c d x = false.
Proof.
  intros Hx. destruct (space3 c d x) eqn:E; auto.
  apply space3_not_ascii in E. destruct E as (_ & _ & ?); congruence.
Qed.

Lemma trimLeftSpace_length (s : string) :
  String.length (trimLeftSpace s) <= String.length s.
Proof.
  induction s as [s IH] using string_length_ind.
  destruct s as [|c [|d [|e r]]]; simpl; auto.
  - destruct (asciiSpace c); simpl; auto.
  - destruct (asciiSpace c).
    + specialize (IH (String d EmptyString)). simpl in IH. 
      etransitivity; [apply IH; lia|]. simpl. lia.
    + destruct (space2 c d); simpl; lia.
  - destruct (asciiSpace c).
    + etransitivity; [apply (IH (String d (String e r))); simpl; lia|]. simpl; lia.
    + destruct (space2 c d).
      * etransitivity; [apply (IH (String e r)); simpl; lia|]. simpl; lia.
      * destruct (space3 c d e).
        -- etransitivity; [apply (IH r); simpl; lia|]. simpl; lia.
        -- simpl. lia.
Qed.

Lemma allSpace_true (s : string) : allSpace s = true <-> trimLeftSpace s = EmptyString.
Proof. unfold allSpace. destruct (trimLeftSpace s); split; congruence. Qed.

Lemma allSpace_false (s : string) : allSpace s = false <-> trimLeftSpace s <> EmptyString.
Proof. unfold allSpace. destruct (trimLeftSpace s); split; congruence. Qed.

(** White space cannot reach over a byte below 0x80: trimming on the left
    of [a ++ String x y] works on [a] alone, and goes on into the rest
    only when [a] is all white space. *)
Lemma trimLeftSpace_app_ascii (x : ascii) (y a : string) :
  isASCIIByte x = true ->
  trimLeftSpace (a ++ String x y) =
  if allSpace a then trimLeftSpace (String x y) else trimLeftSpace a ++ String x y.
Proof.
  intros Hx. induction a as [a IH] using string_length_ind.
  unfold allSpace in *.
  destruct a as [|c [|d [|e r]]].
  - reflexivity.
  - cbn [append trimLeftSpace].
    destruct (asciiSpace c) eqn:Sc.
    + reflexivity.
    + rewrite (space2_ascii_r c x Hx).
      destruct y as [|e y']; [reflexivity|].
      rewrite (space3_ascii_m c x e Hx). reflexivity.
  - cbn [append]. 
    change (trimLeftSpace (String c (String d (String x y))))
      with (if asciiSpace c then trimLeftSpace (String d EmptyString ++ String x y)
            else if space2 c d then trimLeftSpace (String x y)
            else if space3 c d x then trimLeftSpace y else String c (String d (String x y))).
    change (trimLeftSpace (String c (String d EmptyString)))
      with (if asciiSpace c then trimLeftSpace (String d EmptyString)
            else if space2 c d then EmptyString
            else String c (String d EmptyString)).
    destruct (asciiSpace c).
    + apply IH. simpl; lia.
    + destruct (space2 c d); [reflexivity|].
      rewrite (space3_ascii_r c d x Hx). reflexivity.
  - cbn [append].
    change (trimLeftSpace (String c (String d (String e (r ++ String x y)))))
      with (if asciiSpace c then trimLeftSpace (String d (String e r) ++ String x y)
            else if space2 c d then trimLeftSpace (String e r ++ String x y)
            else if space3 c d e then trimLeftSpace (r ++ String x y)
            else String c (String d (String e (r ++ String x y)))).
    change (trimLeftSpace (String c (String d (String e r))))
      with (if asciiSpace c then trimLeftSpace (String d (String e r))
            else if space2 c d then trimLeftSpace (String e r)
            else if space3 c d e then trimLeftSpace r
            else String c (String d (String e r))).
    destruct (asciiSpace c); [apply IH; simpl; lia|].
    destruct (space2 c d); [apply IH; simpl; lia|].
    destruct (space3 c d e); [apply IH; simpl; lia|].
    reflexivity.
Qed.

End TrimFacts.

Section TrimFacts2.

Lemma allSpace_app_ascii (x : ascii) (y a : string) :
  isASCIIByte x = true ->
  allSpace (a ++ String x y) = allSpace a && allSpace (String x y).
Proof.
  intros Hx. unfold allSpace at 1. rewrite (trimLeftSpace_app_ascii x y a Hx).
  destruct (allSpace a) eqn:Ea; [reflexivity|].
  apply allSpace_false in Ea.
  destruct (trimLeftSpace a); [congruence | reflexivity].
Qed.

Lemma trimLeftSpace_ascii_nonspace (c : ascii) (r : string) :
  isASCIIByte c = true -> asciiSpace c = false ->
  trimLeftSpace (String c r) = String c r.
Proof.
  intros Hc Hs. simpl. rewrite Hs.
  destruct r as [|d [|e r]]; auto.
  - destruct (space2 c d) eqn:E; auto.
    apply space2_not_ascii in E. destruct E; congruence.
  - destruct (space2 c d) eqn:E.
    { apply space2_not_ascii in E. destruct E; congruence. }
    destruct (space3 c d e) eqn:E3; auto.
    apply space3_not_ascii in E3. destruct E3; congruence.
Qed.

Lemma allSpace_ascii_nonspace (c : ascii) (r : string) :
  isASCIIByte c = true -> asciiSpace c = false -> allSpace (String c r) = false.
Proof.
  intros. unfold allSpace. rewrite trimLeftSpace_ascii_nonspace; auto.
Qed.

Lemma trimRightSpace_allSpace (s : string) :
  allSpace s = true -> trimRightSpace s = EmptyString.
Proof. destruct s; simpl; auto. intros ->. reflexivity. Qed.

Lemma trimRightSpace_length (s : string) :
  String.length (trimRightSpace s) <= String.length s.
Proof.
  induction s as [|c r IH]; simpl; auto.
  destruct (allSpace (String c r)); simpl; lia.
Qed.

(** Trimming on the right of [a ++ String x y], for a byte [x] below
    0x80, reaches into [a] only when the rest is all white space. *)
Lemma trimRightSpace_app_ascii (x : ascii) (y a : string) :
  isASCIIByte x = true ->
  trimRightSpace (a ++ String x y) =
  if allSpace (String x y) then trimRightSpace a
  else a ++ trimRightSpace (String x y).
Proof.
  intros Hx. induction a as [|c a IH].
  - cbn [append]. destruct (allSpace (String x y)) eqn:E; auto.
    apply trimRightSpace_allSpace; auto.
  - remember (trimRightSpace (String x y)) as t eqn:Ht.
    cbn [append trimRightSpace].
    change (String c (a ++ String x y)) with (String c a ++ String x y).
    rewrite (allSpace_app_ascii x y (String c a) Hx), IH.
    destruct (allSpace (String x y)).
    + rewrite andb_true_r. reflexivity.
    + rewrite andb_false_r. reflexivity.
Qed.

(** What [trimLeftSpace] returns is a suffix of its argument. *)
Lemma trimLeftSpace_suffix (s : string) :
  exists w, s = w ++ trimLeftSpace s.
Proof.
  induction s as [s IH] using string_length_ind.
  destruct s as [|c r1].
  { exists EmptyString; reflexivity. }
  cbn [trimLeftSpace].
  destruct (asciiSpace c).
  { destruct (IH r1) as [w Hw]; [simpl; lia|].
    exists (String c w). simpl. congruence. }
  destruct r1 as [|d r2]; [exists EmptyString; reflexivity|].
  destruct (space2 c d).
  { destruct (IH r2) as [w Hw]; [simpl; lia|].
    exists (String c (String d w)). simpl. congruence. }
  destruct r2 as [|e r3]; [exists EmptyString; reflexivity|].
  destruct (space3 c d e); [|exists EmptyString; reflexivity].
  destruct (IH r3) as [w Hw]; [simpl; lia|].
  exists (String c (String d (String e w))). simpl. congruence.
Qed.

(** What [trimRightSpace] returns is a prefix of its argument. *)
Lemma trimRightSpace_prefix (s : string) :
  exists w, s = trimRightSpace s ++ w.
Proof.
  induction s as [|c r [w Hw]]; [exists EmptyString; reflexivity|].
  cbn [trimRightSpace]. destruct (allSpace (String c r)).
  - exists (String c r). reflexivity.
  - exists w. simpl. congruence.
Qed.

Lemma app_eq_length_nil_l (w s : string) :
  String.length (w ++ s) <= String.length s -> w = EmptyString.
Proof. rewrite append_length. destruct w; simpl; auto. lia. Qed.

Lemma TrimSpace_fix (s : string) :
  TrimSpace s = s -> trimLeftSpace s = s /\ trimRightSpace s = s.
Proof.
  unfold TrimSpace. intros H.
  assert (HL : trimLeftSpace s = s).
  { destruct (trimLeftSpace_suffix s) as [w Hw].
    pose proof (trimRightSpace_length (trimLeftSpace s)) as L1.
    rewrite H in L1.
    assert (w = EmptyString).
    { apply (app_eq_length_nil_l w (trimLeftSpace s)). rewrite <- Hw. exact L1. }
    subst w. simpl in Hw. auto. }
  split; auto. rewrite HL in H. exact H.
Qed.

Lemma trimLeftSpace_fix_not_allSpace (s : string) :
  s <> EmptyString -> trimLeftSpace s = s -> allSpace s = false.
Proof. intros Hne H. apply allSpace_false. congruence. Qed.

Lemma trimLeftSpace_fix_app (s t : string) (x : ascii) :
  s <> EmptyString -> trimLeftSpace s = s -> isASCIIByte x = true ->
  trimLeftSpace (s ++ String x t) = s ++ String x t.
Proof.
  intros Hne H Hx. rewrite trimLeftSpace_app_ascii by auto.
  rewrite trimLeftSpace_fix_not_allSpace by auto. congruence.
Qed.

End TrimFacts2.

Section CutFacts.

Lemma Contains_cons (c sep : ascii) (r : string) :
  Contains (String c r) sep = Ascii.eqb c sep || Contains r sep.
Proof.
  unfold Contains. simpl. destruct (Ascii.eqb c sep); auto.
  destruct (IndexByte r sep); auto.
Qed.

Lemma Contains_app (a b : string) (sep : ascii) :
  Contains (a ++ b) sep = Contains a sep || Contains b sep.
Proof.
  induction a as [|c a IH]; [reflexivity|].
  cbn [append]. rewrite !Contains_cons, IH. apply orb_assoc.
Qed.

Lemma Cut_app (a b : string) (sep : ascii) :
  Contains a sep = false -> Cut (a ++ String sep b) sep = Some (a, b).
Proof.
  induction a as [|c a IH]; intros H.
  - simpl. rewrite Ascii.eqb_refl. reflexivity.
  - rewrite Contains_cons in H. apply orb_false_iff in H. destruct H as [H1 H2].
    simpl. rewrite H1, (IH H2). reflexivity.
Qed.

Lemma Cut_None (s : string) (sep : ascii) :
  Cut s sep = None <-> Contains s sep = false.
Proof.
  induction s as [|c s IH]; [split; reflexivity|].
  rewrite Contains_cons. simpl. destruct (Ascii.eqb c sep); simpl.
  - split; discriminate.
  - destruct (Cut s sep) as [[a b]|].
    + split; [discriminate|]. intros H. apply IH in H. discriminate.
    + split; auto. intros _. apply IH. reflexivity.
Qed.

Lemma Cut_Some (s before after : string) (sep : ascii) :
  Cut s sep = Some (before, after) ->
  s = before ++ String sep after /\ Contains before sep = false.
Proof.
  revert before. induction s as [|c s IH]; intros before H; [discriminate|].
  simpl in H. destruct (Ascii.eqb c sep) eqn:E.
  - apply Ascii.eqb_eq in E. inversion H; subst. split; reflexivity.
  - destruct (Cut s sep) as [[a b]|]; [|discriminate].
    inversion H; subst. destruct (IH a eq_refl) as [-> Hc].
    split; [reflexivity|]. rewrite Contains_cons, E, Hc. reflexivity.
Qed.

Lemma IndexByte_app (a b : string) (sep : ascii) :
  Contains a sep = false ->
  IndexByte (a ++ String sep b) sep = Some (String.length a).
Proof.
  induction a as [|c a IH]; intros H.
  - simpl. rewrite Ascii.eqb_refl. reflexivity.
  - rewrite Contains_cons in H. apply orb_false_iff in H. destruct H as [H1 H2].
    simpl. rewrite H1, (IH H2). reflexivity.
Qed.

Lemma substring_0_app (a b : string) :
  substring 0 (String.length a) (a ++ b) = a.
Proof.
  induction a as [|c a IH]; simpl.
  - destruct b; reflexivity.
  - congruence.
Qed.

Lemma substring_all (s : string) : substring 0 (String.length s) s = s.
Proof. induction s; simpl; congruence. Qed.

Lemma substring_skip_app (a b : string) (n : nat) :
  substring (String.length a) n (a ++ b) = substring 0 n b.
Proof. induction a as [|c a IH]; simpl; auto. Qed.

Lemma slice_prefix (a b : string) : slice (a ++ b) 0 (String.length a) = a.
Proof. unfold slice. rewrite Nat.sub_0_r. apply substring_0_app. Qed.

Lemma sliceFrom_app (a b : string) : sliceFrom (a ++ b) (String.length a) = b.
Proof.
  unfold sliceFrom. rewrite substring_skip_app, append_length.
  replace (String.length a + String.length b - String.length a)
    with (String.length b) by lia.
  apply substring_all.
Qed.

Lemma slice_middle (a b c : string) :
  slice (a ++ b ++ c) (String.length a) (String.length a + String.length b) = b.
Proof.
  unfold slice. rewrite substring_skip_app.
  replace (String.length a + String.length b - String.length a)
    with (String.length b) by lia.
  apply substring_0_app.
Qed.

Lemma HasPrefix_app_nonempty (s t : string) (p : ascii) :
  s <> EmptyString -> HasPrefix (s ++ t) (String p EmptyString)
                      = HasPrefix s (String p EmptyString).
Proof. destruct s; [congruence|]. reflexivity. Qed.

Lemma allBytes_app (p : ascii -> bool) (a b : string) :
  allBytes p (a ++ b) = allBytes p a && allBytes p b.
Proof. induction a as [|c a IH]; simpl; auto. rewrite IH. apply andb_assoc. Qed.

Lemma TrimRight_app_cut (p : ascii -> bool) (a w : string) :
  allBytes p w = true -> TrimRight (a ++ w) p = TrimRight a p.
Proof.
  intros Hw. induction a as [|c a IH].
  - destruct w; simpl in *; auto. rewrite Hw. reflexivity.
  - cbn [append TrimRight].
    change (String c (a ++ w)) with (String c a ++ w).
    rewrite allBytes_app, Hw, andb_true_r, IH. reflexivity.
Qed.

Lemma TrimRight_decompose (p : ascii -> bool) (s : string) :
  exists w, s = TrimRight s p ++ w /\ allBytes p w = true.
Proof.
  induction s as [|c s (w & Hw & Hp)]; [exists EmptyString; auto|].
  cbn [TrimRight]. destruct (allBytes p (String c s)) eqn:E.
  - exists (String c s). auto.
  - exists w. split; auto. simpl. congruence.
Qed.

Lemma string_snoc (s : string) :
  s <> EmptyString -> exists a x, s = a ++ String x EmptyString.
Proof.
  induction s as [|c s IH]; [congruence|]. intros _.
  destruct s as [|d s'].
  - exists EmptyString, c. reflexivity.
  - destruct IH as (a & x & E); [congruence|].
    exists (String c a), x. simpl. congruence.
Qed.

Lemma TrimRight_snoc_keep (p : ascii -> bool) (a : string) (x : ascii) :
  p x = false -> TrimRight (a ++ String x EmptyString) p = a ++ String x EmptyString.
Proof.
  intros Hx. induction a as [|c a IH].
  - simpl. rewrite Hx. reflexivity.
  - cbn [append TrimRight].
    change (String c (a ++ String x EmptyString)) with (String c a ++ String x EmptyString).
    rewrite allBytes_app. simpl allBytes at 2. rewrite Hx, andb_false_r, IH.
    reflexivity.
Qed.

Lemma spaceOrTab_asciiSpace (x : ascii) : spaceOrTab x = true -> asciiSpace x = true.
Proof.
  intros H. unfold spaceOrTab, asciiSpace, byteIn, byteIs in *.
  apply orb_true_iff in H. destruct H as [H|H]; apply N.eqb_eq in H; rewrite H; reflexivity.
Qed.

(** A string without white space at its end loses nothing to
    [TrimRight] with the cutset of [Save]. *)
Lemma TrimRight_trimRightSpace_fix (s : string) :
  trimRightSpace s = s -> TrimRight s spaceOrTab = s.
Proof.
  intros H. destruct s as [|c s]; [reflexivity|].
  destruct (string_snoc (String c s)) as (a & x & E); [congruence|].
  rewrite E in *. apply TrimRight_snoc_keep.
  destruct (spaceOrTab x) eqn:Sx; auto.
  apply spaceOrTab_asciiSpace in Sx.
  pose proof (asciiSpace_ascii x Sx) as Ax.
  rewrite (trimRightSpace_app_ascii x EmptyString a Ax) in H.
  assert (allSpace (String x EmptyString) = true) as AS.
  { unfold allSpace. simpl. rewrite Sx. reflexivity. }
  rewrite AS in H.
  pose proof (trimRightSpace_length a) as L. rewrite H, append_length in L.
  simpl in L. lia.
Qed.

End CutFacts.

(** * Quotes: escaping and the search for the closing quote *)

Section QuoteFacts.

Lemma get_app_length (p r : string) (x : ascii) :
  get (String.length p) (p ++ String x r) = Some x.
Proof. induction p as [|c p IH]; simpl; auto. Qed.

Lemma findClosingQuoteLoop_scanQuote (rest : string) :
  forall (p : string) (prev : ascii),
    findClosingQuoteLoop (p ++ String prev rest) (String.length rest)
                         (S (String.length p))
    = scanQuote prev rest (S (String.length p)).
Proof.
  induction rest as [|c r IH]; intros p prev; [reflexivity|].
  cbn [String.length findClosingQuoteLoop scanQuote].
  assert (G1 : get (S (String.length p)) (p ++ String prev (String c r)) = Some c).
  { replace (S (String.length p))
      with (String.length (p ++ String prev EmptyString))
      by (rewrite append_length; simpl; lia).
    replace (p ++ String prev (String c r))
      with ((p ++ String prev EmptyString) ++ String c r)
      by (rewrite append_assoc; reflexivity).
    apply get_app_length. }
  assert (G0 : get (S (String.length p) - 1) (p ++ String prev (String c r))
               = Some prev).
  { replace (S (String.length p) - 1) with (String.length p) by lia.
    apply get_app_length. }
  unfold byteAtIs. rewrite G1, G0.
  assert (Hstep : findClosingQuoteLoop (p ++ String prev (String c r))
                    (String.length r) (S (S (String.length p)))
                  = scanQuote c r (S (S (String.length p)))).
  { specialize (IH (p ++ String prev EmptyString) c).
    rewrite append_assoc in IH. cbn [append] in IH.
    rewrite append_length in IH. cbn [String.length] in IH.
    replace (String.length p + 1) with (S (String.length p)) in IH by lia.
    exact IH. }
  rewrite Hstep. cbn [Nat.ltb Nat.leb andb]. reflexivity.
Qed.

Lemma findClosingQuote_scanQuote (c0 : ascii) (r : string) :
  findClosingQuote (String c0 r) 1 = scanQuote c0 r 1.
Proof.
  unfold findClosingQuote. cbn [String.length].
  replace (S (String.length r) - 1) with (String.length r) by lia.
  apply (findClosingQuoteLoop_scanQuote r EmptyString c0).
Qed.

Lemma escapeQuotes_head (v : string) (d : ascii) (r : string) :
  escapeQuotes v = String d r -> Ascii.eqb d dquote = false.
Proof.
  destruct v as [|c v]; [discriminate|]. unfold escapeQuotes. simpl.
  destruct (Ascii.eqb c dquote) eqn:E; intros H; inversion H; subst; auto.
Qed.

(** [unescapeQuotes] undoes [escapeQuotes] on every value. *)
Lemma unescape_escape (v : string) : unescapeQuotes (escapeQuotes v) = v.
Proof.
  unfold unescapeQuotes, escapeQuotes.
  induction v as [|c v IH]; [reflexivity|].
  cbn [ReplaceAll_quote_escaped].
  destruct (Ascii.eqb c dquote) eqn:E.
  - apply Ascii.eqb_eq in E. subst c.
    cbn [ReplaceAll_escaped_quote]. rewrite !Ascii.eqb_refl. cbn [andb].
    rewrite IH. reflexivity.
  - cbn [ReplaceAll_escaped_quote].
    destruct (ReplaceAll_quote_escaped v) as [|d r] eqn:Ev.
    + destruct v as [|c' v']; [reflexivity|].
      simpl in Ev. destruct (Ascii.eqb c' dquote); discriminate.
    + rewrite (escapeQuotes_head v d r Ev), andb_false_r.
      fold (ReplaceAll_escaped_quote (String d r)). rewrite IH. reflexivity.
Qed.

(** In [escapeQuotes v], followed by a double quote, the scan stops at
    that double quote unless a backslash stands right before it. *)
Lemma scanQuote_escaped (v tail : string) :
  forall (prev : ascii) (i : nat),
    lastByte (String prev v) <> Some backslash ->
    scanQuote prev (escapeQuotes v ++ String dquote tail) i
    = Some (i + String.length (escapeQuotes v)).
Proof.
  unfold escapeQuotes.
  induction v as [|c v IH]; intros prev i Hlast.
  - cbn. destruct (Ascii.eqb prev backslash) eqn:E.
    + apply Ascii.eqb_eq in E. subst. simpl in Hlast. congruence.
    + f_equal. lia.
  - cbn [ReplaceAll_quote_escaped].
    change (lastByte (String prev (String c v))) with (lastByte (String c v))
      in Hlast.
    destruct (Ascii.eqb c dquote) eqn:E.
    + cbn [append scanQuote String.length].
      change (Ascii.eqb backslash dquote) with false. cbv iota.
      rewrite !Ascii.eqb_refl.
      apply Ascii.eqb_eq in E. subst c.
      rewrite IH by exact Hlast. f_equal. lia.
    + cbn [append scanQuote String.length]. rewrite E.
      rewrite IH by exact Hlast. f_equal. lia.
Qed.

Lemma lastByte_cons_dquote (v : string) :
  lastByte v <> Some backslash -> lastByte (String dquote v) <> Some backslash.
Proof. destruct v; simpl; auto. intros _ H. inversion H. Qed.

(** The closing quote of a quoted, escaped value is found where it should
    be, whatever follows it, unless the value ends in a backslash. *)
Lemma findClosingQuote_quoted (v tail : string) :
  lastByte v <> Some backslash ->
  findClosingQuote (Q ++ escapeQuotes v ++ Q ++ tail) 1
  = Some (S (String.length (escapeQuotes v))).
Proof.
  intros H. unfold Q. cbn [append].
  rewrite findClosingQuote_scanQuote.
  rewrite scanQuote_escaped by (apply lastByte_cons_dquote; exact H).
  reflexivity.
Qed.

End QuoteFacts.

(** * Reading a line in canonical form *)

Section CanonicalLine.

Lemma trimRightSpace_app_fix (a y : string) (x : ascii) :
  isASCIIByte x = true ->
  trimRightSpace (String x y) = String x y ->
  trimRightSpace (a ++ String x y) = a ++ String x y.
Proof.
  intros Hx H. rewrite trimRightSpace_app_ascii by auto.
  destruct (allSpace (String x y)) eqn:E.
  - rewrite trimRightSpace_allSpace in H by auto. discriminate.
  - rewrite H. reflexivity.
Qed.

Lemma trimRightSpace_quote_tail (gap cmt : string) :
  inlineTail gap cmt ->
  trimRightSpace (String dquote (gap ++ cmt)) = String dquote (gap ++ cmt).
Proof.
  intros [|g c Hg Hc].
  - reflexivity.
  - change (String dquote (g ++ String hash c))
      with (String dquote g ++ String hash c).
    apply trimRightSpace_app_fix; auto.
Qed.

Lemma TrimSpace_key_space (key : string) :
  key <> EmptyString -> TrimSpace key = key ->
  TrimSpace (key ++ " ") = key.
Proof.
  intros Hne H. destruct (TrimSpace_fix key H) as [HL HR].
  unfold TrimSpace.
  rewrite (trimLeftSpace_fix_app key EmptyString " "%char Hne HL eq_refl).
  rewrite (trimRightSpace_app_ascii " "%char EmptyString key eq_refl).
  exact HR.
Qed.

Lemma parseValue_quoted (value gap cmt : string) :
  lastByte value <> Some backslash ->
  inlineTail gap cmt ->
  parseValue (Q ++ escapeQuotes value ++ Q ++ gap ++ cmt) = (value, cmt, gap).
Proof.
  intros Hv Ht. unfold parseValue.
  replace (HasPrefix (Q ++ escapeQuotes value ++ Q ++ gap ++ cmt) Q) with true
    by reflexivity.
  rewrite findClosingQuote_quoted by exact Hv.
  assert (Hval : slice (Q ++ escapeQuotes value ++ Q ++ gap ++ cmt) 1
                       (S (String.length (escapeQuotes value)))
                 = escapeQuotes value).
  { apply (slice_middle Q (escapeQuotes value) (Q ++ gap ++ cmt)). }
  assert (Hrem : sliceFrom (Q ++ escapeQuotes value ++ Q ++ gap ++ cmt)
                           (S (String.length (escapeQuotes value)) + 1)
                 = gap ++ cmt).
  { replace (Q ++ escapeQuotes value ++ Q ++ gap ++ cmt)
      with ((Q ++ escapeQuotes value ++ Q) ++ gap ++ cmt)
      by (rewrite !append_assoc; reflexivity).
    replace (S (String.length (escapeQuotes value)) + 1)
      with (String.length (Q ++ escapeQuotes value ++ Q))
      by (rewrite !append_length; simpl; lia).
    apply sliceFrom_app. }
  rewrite Hval, Hrem, unescape_escape.
  destruct Ht as [|g c Hg Hc].
  - reflexivity.
  - rewrite append_length. cbn [String.length].
    replace (Nat.ltb 0 (String.length g + S (String.length c))) with true
      by (symmetry; apply Nat.ltb_lt; lia).
    rewrite IndexByte_app by exact Hg.
    rewrite sliceFrom_app, slice_prefix. reflexivity.
Qed.

Lemma Cut_canonical (key rest : string) :
  Contains key equals = false ->
  Cut (key ++ " = " ++ rest) equals = Some (key ++ " ", " " ++ rest).
Proof.
  intros H.
  replace (key ++ " = " ++ rest) with ((key ++ " ") ++ String equals (" " ++ rest))
    by (rewrite append_assoc; reflexivity).
  apply Cut_app. rewrite Contains_app, H. reflexivity.
Qed.

(** A line in canonical form, with or without an inline comment, is read
    as the entry it spells. *)
Lemma parseLine_canonical (key value gap cmt : string) :
  wfKey key ->
  lastByte value <> Some backslash ->
  inlineTail gap cmt ->
  parseLine (canonicalLine key value ++ gap ++ cmt)
  = mkEntry (canonicalLine key value ++ gap ++ cmt) key value cmt gap false false.
Proof.
  intros (Hne & Htrim & Heq & Hhash) Hv Ht.
  destruct (TrimSpace_fix key Htrim) as [HL HR].
  set (line := canonicalLine key value ++ gap ++ cmt).
  assert (Eline : line = key ++ " = " ++ Q ++ escapeQuotes value ++ Q ++ gap ++ cmt).
  { unfold line, canonicalLine. rewrite !append_assoc. reflexivity. }
  assert (Hrest : trimRightSpace (Q ++ escapeQuotes value ++ Q ++ gap ++ cmt)
                  = Q ++ escapeQuotes value ++ Q ++ gap ++ cmt).
  { replace (Q ++ escapeQuotes value ++ Q ++ gap ++ cmt)
      with ((Q ++ escapeQuotes value) ++ String dquote (gap ++ cmt))
      by (rewrite append_assoc; reflexivity).
    apply trimRightSpace_app_fix; [reflexivity|].
    apply trimRightSpace_quote_tail; exact Ht. }
  assert (Tline : TrimSpace line = line).
  { unfold TrimSpace. rewrite Eline.
    change (key ++ " = " ++ Q ++ escapeQuotes value ++ Q ++ gap ++ cmt)
      with (key ++ String " " ("= " ++ Q ++ escapeQuotes value ++ Q ++ gap ++ cmt)).
    rewrite (trimLeftSpace_fix_app key _ " "%char Hne HL eq_refl).
    replace (key ++ String " " ("= " ++ Q ++ escapeQuotes value ++ Q ++ gap ++ cmt))
      with ((key ++ " = ") ++ String dquote (escapeQuotes value ++ Q ++ gap ++ cmt))
      by (rewrite append_assoc; reflexivity).
    apply trimRightSpace_app_fix; [reflexivity|]. exact Hrest. }
  unfold parseLine. rewrite Tline.
  assert (Hnonempty : isEmpty line = false).
  { rewrite Eline. destruct key; [congruence | reflexivity]. }
  rewrite Hnonempty.
  assert (Hnohash : HasPrefix line "#" = false).
  { rewrite Eline, HasPrefix_app_nonempty by exact Hne. exact Hhash. }
  rewrite Hnohash.
  unfold SplitN2. rewrite Eline at 1. rewrite (Cut_canonical key _ Heq).
  rewrite (TrimSpace_key_space key Hne Htrim).
  assert (Tval : TrimSpace (" " ++ Q ++ escapeQuotes value ++ Q ++ gap ++ cmt)
                 = Q ++ escapeQuotes value ++ Q ++ gap ++ cmt).
  { unfold TrimSpace.
    change (trimLeftSpace (" " ++ Q ++ escapeQuotes value ++ Q ++ gap ++ cmt))
      with (trimLeftSpace (String dquote (escapeQuotes value ++ Q ++ gap ++ cmt))).
    rewrite trimLeftSpace_ascii_nonspace by reflexivity. exact Hrest. }
  rewrite Tval, (parseValue_quoted value gap cmt Hv Ht). reflexivity.
Qed.

(** [Save] writes such an entry back as the line it was read from, and so
    does [Print]. *)
Lemma saveLine_canonical (key value gap cmt : string) :
  wfKey key ->
  lastByte value <> Some backslash ->
  inlineTail gap cmt ->
  saveLine (parseLine (canonicalLine key value ++ gap ++ cmt))
  = canonicalLine key value ++ gap ++ cmt.
Proof.
  intros Hk Hv Ht. rewrite (parseLine_canonical key value gap cmt Hk Hv Ht).
  destruct Hk as (Hne & Htrim & Heq & Hhash).
  destruct (TrimSpace_fix key Htrim) as [HL HR].
  unfold saveLine. cbn [IsBlank IsComment Key Value Original InlineComment
                        InlineCommentSpace].
  replace (isEmpty key) with false by (destruct key; [congruence|reflexivity]).
  cbn [negb].
  assert (Eline : canonicalLine key value ++ gap ++ cmt
                  = key ++ " = " ++ Q ++ escapeQuotes value ++ Q ++ gap ++ cmt).
  { unfold canonicalLine. rewrite !append_assoc. reflexivity. }
  assert (Hcont : Contains (canonicalLine key value ++ gap ++ cmt) equals = true).
  { rewrite Eline, Contains_app. apply orb_true_iff. right. reflexivity. }
  rewrite Hcont. unfold SplitN2. rewrite Eline.
  rewrite (Cut_canonical key _ Heq). cbn [nth].
  rewrite (TrimRight_app_cut spaceOrTab key " " eq_refl).
  rewrite (TrimRight_trimRightSpace_fix key HR).
  destruct Ht as [|g c Hg Hc]; cbn [isEmpty negb]; rewrite ?append_assoc;
    reflexivity.
Qed.

Lemma printLine_canonical (key value gap cmt : string) :
  wfKey key ->
  lastByte value <> Some backslash ->
  inlineTail gap cmt ->
  printLine (parseLine (canonicalLine key value ++ gap ++ cmt))
  = canonicalLine key value ++ gap ++ cmt.
Proof.
  intros Hk Hv Ht. rewrite (parseLine_canonical key value gap cmt Hk Hv Ht).
  destruct Hk as (Hne & _).
  unfold printLine. cbn [IsBlank IsComment Key Value Original InlineComment
                         InlineCommentSpace].
  replace (isEmpty key) with false by (destruct key; [congruence|reflexivity]).
  cbn [negb].
  destruct Ht as [|g c Hg Hc]; cbn [isEmpty negb]; unfold canonicalLine;
    rewrite !append_assoc; reflexivity.
Qed.

End CanonicalLine.

(** * Lines and files *)

Section FileFacts.

Lemma rawLines_line (l rest : string) :
  Contains l LF = false ->
  rawLines (l ++ NL ++ rest) = l :: rawLines rest.
Proof.
  induction l as [|c l IH]; intros H.
  - simpl. reflexivity.
  - rewrite Contains_cons in H. apply orb_false_iff in H. destruct H as [H1 H2].
    cbn [append rawLines]. rewrite H1. rewrite (IH H2). reflexivity.
Qed.

(** Lines without line feeds, each written with a line feed after it, are
    the lines the scanner finds. *)
Lemma rawLines_unlines (ls : list string) :
  Forall (fun l => Contains l LF = false) ls ->
  rawLines (unlines ls) = ls.
Proof.
  induction 1 as [|l ls Hl _ IH]; [reflexivity|].
  cbn [unlines]. rewrite rawLines_line by exact Hl. congruence.
Qed.

Lemma scanLines_unlines (ls : list string) :
  Forall (fun l => Contains l LF = false) ls ->
  Forall (fun l => fits l = true) ls ->
  Forall (fun l => dropCR l = l) ls ->
  scanLines (unlines ls) = Some ls.
Proof.
  intros HLF Hfit HCR. unfold scanLines. rewrite rawLines_unlines by exact HLF.
  replace (forallb fits ls) with true
    by (symmetry; apply forallb_forall; apply Forall_forall; exact Hfit).
  f_equal. induction HCR as [|l ls Hl _ IH]; [reflexivity|].
  inversion HLF; inversion Hfit; subst. simpl. rewrite Hl, IH; auto.
Qed.

Lemma dropCR_snoc (a : string) (x : ascii) :
  Ascii.eqb x CR = false ->
  dropCR (a ++ String x EmptyString) = a ++ String x EmptyString.
Proof.
  intros Hx. induction a as [|c a IH].
  - simpl. rewrite Hx. reflexivity.
  - cbn [append]. 
    destruct (a ++ String x EmptyString) as [|d r] eqn:E.
    { destruct a; discriminate. }
    change (dropCR (String c (String d r))) with (String c (dropCR (String d r))).
    rewrite IH. reflexivity.
Qed.

Lemma unlines_app (a b : list string) :
  unlines (a ++ b) = unlines a ++ unlines b.
Proof.
  induction a as [|l a IH]; [reflexivity|].
  cbn [app unlines]. rewrite IH, !append_assoc. reflexivity.
Qed.

End FileFacts.

(** * Looking up, updating and removing entries *)

Section EntryFacts.

Context {T : CaseTables}.

Lemma N_of_lowerByte (c : ascii) :
  N_of_ascii (lowerByte c)
  = if byteIn 65 90 c then (N_of_ascii c + 32)%N else N_of_ascii c.
Proof.
  unfold lowerByte. destruct (byteIn 65 90 c) eqn:E; auto.
  apply N_ascii_embedding. byte_facts. lia.
Qed.

Lemma N_of_ascii_inj (a b : ascii) : N_of_ascii a = N_of_ascii b -> a = b.
Proof.
  intros H. rewrite <- (ascii_N_embedding a), <- (ascii_N_embedding b). congruence.
Qed.

Lemma foldEq_lowerByte (a b : ascii) :
  foldEq a b = Ascii.eqb (lowerByte a) (lowerByte b).
Proof.
  unfold foldEq.
  destruct (Ascii.eqb b a) eqn:Eba.
  { apply Ascii.eqb_eq in Eba. subst. rewrite Ascii.eqb_refl. reflexivity. }
  apply Ascii.eqb_neq in Eba.
  assert (Hne : N_of_ascii a <> N_of_ascii b).
  { intros E. apply N_of_ascii_inj in E. congruence. }
  cbn [orb].
  match goal with |- ?l = ?r => destruct l eqn:El; destruct r eqn:Er; auto end.
  - exfalso. apply Ascii.eqb_neq in Er. apply Er. apply N_of_ascii_inj.
    rewrite !N_of_lowerByte.
    apply andb_true_iff in El. destruct El as [El E3].
    apply andb_true_iff in El. destruct El as [E1 E2].
    apply N.leb_le in E1, E2. apply N.eqb_eq in E3.
    unfold byteIn.
    destruct (N.le_ge_cases (N_of_ascii a) (N_of_ascii b)) as [Hab|Hab].
    + rewrite N.min_l in * by lia. rewrite N.max_r in * by lia.
      replace (N.leb 65 (N_of_ascii a) && N.leb (N_of_ascii a) 90) with true
        by (symmetry; apply andb_true_iff; split; apply N.leb_le; lia).
      replace (N.leb 65 (N_of_ascii b) && N.leb (N_of_ascii b) 90) with false
        by (symmetry; apply andb_false_iff; right; apply N.leb_gt; lia).
      lia.
    + rewrite N.min_r in * by lia. rewrite N.max_l in * by lia.
      replace (N.leb 65 (N_of_ascii b) && N.leb (N_of_ascii b) 90) with true
        by (symmetry; apply andb_true_iff; split; apply N.leb_le; lia).
      replace (N.leb 65 (N_of_ascii a) && N.leb (N_of_ascii a) 90) with false
        by (symmetry; apply andb_false_iff; right; apply N.leb_gt; lia).
      lia.
  - exfalso. apply Ascii.eqb_eq in Er.
    apply (f_equal N_of_ascii) in Er. rewrite !N_of_lowerByte in Er.
    unfold byteIn in Er.
    assert (El' : (N.leb 65 (N.min (N_of_ascii a) (N_of_ascii b))
                   && N.leb (N.min (N_of_ascii a) (N_of_ascii b)) 90
                   && N.eqb (N.max (N_of_ascii a) (N_of_ascii b))
                        (N.min (N_of_ascii a) (N_of_ascii b) + 32))%bool = false)
      by exact El.
    clear El.
    destruct (N.leb 65 (N_of_ascii a) && N.leb (N_of_ascii a) 90) eqn:Ua;
      destruct (N.leb 65 (N_of_ascii b) && N.leb (N_of_ascii b) 90) eqn:Ub;
      try lia.
    + apply andb_true_iff in Ua. destruct Ua as [U1 U2].
      apply N.leb_le in U1, U2.
      rewrite N.min_l, N.max_r in El' by lia.
      replace (N.leb 65 (N_of_ascii a)) with true in El' by (symmetry; apply N.leb_le; lia).
      replace (N.leb (N_of_ascii a) 90) with true in El' by (symmetry; apply N.leb_le; lia).
      cbn [andb] in El'. apply N.eqb_neq in El'. lia.
    + apply andb_true_iff in Ub. destruct Ub as [U1 U2].
      apply N.leb_le in U1, U2.
      rewrite N.min_r, N.max_l in El' by lia.
      replace (N.leb 65 (N_of_ascii b)) with true in El' by (symmetry; apply N.leb_le; lia).
      replace (N.leb (N_of_ascii b) 90) with true in El' by (symmetry; apply N.leb_le; lia).
      cbn [andb] in El'. apply N.eqb_neq in El'. lia.
Qed.

(** Strings of bytes below 0x80. *)
Lemma lowerBytes_none (s : string) :
  anyByte (byteIn 65 90) s = false -> lowerBytes s = s.
Proof.
  induction s as [|c s IH]; [reflexivity|].
  cbn [anyByte lowerBytes]. intros H. apply orb_false_iff in H.
  destruct H as [Hc Hs]. unfold lowerByte. rewrite Hc, (IH Hs). reflexivity.
Qed.

Lemma ToLower_ascii (s : string) :
  allBytes isASCIIByte s = true -> ToLower s = lowerBytes s.
Proof.
  intros H. unfold ToLower. rewrite H.
  destruct (anyByte (byteIn 65 90) s) eqn:E; [reflexivity|].
  symmetry. apply lowerBytes_none. exact E.
Qed.

Lemma lor_below_128 (a b : ascii) :
  isASCIIByte a = true -> isASCIIByte b = true ->
  N.leb 128 (N.lor (N_of_ascii a) (N_of_ascii b)) = false.
Proof.
  unfold isASCIIByte. intros Ha Hb.
  destruct a as [a0 a1 a2 a3 a4 a5 a6 a7], b as [b0 b1 b2 b3 b4 b5 b6 b7].
  destruct a7; [destruct a0, a1, a2, a3, a4, a5, a6; discriminate Ha|].
  destruct b7; [destruct b0, b1, b2, b3, b4, b5, b6; discriminate Hb|].
  destruct a0, a1, a2, a3, a4, a5, a6, b0, b1, b2, b3, b4, b5, b6; reflexivity.
Qed.

(** On strings of bytes below 0x80 the comparison of [Remove] is the
    comparison of [findEntryCaseInsensitive]. *)
Lemma EqualFold_ascii (s t : string) :
  allBytes isASCIIByte s = true -> allBytes isASCIIByte t = true ->
  EqualFold s t = String.eqb (ToLower s) (ToLower t).
Proof.
  intros Hs Ht. rewrite (ToLower_ascii s Hs), (ToLower_ascii t Ht).
  revert t Hs Ht. induction s as [|a s IH]; intros [|b t] Hs Ht; try reflexivity.
  cbn [allBytes] in Hs, Ht.
  apply andb_true_iff in Hs. destruct Hs as [Ha Hs].
  apply andb_true_iff in Ht. destruct Ht as [Hb Ht].
  cbn [EqualFold lowerBytes String.eqb].
  rewrite (lor_below_128 a b Ha Hb), foldEq_lowerByte, (IH t Hs Ht).
  destruct (Ascii.eqb (lowerByte a) (lowerByte b)); reflexivity.
Qed.

(** Every rune is written with one byte at least, so [ToLower] makes no
    string empty. *)
Lemma appendRune_cons (r : N) : exists c s, appendRune r = String c s.
Proof.
  unfold appendRune.
  destruct (N.leb r 127); [eexists; eexists; reflexivity|].
  destruct (N.leb r 2047); [eexists; eexists; reflexivity|].
  match goal with |- context [N.leb ?x 65535] => destruct (N.leb x 65535) end;
    eexists; eexists; reflexivity.
Qed.

Lemma ToLower_empty (s : string) : ToLower s = EmptyString -> s = EmptyString.
Proof.
  destruct s as [|b rest]; [reflexivity|]. intros H. exfalso. revert H.
  unfold ToLower.
  destruct (allBytes isASCIIByte (String b rest)).
  { destruct (anyByte (byteIn 65 90) (String b rest)); discriminate. }
  unfold Map. cbn [mapScan].
  destruct (decoderune (String b rest)) as [c width].
  cbv zeta.
  match goal with |- context [if ?x then _ else _] => destruct x end;
    [discriminate|].
  destruct (appendRune_cons (unicodeToLower c)) as (x & y & E). rewrite E.
  discriminate.
Qed.

End EntryFacts.

Section LookupFacts.

Context {T : CaseTables}.

Local Open Scope list_scope.

Lemma keyMatches_keyEq (key : string) (e : Entry) :
  keyMatches (ToLower key) e = keyEq (Key e) key.
Proof. reflexivity. Qed.

Lemma find_app_first (lowerKey : string) (pre post : list Entry) (e : Entry) :
  Forall (fun x => keyMatches lowerKey x = false) pre ->
  keyMatches lowerKey e = true ->
  find (keyMatches lowerKey) (pre ++ e :: post) = Some e.
Proof.
  intros Hpre He. induction Hpre as [|x pre Hx _ IH]; simpl.
  - rewrite He. reflexivity.
  - rewrite Hx. exact IH.
Qed.

Lemma find_none (lowerKey : string) (es : list Entry) :
  Forall (fun x => keyMatches lowerKey x = false) es ->
  find (keyMatches lowerKey) es = None.
Proof.
  induction 1 as [|x es Hx _ IH]; simpl; auto. rewrite Hx. exact IH.
Qed.

Lemma find_split (lowerKey : string) (es : list Entry) (e : Entry) :
  find (keyMatches lowerKey) es = Some e ->
  exists pre post,
    es = pre ++ e :: post
    /\ Forall (fun x => keyMatches lowerKey x = false) pre
    /\ keyMatches lowerKey e = true.
Proof.
  induction es as [|x es IH]; [discriminate|]. simpl.
  destruct (keyMatches lowerKey x) eqn:Hx.
  - intros H. inversion H; subst. exists [], es. auto.
  - intros H. destruct (IH H) as (pre & post & -> & Hpre & He).
    exists (x :: pre), post. auto.
Qed.

Lemma find_none_Forall (lowerKey : string) (es : list Entry) :
  find (keyMatches lowerKey) es = None ->
  Forall (fun x => keyMatches lowerKey x = false) es.
Proof.
  induction es as [|x es IH]; simpl; auto.
  destruct (keyMatches lowerKey x) eqn:Hx; [discriminate|]. auto.
Qed.

Lemma updateFirst_app_first (lowerKey value : string) (pre post : list Entry)
      (e : Entry) :
  Forall (fun x => keyMatches lowerKey x = false) pre ->
  keyMatches lowerKey e = true ->
  updateFirst lowerKey value (pre ++ e :: post)
  = Some (pre ++ updateEntry e value :: post).
Proof.
  intros Hpre He. induction Hpre as [|x pre Hx _ IH]; simpl.
  - rewrite He. reflexivity.
  - rewrite Hx, IH. reflexivity.
Qed.

Lemma updateFirst_none (lowerKey value : string) (es : list Entry) :
  Forall (fun x => keyMatches lowerKey x = false) es ->
  updateFirst lowerKey value es = None.
Proof.
  induction 1 as [|x es Hx _ IH]; simpl; auto. rewrite Hx, IH. reflexivity.
Qed.

Lemma removeFirst_app_first (key : string) (pre post : list Entry) (e : Entry) :
  Forall (fun x => EqualFold (Key x) key = false) pre ->
  EqualFold (Key e) key = true ->
  removeFirst key (pre ++ e :: post) = Some (pre ++ post).
Proof.
  intros Hpre He. induction Hpre as [|x pre Hx _ IH]; simpl.
  - rewrite He. reflexivity.
  - rewrite Hx, IH. reflexivity.
Qed.

Lemma removeFirst_none (key : string) (es : list Entry) :
  Forall (fun x => EqualFold (Key x) key = false) es ->
  removeFirst key es = None.
Proof.
  induction 1 as [|x es Hx _ IH]; simpl; auto. rewrite Hx, IH. reflexivity.
Qed.

Lemma findIndex_app_first (lowerKey : string) (pre post : list Entry) (e : Entry) :
  Forall (fun x => keyMatches lowerKey x = false) pre ->
  keyMatches lowerKey e = true ->
  findIndex lowerKey (pre ++ e :: post) = List.length pre.
Proof.
  intros Hpre He. induction Hpre as [|x pre Hx _ IH]; simpl.
  - rewrite He. reflexivity.
  - rewrite Hx, IH. reflexivity.
Qed.

Lemma findIndex_none (lowerKey : string) (es : list Entry) :
  Forall (fun x => keyMatches lowerKey x = false) es ->
  findIndex lowerKey es = List.length es.
Proof.
  induction 1 as [|x es Hx _ IH]; simpl; auto. rewrite Hx, IH. reflexivity.
Qed.

(** The two ways [Set] can go. *)
Lemma Set_cases (d : Dictionary) (key value : string) :
  (exists pre e post,
      Entries d = pre ++ e :: post
      /\ Forall (fun x => keyMatches (ToLower key) x = false) pre
      /\ keyMatches (ToLower key) e = true
      /\ Entries (Set_ d key value) = pre ++ updateEntry e value :: post)
  \/ (Forall (fun x => keyMatches (ToLower key) x = false) (Entries d)
      /\ Entries (Set_ d key value) = Entries d ++ [newEntry key value]).
Proof.
  destruct (find (keyMatches (ToLower key)) (Entries d)) as [e|] eqn:F.
  - left. destruct (find_split _ _ _ F) as (pre & post & E & Hpre & He).
    exists pre, e, post.
    split; [exact E|]. split; [exact Hpre|]. split; [exact He|].
    unfold Set_. rewrite E, (updateFirst_app_first _ value pre post e Hpre He).
    reflexivity.
  - right. pose proof (find_none_Forall _ _ F) as Hall. split; auto.
    unfold Set_, normalizeKeyCase, findEntryCaseInsensitive.
    rewrite (updateFirst_none _ value _ Hall), F. reflexivity.
Qed.

(** After [Set], [Query] returns the value that was set. *)
Lemma Query_Set (d : Dictionary) (key value : string) :
  Query (Set_ d key value) key = Ok value.
Proof.
  unfold Query, findEntryCaseInsensitive.
  destruct (Set_cases d key value)
    as [(pre & e & post & E & Hpre & He & ->)|(Hall & ->)].
  - rewrite (find_app_first _ pre post (updateEntry e value) Hpre); auto.
  - rewrite (find_app_first _ (Entries d) [] (newEntry key value) Hall).
    + reflexivity.
    + unfold keyMatches. simpl. apply String.eqb_refl.
Qed.

(** [parseLine] keeps the line and never sets both flags. *)
Lemma parseLine_Original (raw : string) : Original (parseLine raw) = raw.
Proof.
  unfold parseLine.
  destruct (isEmpty (TrimSpace raw)); [reflexivity|].
  destruct (HasPrefix (TrimSpace raw) "#"); [reflexivity|].
  destruct (SplitN2 (TrimSpace raw) equals) as [|p0 [|p1 [|p2 ps]]]; try reflexivity.
  destruct (parseValue (TrimSpace p1)) as [[v c] g]. reflexivity.
Qed.

Lemma parseLine_kind (raw : string) :
  hasKind (parseLine raw) Blank \/ hasKind (parseLine raw) Comment
  \/ hasKind (parseLine raw) Assignment.
Proof.
  unfold parseLine.
  destruct (isEmpty (TrimSpace raw)); [left; simpl; auto|].
  destruct (HasPrefix (TrimSpace raw) "#"); [right; left; simpl; auto|].
  destruct (SplitN2 (TrimSpace raw) equals) as [|p0 [|p1 [|p2 ps]]];
    try solve [right; left; simpl; auto].
  destruct (parseValue (TrimSpace p1)) as [[v c] g]. right; right; simpl; auto.
Qed.

Lemma Contains_TrimSpace (s : string) (c : ascii) :
  Contains s c = false -> Contains (TrimSpace s) c = false.
Proof.
  intros H. unfold TrimSpace.
  destruct (trimLeftSpace_suffix s) as [w Hw].
  destruct (trimRightSpace_prefix (trimLeftSpace s)) as [w' Hw'].
  rewrite Hw, Hw', !Contains_app in H.
  apply orb_false_iff in H. destruct H as [_ H].
  apply orb_false_iff in H. destruct H as [H _]. exact H.
Qed.

(** A line without an equals sign is blank or a comment. *)
Lemma parseLine_no_equals (raw : string) :
  Contains raw equals = false ->
  isEmpty (TrimSpace raw) = false ->
  parseLine raw
  = mkEntry raw EmptyString EmptyString EmptyString EmptyString true false.
Proof.
  intros H Hne. unfold parseLine. rewrite Hne.
  destruct (HasPrefix (TrimSpace raw) "#"); [reflexivity|].
  unfold SplitN2.
  replace (Cut (TrimSpace raw) equals) with (@None (string * string)).
  - reflexivity.
  - symmetry. apply Cut_None. apply Contains_TrimSpace. exact H.
Qed.

End LookupFacts.

Section AbsentKey.

Context {T : CaseTables}.

(** When no stored line has a matching key, [Query] and [Remove] fail
    with the key-not-found error: [Query] compares the lower-cased keys,
    [Remove] compares with [EqualFold]. *)
Lemma Query_Remove_absent (d : Dictionary) (key : string) :
  Forall (fun e => keyEq (Key e) key = false
                   /\ EqualFold (Key e) key = false) (Entries d) ->
  Query d key = Err (KeyNotFoundError key)
  /\ Remove d key = Err (KeyNotFoundError key).
Proof.
  intros H.
  assert (Hm : Forall (fun x => keyMatches (ToLower key) x = false) (Entries d)).
  { eapply Forall_impl; [|exact H]. intros e [He _]. exact He. }
  assert (Hf : Forall (fun x => EqualFold (Key x) key = false) (Entries d)).
  { eapply Forall_impl; [|exact H]. intros e [_ He]. exact He. }
  unfold Query, Remove, findEntryCaseInsensitive.
  rewrite (find_none _ _ Hm), (removeFirst_none _ _ Hf). split; reflexivity.
Qed.

End AbsentKey.

(** * Files of preserved lines *)

Section PreservedFiles.

Local Open Scope list_scope.

Lemma parseLine_comment_flags (l : string) :
  IsComment (parseLine l) = true ->
  IsBlank (parseLine l) = false /\ Original (parseLine l) = l.
Proof.
  intros H. split; [|apply parseLine_Original].
  destruct (parseLine_kind l) as [K|[K|K]]; simpl in K.
  - destruct K as (_ & K & _). congruence.
  - destruct K as (K & _). exact K.
  - destruct K as (K & _). exact K.
Qed.

(** [Save] and [Print] give a preserved line back as it was read. *)
Lemma preservedLine_fix (l : string) :
  preservedLine l ->
  saveLine (parseLine l) = l /\ printLine (parseLine l) = l.
Proof.
  intros [|c Hc|key value gap cmt Hk Hv Ht].
  - split; reflexivity.
  - destruct (parseLine_comment_flags c Hc) as [Hb Ho].
    unfold saveLine, printLine. rewrite Hb, Hc, Ho. split; reflexivity.
  - split; [apply saveLine_canonical | apply printLine_canonical]; assumption.
Qed.

Lemma roundTripLine_preserved (l : string) : roundTripLine l -> preservedLine l.
Proof.
  intros [|c Hc|key value Hk Hv].
  - constructor.
  - constructor; assumption.
  - rewrite <- (append_nil_r (canonicalLine key value)).
    change EmptyString with (EmptyString ++ EmptyString)%string at 1.
    apply preserved_assignment; auto. constructor.
Qed.

Lemma map_saveLine_preserved (lines : list string) :
  Forall preservedLine lines ->
  map saveLine (map parseLine lines) = lines.
Proof.
  induction 1 as [|l ls Hl _ IH]; [reflexivity|].
  cbn [map]. rewrite IH. destruct (preservedLine_fix l Hl) as [-> _]. reflexivity.
Qed.

Lemma scanLines_scannedAsIs (lines : list string) :
  Forall scannedAsIs lines -> scanLines (unlines lines) = Some lines.
Proof.
  intros H. apply scanLines_unlines;
    (eapply Forall_impl; [|exact H]); intros l (H1 & H2 & H3); assumption.
Qed.

(** Loading a file of preserved lines and saving it writes the bytes that
    were read. *)
Lemma load_save_preserved (fs : filesystem) (path : string) (lines : list string) :
  fs path = Regular (unlines lines) ->
  Forall preservedLine lines ->
  Forall scannedAsIs lines ->
  LoadDictionary path fs = Ok (mkDictionary path (map parseLine lines))
  /\ Save (mkDictionary path (map parseLine lines)) path fs
     = (writeFile fs path (unlines lines), None).
Proof.
  intros Hfs Hp Hs. split.
  - unfold LoadDictionary. rewrite Hfs, (scanLines_scannedAsIs lines Hs).
    reflexivity.
  - unfold Save, canCreate. rewrite Hfs. unfold saveBytes. cbn [Entries].
    rewrite (map_saveLine_preserved lines Hp). reflexivity.
Qed.

Lemma writeFile_same (fs : filesystem) (path data : string) :
  writeFile fs path data path = Regular data.
Proof. unfold writeFile. rewrite String.eqb_refl. reflexivity. Qed.

Lemma saveLine_newEntry (key value : string) :
  wfKey key -> saveLine (newEntry key value) = canonicalLine key value.
Proof.
  intros (Hne & Htrim & Heq & Hhash).
  destruct (TrimSpace_fix key Htrim) as [HL HR].
  unfold saveLine, newEntry. cbn [IsBlank IsComment Key Value Original
                                  InlineComment InlineCommentSpace].
  replace (isEmpty key) with false by (destruct key; [congruence|reflexivity]).
  cbn [negb isEmpty].
  replace (Contains (key ++ " = " ++ Q ++ escapeQuotes value ++ Q)%string equals)
    with true
    by (symmetry; rewrite Contains_app; apply orb_true_iff; right; reflexivity).
  unfold SplitN2. rewrite (Cut_canonical key _ Heq). cbn [nth].
  rewrite (TrimRight_app_cut spaceOrTab key " " eq_refl).
  rewrite (TrimRight_trimRightSpace_fix key HR). reflexivity.
Qed.

Lemma parseLine_newEntry (key value : string) :
  wfKey key -> lastByte value <> Some backslash ->
  parseLine (canonicalLine key value) = newEntry key value.
Proof.
  intros Hk Hv.
  pose proof (parseLine_canonical key value EmptyString EmptyString Hk Hv tail_none)
    as H.
  cbn [append] in H. rewrite !append_nil_r in H. exact H.
Qed.

Lemma Contains_escapeQuotes (v : string) (c : ascii) :
  Ascii.eqb backslash c = false ->
  Contains (escapeQuotes v) c = Contains v c.
Proof.
  intros Hc. unfold escapeQuotes. induction v as [|x v IH]; [reflexivity|].
  cbn [ReplaceAll_quote_escaped]. destruct (Ascii.eqb x dquote) eqn:E.
  - apply Ascii.eqb_eq in E. subst x.
    rewrite !Contains_cons, IH, Hc. reflexivity.
  - rewrite !Contains_cons, IH. reflexivity.
Qed.

Lemma lastByte_Contains (v : string) (c : ascii) :
  Contains v c = false -> lastByte v <> Some c.
Proof.
  induction v as [|x v IH]; [discriminate|].
  rewrite Contains_cons. intros H. apply orb_false_iff in H. destruct H as [H1 H2].
  destruct v as [|y v'].
  - simpl. intros E. inversion E; subst. rewrite Ascii.eqb_refl in H1. discriminate.
  - exact (IH H2).
Qed.

(** The canonical line of a key and a value without line feeds is
    returned by the scanner as it stands, if it fits the buffer. *)
Lemma canonicalLine_scannedAsIs (key value : string) :
  Contains key LF = false -> Contains value LF = false ->
  fits (canonicalLine key value) = true ->
  scannedAsIs (canonicalLine key value).
Proof.
  intros Hk Hv Hf. split; [|split; [|exact Hf]].
  - unfold canonicalLine. rewrite !Contains_app, Hk.
    rewrite (Contains_escapeQuotes value LF eq_refl), Hv. reflexivity.
  - unfold canonicalLine, Q.
    replace (key ++ " = " ++ String dquote EmptyString ++ escapeQuotes value
                 ++ String dquote EmptyString)%string
      with ((key ++ " = " ++ String dquote EmptyString ++ escapeQuotes value)
              ++ String dquote EmptyString)%string
      by (rewrite !append_assoc; reflexivity).
    apply dropCR_snoc. reflexivity.
Qed.

End PreservedFiles.

Section SetFrame.

Context {T : CaseTables}.

Local Open Scope list_scope.

(** [Set] changes the entries at one index only. *)
Lemma Set_frame (d : Dictionary) (key value : string) (i : nat) :
  i <> findIndex (ToLower key) (Entries d) ->
  nth_error (Entries (Set_ d key value)) i = nth_error (Entries d) i.
Proof.
  intros Hi.
  destruct (Set_cases d key value)
    as [(pre & e & post & E & Hpre & He & ->)|(Hall & ->)].
  - rewrite E in *. rewrite (findIndex_app_first _ pre post e Hpre He) in Hi.
    destruct (Nat.lt_ge_cases i (List.length pre)) as [Hlt|Hge].
    + rewrite !nth_error_app1 by exact Hlt. reflexivity.
    + rewrite !nth_error_app2 by exact Hge.
      destruct (i - List.length pre) as [|k] eqn:Ek; [lia|]. reflexivity.
  - rewrite (findIndex_none _ _ Hall) in Hi.
    destruct (Nat.lt_ge_cases i (List.length (Entries d))) as [Hlt|Hge].
    + rewrite nth_error_app1 by exact Hlt. reflexivity.
    + rewrite nth_error_app2 by exact Hge.
      destruct (i - List.length (Entries d)) as [|k] eqn:Ek; [lia|].
      cbn [nth_error]. symmetry.
      replace (nth_error [] k) with (@None Entry) by (destruct k; reflexivity).
      apply nth_error_None. exact Hge.
Qed.

End SetFrame.

Section KeyFacts.

Lemma wfKey_intro (key : string) :
  key <> EmptyString -> TrimSpace key = key ->
  Contains key equals = false -> HasPrefix key "#" = false ->
  wfKey key.
Proof. intros H1 H2 H3 H4. repeat split; assumption. Qed.

End KeyFacts.

(** * Reading back what [Save] wrote for any line *)

Section TrimFacts3.

Lemma trimLeftSpace_idem (s : string) :
  trimLeftSpace (trimLeftSpace s) = trimLeftSpace s.
Proof.
  induction s as [s IH] using string_length_ind.
  destruct s as [|c [|d [|e r]]].
  - reflexivity.
  - cbn [trimLeftSpace]. destruct (asciiSpace c) eqn:Sc; [reflexivity|].
    cbn [trimLeftSpace]. rewrite Sc. reflexivity.
  - change (trimLeftSpace (String c (String d EmptyString)))
      with (if asciiSpace c then trimLeftSpace (String d EmptyString)
            else if space2 c d then EmptyString
            else String c (String d EmptyString)).
    destruct (asciiSpace c) eqn:Sc; [apply IH; simpl; lia|].
    destruct (space2 c d) eqn:S2; [reflexivity|].
    cbn [trimLeftSpace]. rewrite Sc, S2. reflexivity.
  - change (trimLeftSpace (String c (String d (String e r))))
      with (if asciiSpace c then trimLeftSpace (String d (String e r))
            else if space2 c d then trimLeftSpace (String e r)
            else if space3 c d e then trimLeftSpace r
            else String c (String d (String e r))).
    destruct (asciiSpace c) eqn:Sc; [apply IH; simpl; lia|].
    destruct (space2 c d) eqn:S2; [apply IH; simpl; lia|].
    destruct (space3 c d e) eqn:S3; [apply IH; simpl; lia|].
    cbn [trimLeftSpace]. rewrite Sc, S2, S3. reflexivity.
Qed.

Lemma allSpace_single (x : ascii) :
  asciiSpace x = true -> allSpace (String x EmptyString) = true.
Proof. intros H. unfold allSpace. simpl. rewrite H. reflexivity. Qed.

Lemma TrimSpace_snoc_space (a : string) (x : ascii) :
  asciiSpace x = true -> TrimSpace (a ++ String x EmptyString) = TrimSpace a.
Proof.
  intros Hx. pose proof (asciiSpace_ascii x Hx) as Ax. unfold TrimSpace.
  rewrite (trimLeftSpace_app_ascii x EmptyString a Ax).
  destruct (allSpace a) eqn:Ea.
  - apply allSpace_true in Ea. rewrite Ea. simpl. rewrite Hx. reflexivity.
  - rewrite (trimRightSpace_app_ascii x EmptyString _ Ax).
    rewrite (allSpace_single x Hx). reflexivity.
Qed.

Lemma TrimSpace_app_spaces (w a : string) :
  allBytes asciiSpace w = true -> TrimSpace (a ++ w) = TrimSpace a.
Proof.
  revert a. induction w as [|x w IH]; intros a H.
  - rewrite append_nil_r. reflexivity.
  - simpl in H. apply andb_true_iff in H. destruct H as [Hx Hw].
    replace (a ++ String x w) with ((a ++ String x EmptyString) ++ w)
      by (rewrite append_assoc; reflexivity).
    rewrite (IH _ Hw). apply TrimSpace_snoc_space. exact Hx.
Qed.

Lemma allBytes_impl (p q : ascii -> bool) (s : string) :
  (forall c, p c = true -> q c = true) ->
  allBytes p s = true -> allBytes q s = true.
Proof.
  intros Hpq. induction s as [|c s IH]; simpl; auto.
  intros H. apply andb_true_iff in H. destruct H as [H1 H2].
  rewrite (Hpq c H1), (IH H2). reflexivity.
Qed.

Lemma dropCR_cases (s : string) :
  dropCR s = s \/ s = dropCR s ++ String CR EmptyString.
Proof.
  induction s as [|c s IH]; [left; reflexivity|].
  destruct s as [|d s'].
  - simpl. destruct (Ascii.eqb c CR) eqn:E.
    + right. apply Ascii.eqb_eq in E. subst. reflexivity.
    + left. reflexivity.
  - change (dropCR (String c (String d s'))) with (String c (dropCR (String d s'))).
    destruct IH as [IH|IH].
    + left. rewrite IH. reflexivity.
    + right. cbn [append]. rewrite <- IH. reflexivity.
Qed.

Lemma TrimSpace_dropCR (s : string) : TrimSpace (dropCR s) = TrimSpace s.
Proof.
  destruct (dropCR_cases s) as [H|H].
  - rewrite H. reflexivity.
  - rewrite H at 2. symmetry. apply TrimSpace_snoc_space. reflexivity.
Qed.

Lemma Contains_suffix_false (w s : string) (c : ascii) :
  Contains (w ++ s) c = false -> Contains s c = false.
Proof. rewrite Contains_app. intros H. apply orb_false_iff in H. tauto. Qed.

Lemma Contains_prefix_false (s w : string) (c : ascii) :
  Contains (s ++ w) c = false -> Contains s c = false.
Proof. rewrite Contains_app. intros H. apply orb_false_iff in H. tauto. Qed.

Lemma Contains_trimLeftSpace (s : string) (c : ascii) :
  Contains s c = false -> Contains (trimLeftSpace s) c = false.
Proof.
  intros H. destruct (trimLeftSpace_suffix s) as [w Hw]. rewrite Hw in H.
  exact (Contains_suffix_false _ _ _ H).
Qed.

Lemma Contains_trimRightSpace (s : string) (c : ascii) :
  Contains s c = false -> Contains (trimRightSpace s) c = false.
Proof.
  intros H. destruct (trimRightSpace_prefix s) as [w Hw]. rewrite Hw in H.
  exact (Contains_prefix_false _ _ _ H).
Qed.

(** The equals sign is no white space: trimming a line works on the text
    before the first equals sign and on the text after it. *)
Lemma TrimSpace_Cut (l pre post : string) :
  Cut l equals = Some (pre, post) ->
  TrimSpace l = trimLeftSpace pre ++ String equals (trimRightSpace post).
Proof.
  intros H. apply Cut_Some in H. destruct H as [-> _]. unfold TrimSpace.
  assert (HL : trimLeftSpace (pre ++ String equals post)
               = trimLeftSpace pre ++ String equals post).
  { rewrite (trimLeftSpace_app_ascii equals post pre eq_refl).
    destruct (allSpace pre) eqn:Ea.
    - apply allSpace_true in Ea. rewrite Ea.
      apply trimLeftSpace_ascii_nonspace; reflexivity.
    - reflexivity. }
  rewrite HL, (trimRightSpace_app_ascii equals post _ eq_refl).
  rewrite (allSpace_ascii_nonspace equals post eq_refl eq_refl).
  cbn [trimRightSpace].
  rewrite (allSpace_ascii_nonspace equals post eq_refl eq_refl). reflexivity.
Qed.

Lemma TrimSpace_trimLeftSpace (s : string) :
  TrimSpace (trimLeftSpace s) = TrimSpace s.
Proof. unfold TrimSpace. rewrite trimLeftSpace_idem. reflexivity. Qed.

(** A line with an equals sign that is no comment is an assignment whose
    key is the trimmed text before the first equals sign. *)
Lemma parseLine_Cut (l pre post : string) :
  Cut l equals = Some (pre, post) ->
  HasPrefix (TrimSpace l) "#" = false ->
  parseLine l
  = (let '(value, inlineComment, inlineCommentSpace) :=
       parseValue (TrimSpace (trimRightSpace post)) in
     mkEntry l (TrimSpace pre) value inlineComment inlineCommentSpace false false).
Proof.
  intros HC Hh. unfold parseLine. rewrite Hh.
  pose proof (TrimSpace_Cut l pre post HC) as HT. rewrite HT.
  replace (isEmpty (trimLeftSpace pre ++ String equals (trimRightSpace post)))
    with false by (destruct (trimLeftSpace pre); reflexivity).
  unfold SplitN2.
  rewrite (Cut_app (trimLeftSpace pre) (trimRightSpace post) equals).
  - rewrite TrimSpace_trimLeftSpace. reflexivity.
  - apply Contains_trimLeftSpace. apply Cut_Some in HC. tauto.
Qed.

(** A line without equals sign, and a line that starts with a hash after
    trimming, has no key. *)
Lemma parseLine_no_key (l : string) :
  Contains l equals = false \/ HasPrefix (TrimSpace l) "#" = true ->
  Key (parseLine l) = EmptyString
  /\ (IsBlank (parseLine l) = true \/ IsComment (parseLine l) = true).
Proof.
  intros H. unfold parseLine.
  destruct (isEmpty (TrimSpace l)) eqn:Ee; [simpl; auto|].
  destruct (HasPrefix (TrimSpace l) "#") eqn:Eh; [simpl; auto|].
  destruct H as [H|H]; [|discriminate].
  unfold SplitN2.
  replace (Cut (TrimSpace l) equals) with (@None (string * string))
    by (symmetry; apply Cut_None; apply Contains_TrimSpace; exact H).
  simpl; auto.
Qed.

End TrimFacts3.

Section SavedKey.

Lemma Key_parseLine_TrimSpace (a b : string) :
  TrimSpace a = TrimSpace b -> Key (parseLine a) = Key (parseLine b).
Proof.
  intros H. unfold parseLine. rewrite H.
  destruct (isEmpty (TrimSpace b)); [reflexivity|].
  destruct (HasPrefix (TrimSpace b) "#"); [reflexivity|].
  destruct (SplitN2 (TrimSpace b) equals) as [|p0 [|p1 [|p2 ps]]]; try reflexivity.
  destruct (parseValue (TrimSpace p1)) as [[v c] g]. reflexivity.
Qed.

Lemma saveLine_no_key (e : Entry) :
  Key e = EmptyString -> saveLine e = EmptyString \/ saveLine e = Original e.
Proof.
  intros H. unfold saveLine. rewrite H.
  destruct (IsBlank e); [left; reflexivity|].
  destruct (IsComment e); right; reflexivity.
Qed.

Lemma TrimRight_spaces (pre : string) :
  exists w, pre = TrimRight pre spaceOrTab ++ w /\ allBytes asciiSpace w = true.
Proof.
  destruct (TrimRight_decompose spaceOrTab pre) as (w & Hw & Hp).
  exists w. split; [exact Hw|].
  apply (allBytes_impl spaceOrTab asciiSpace w spaceOrTab_asciiSpace Hp).
Qed.

Lemma trimLeftSpace_app_spaces (a w : string) :
  allSpace a = false -> allBytes asciiSpace w = true ->
  trimLeftSpace (a ++ w) = trimLeftSpace a ++ w.
Proof.
  intros Ha Hw. destruct w as [|x w].
  - rewrite !append_nil_r. reflexivity.
  - simpl in Hw. apply andb_true_iff in Hw. destruct Hw as [Hx _].
    rewrite (trimLeftSpace_app_ascii x w a (asciiSpace_ascii x Hx)), Ha.
    reflexivity.
Qed.

Lemma TrimSpace_nonempty_not_allSpace (s : string) :
  TrimSpace s <> EmptyString -> allSpace s = false.
Proof.
  intros H. destruct (allSpace s) eqn:E; auto.
  apply allSpace_true in E. unfold TrimSpace in H. rewrite E in H.
  exfalso. apply H. reflexivity.
Qed.

(** The line [Save] writes for an assignment with a key. *)
Lemma saveLine_assignment (l pre post key value cmt gap : string) :
  Cut l equals = Some (pre, post) ->
  key <> EmptyString ->
  saveLine (mkEntry l key value cmt gap false false)
  = TrimRight pre spaceOrTab ++ " = " ++ Q ++ escapeQuotes value ++ Q
    ++ inlineSuffix (mkEntry l key value cmt gap false false).
Proof.
  intros HC Hk. unfold saveLine, inlineSuffix.
  cbn [IsBlank IsComment Key Value Original InlineComment InlineCommentSpace].
  replace (isEmpty key) with false by (destruct key; [congruence|reflexivity]).
  cbn [negb].
  replace (Contains l equals) with true.
  2:{ symmetry. destruct (Contains l equals) eqn:E; auto.
      apply Cut_None in E. congruence. }
  unfold SplitN2. rewrite HC. cbn [nth].
  destruct (isEmpty cmt); cbn [negb]; rewrite ?append_assoc, ?append_nil_r;
    reflexivity.
Qed.

(** Read again, the line that [Save] wrote for a line has the key the
    line had. *)
Lemma saved_key_stable (l : string) :
  Key (parseLine (dropCR (saveLine (parseLine l)))) = Key (parseLine l).
Proof.
  rewrite (Key_parseLine_TrimSpace _ _ (TrimSpace_dropCR _)).
  destruct (Key (parseLine l)) as [|k0 k] eqn:EK.
  { destruct (saveLine_no_key (parseLine l) EK) as [E|E]; rewrite E.
    - reflexivity.
    - rewrite parseLine_Original. exact EK. }
  rewrite <- EK.
  destruct (Cut l equals) as [[pre post]|] eqn:HC.
  2:{ apply Cut_None in HC.
      destruct (parseLine_no_key l (or_introl HC)) as [E _]. congruence. }
  destruct (HasPrefix (TrimSpace l) "#") eqn:Hh.
  { destruct (parseLine_no_key l (or_intror Hh)) as [E _]. congruence. }
  pose proof (parseLine_Cut l pre post HC Hh) as HP.
  destruct (parseValue (TrimSpace (trimRightSpace post))) as [[v c] g].
  rewrite HP in *. cbn [Key] in *.
  assert (Hk : TrimSpace pre <> EmptyString) by congruence.
  rewrite (saveLine_assignment l pre post _ v c g HC Hk).
  set (sfx := inlineSuffix (mkEntry l (TrimSpace pre) v c g false false)).
  destruct (TrimRight_spaces pre) as (w & Hw & Hsp).
  remember (TrimRight pre spaceOrTab) as keyPart eqn:Ekp.
  assert (HTk : TrimSpace keyPart = TrimSpace pre).
  { rewrite Hw. symmetry. apply TrimSpace_app_spaces. exact Hsp. }
  assert (Hna : allSpace keyPart = false).
  { apply TrimSpace_nonempty_not_allSpace. rewrite HTk. exact Hk. }
  assert (Hne : trimLeftSpace keyPart <> EmptyString).
  { apply allSpace_false. exact Hna. }
  assert (Hpre : Contains pre equals = false).
  { apply Cut_Some in HC. tauto. }
  assert (Hkeq : Contains keyPart equals = false).
  { rewrite Hw in Hpre. exact (Contains_prefix_false _ _ _ Hpre). }
  pose proof (Cut_canonical keyPart (Q ++ escapeQuotes v ++ Q ++ sfx) Hkeq) as HC'.
  assert (Hh' : HasPrefix (TrimSpace (keyPart ++ " = " ++ Q ++ escapeQuotes v
                                              ++ Q ++ sfx)) "#" = false).
  { rewrite (TrimSpace_Cut _ _ _ HC').
    rewrite (trimLeftSpace_app_ascii " "%char EmptyString keyPart eq_refl), Hna.
    rewrite !append_assoc.
    rewrite (HasPrefix_app_nonempty _ _ "#"%char Hne).
    rewrite (TrimSpace_Cut l pre post HC) in Hh.
    rewrite Hw, (trimLeftSpace_app_spaces keyPart w Hna Hsp) in Hh.
    rewrite !append_assoc in Hh.
    rewrite (HasPrefix_app_nonempty _ _ "#"%char Hne) in Hh. exact Hh. }
  rewrite (parseLine_Cut _ _ _ HC' Hh').
  destruct (parseValue (TrimSpace (trimRightSpace (" " ++ Q ++ escapeQuotes v
                                                       ++ Q ++ sfx))))
    as [[v' c'] g'].
  cbn [Key].
  rewrite (TrimSpace_snoc_space keyPart " "%char eq_refl). exact HTk.
Qed.

End SavedKey.

Section SavedLines.

Local Open Scope list_scope.

Lemma Contains_substring (s : string) (c : ascii) :
  Contains s c = false -> forall n m, Contains (substring n m s) c = false.
Proof.
  induction s as [|x s IH]; intros H n m.
  - destruct n, m; reflexivity.
  - rewrite Contains_cons in H. apply orb_false_iff in H. destruct H as [H1 H2].
    destruct n as [|n].
    + destruct m as [|m]; [reflexivity|].
      cbn [substring]. rewrite Contains_cons, H1. apply (IH H2).
    + cbn [substring]. apply (IH H2).
Qed.

Lemma Contains_unescapeQuotes (s : string) (c : ascii) :
  Contains s c = false -> Contains (unescapeQuotes s) c = false.
Proof.
  unfold unescapeQuotes.
  induction s as [s IH] using string_length_ind. intros H.
  destruct s as [|x [|d r]]; [reflexivity | exact H |].
  change (ReplaceAll_escaped_quote (String x (String d r)))
    with (if Ascii.eqb x backslash && Ascii.eqb d dquote
          then String dquote (ReplaceAll_escaped_quote r)
          else String x (ReplaceAll_escaped_quote (String d r))).
  rewrite !Contains_cons in H. apply orb_false_iff in H. destruct H as [Hx H].
  apply orb_false_iff in H. destruct H as [Hd Hr].
  destruct (Ascii.eqb x backslash && Ascii.eqb d dquote) eqn:E.
  - apply andb_true_iff in E. destruct E as [_ E]. apply Ascii.eqb_eq in E. subst d.
    rewrite Contains_cons, Hd. apply IH; [simpl; lia | exact Hr].
  - rewrite Contains_cons, Hx. apply IH; [simpl; lia|].
    rewrite Contains_cons, Hd, Hr. reflexivity.
Qed.

Lemma parseValue_Contains (vc : string) (c : ascii) :
  Contains vc c = false ->
  let '(value, cmt, gap) := parseValue vc in
  Contains value c = false /\ Contains cmt c = false /\ Contains gap c = false.
Proof.
  intros H. unfold parseValue, slice, sliceFrom.
  destruct (HasPrefix vc Q).
  - destruct (findClosingQuote vc 1) as [i|]; [|auto].
    assert (Hv : Contains (unescapeQuotes (substring 1 (i - 1) vc)) c = false).
    { apply Contains_unescapeQuotes. apply Contains_substring. exact H. }
    match goal with |- context [Nat.ltb 0 ?n] => destruct (Nat.ltb 0 n) end; [|auto].
    match goal with |- context [IndexByte ?r hash] =>
      assert (Hr : Contains r c = false) by (apply Contains_substring; exact H);
      destruct (IndexByte r hash) as [j|] end; [|auto].
    split; [exact Hv|]. split; apply Contains_substring; exact Hr.
  - destruct (IndexByte vc hash) as [j|]; [|auto].
    assert (Hb : Contains (substring 0 (j - 0) vc) c = false)
      by (apply Contains_substring; exact H).
    split; [apply Contains_TrimSpace; exact Hb|].
    split; [apply Contains_substring; exact H|].
    match goal with |- context [Nat.ltb ?a ?b] => destruct (Nat.ltb a b) end;
      [apply Contains_substring; exact Hb | reflexivity].
Qed.

(** [Save] writes no line feed into the line of a line that has none. *)
Lemma saveLine_parseLine_no_LF (l : string) :
  Contains l LF = false -> Contains (saveLine (parseLine l)) LF = false.
Proof.
  intros H.
  destruct (Key (parseLine l)) as [|k0 k] eqn:EK.
  { destruct (saveLine_no_key (parseLine l) EK) as [E|E]; rewrite E.
    - reflexivity.
    - rewrite parseLine_Original. exact H. }
  destruct (Cut l equals) as [[pre post]|] eqn:HC.
  2:{ apply Cut_None in HC.
      destruct (parseLine_no_key l (or_introl HC)) as [E _]. congruence. }
  destruct (HasPrefix (TrimSpace l) "#") eqn:Hh.
  { destruct (parseLine_no_key l (or_intror Hh)) as [E _]. congruence. }
  pose proof (parseLine_Cut l pre post HC Hh) as HP.
  destruct (Cut_Some _ _ _ _ HC) as [El _].
  assert (Hpre : Contains pre LF = false).
  { rewrite El in H. exact (Contains_prefix_false _ _ _ H). }
  assert (Hpost : Contains post LF = false).
  { rewrite El in H. apply Contains_suffix_false in H.
    rewrite Contains_cons in H. apply orb_false_iff in H. tauto. }
  pose proof (parseValue_Contains (TrimSpace (trimRightSpace post)) LF
                (Contains_TrimSpace _ _ (Contains_trimRightSpace _ _ Hpost)))
    as HV.
  destruct (parseValue (TrimSpace (trimRightSpace post))) as [[v c] g].
  destruct HV as (Hv & Hc & Hg).
  rewrite HP in *. cbn [Key] in EK.
  rewrite (saveLine_assignment l pre post _ v c g HC) by congruence.
  destruct (TrimRight_spaces pre) as (w & Hw & _).
  rewrite !Contains_app.
  rewrite Hw in Hpre. rewrite (Contains_prefix_false _ _ _ Hpre).
  rewrite (Contains_escapeQuotes v LF eq_refl), Hv.
  unfold inlineSuffix. cbn [InlineComment InlineCommentSpace].
  destruct (isEmpty c); cbn [negb]; rewrite ?Contains_app, ?Hc, ?Hg; reflexivity.
Qed.

Lemma rawLines_no_LF (data : string) :
  Forall (fun l => Contains l LF = false) (rawLines data).
Proof.
  induction data as [|c r IH]; [constructor|].
  cbn [rawLines]. destruct (Ascii.eqb c LF) eqn:E.
  - constructor; [reflexivity | exact IH].
  - destruct (rawLines r) as [|l ls].
    + constructor; [|constructor]. rewrite Contains_cons, E. reflexivity.
    + inversion IH; subst. constructor; [|assumption].
      rewrite Contains_cons, E. assumption.
Qed.

Lemma Contains_dropCR (l : string) (c : ascii) :
  Contains l c = false -> Contains (dropCR l) c = false.
Proof.
  intros H. destruct (dropCR_cases l) as [E|E].
  - rewrite E. exact H.
  - rewrite E in H. exact (Contains_prefix_false _ _ _ H).
Qed.

Lemma scanLines_no_LF (data : string) (lines : list string) :
  scanLines data = Some lines -> Forall (fun l => Contains l LF = false) lines.
Proof.
  unfold scanLines. destruct (forallb fits (rawLines data)); [|discriminate].
  intros H. inversion H; subst. apply Forall_map.
  eapply Forall_impl; [|apply rawLines_no_LF].
  intros l Hl. apply Contains_dropCR. exact Hl.
Qed.

(** What the scanner returns for lines that were written without line
    feeds in them and that fit its buffer. *)
Lemma scanLines_unlines_dropCR (ls : list string) :
  Forall (fun l => Contains l LF = false) ls ->
  Forall (fun l => fits l = true) ls ->
  scanLines (unlines ls) = Some (map dropCR ls).
Proof.
  intros HLF Hfit. unfold scanLines. rewrite rawLines_unlines by exact HLF.
  replace (forallb fits ls) with true
    by (symmetry; apply forallb_forall; apply Forall_forall; exact Hfit).
  reflexivity.
Qed.

End SavedLines.

(** * Adding a key, saving, loading and querying *)

Section AddRoundTrip.

Context {T : CaseTables}.

Local Open Scope list_scope.

Lemma fileLoads_LoadDictionary (fs : filesystem) (path : string)
      (lines : list string) :
  fileLoads fs path lines ->
  LoadDictionary path fs = Ok (mkDictionary path (map parseLine lines))
  /\ Forall (fun l => Contains l LF = false) lines
  /\ canCreate fs path = true.
Proof.
  unfold fileLoads, LoadDictionary, canCreate.
  destruct (fs path) as [| | |data|data]; intros H; try contradiction.
  - subst lines. repeat split. constructor.
  - rewrite H. repeat split. exact (scanLines_no_LF data lines H).
Qed.

(** Adding a key that the file does not have, saving, loading again and
    querying the key gives the value that was added, whatever lines the
    file has, as long as the scanner can read what was saved. *)
Lemma add_round_trip (fs : filesystem) (path : string) (lines : list string)
      (key value : string) :
  fileLoads fs path lines ->
  Forall (fun l => keyEq (Key (parseLine l)) key = false) lines ->
  Forall (fun l => fits (saveLine (parseLine l)) = true) lines ->
  wfKey key ->
  lastByte value <> Some backslash ->
  scannedAsIs (canonicalLine key value) ->
  exists d d1 fs' d2,
    LoadDictionary path fs = Ok d
    /\ Add d key value = Ok d1
    /\ Save d1 path fs = (fs', None)
    /\ fs' path = Regular (saveBytes d ++ canonicalLine key value ++ NL)%string
    /\ LoadDictionary path fs' = Ok d2
    /\ Query d2 key = Ok value.
Proof.
  intros Hfile Habs Hfits Hk Hv (HnLF & HnCR & Hnfit).
  destruct (fileLoads_LoadDictionary fs path lines Hfile) as (HLoad & HLF & Hcan).
  set (d := mkDictionary path (map parseLine lines)) in *.
  set (d1 := withEntries d (Entries d ++ [newEntry key value])).
  set (saved := map saveLine (map parseLine lines) ++ [canonicalLine key value]).
  assert (Hm : Forall (fun x => keyMatches (ToLower key) x = false) (Entries d)).
  { unfold d. cbn [Entries]. apply Forall_map. exact Habs. }
  assert (HAdd : Add d key value = Ok d1).
  { unfold Add, KeyExists, findEntryCaseInsensitive.
    rewrite (find_none _ _ Hm). reflexivity. }
  assert (Hbytes : saveBytes d1 = unlines saved).
  { unfold saveBytes, d1, d, saved. cbn [Entries withEntries].
    rewrite map_app. cbn [map].
    rewrite (saveLine_newEntry key value Hk). reflexivity. }
  assert (Hbytes' : unlines saved
                    = (saveBytes d ++ canonicalLine key value ++ NL)%string).
  { unfold saved, saveBytes, d. cbn [Entries]. rewrite unlines_app.
    cbn [unlines]. rewrite append_nil_r. reflexivity. }
  assert (HSave : Save d1 path fs = (writeFile fs path (unlines saved), None)).
  { unfold Save. rewrite Hbytes, Hcan. reflexivity. }
  assert (Hscan : scanLines (unlines saved) = Some (map dropCR saved)).
  { apply scanLines_unlines_dropCR; unfold saved; apply Forall_app; split.
    - rewrite map_map. apply Forall_map.
      eapply Forall_impl; [|exact HLF]. apply saveLine_parseLine_no_LF.
    - constructor; [exact HnLF | constructor].
    - rewrite map_map. apply Forall_map. exact Hfits.
    - constructor; [exact Hnfit | constructor]. }
  exists d, d1, (writeFile fs path (unlines saved)),
         (mkDictionary path (map parseLine (map dropCR saved))).
  split; [exact HLoad|]. split; [exact HAdd|]. split; [exact HSave|].
  split; [rewrite writeFile_same, Hbytes'; reflexivity|].
  split.
  { unfold LoadDictionary. rewrite writeFile_same, Hscan. reflexivity. }
  unfold Query, findEntryCaseInsensitive, saved. cbn [Entries].
  rewrite !map_app. cbn [map].
  rewrite HnCR, (parseLine_newEntry key value Hk Hv).
  rewrite (find_app_first _ _ [] (newEntry key value)).
  - reflexivity.
  - rewrite !map_map. apply Forall_map.
    eapply Forall_impl; [|exact Habs].
    intros l Hl. unfold keyMatches. cbn beta.
    rewrite saved_key_stable. exact Hl.
  - unfold keyMatches. simpl. apply String.eqb_refl.
Qed.

End AddRoundTrip.

(** * More on trimming *)

Section TrimFacts4.

(** A string that [trimLeftSpace] keeps whole does not start with white
    space. *)
Lemma trimLeftSpace_fix_cons (c : ascii) (r : string) :
  trimLeftSpace (String c r) = String c r ->
  asciiSpace c = false
  /\ match r with
     | EmptyString => True
     | String d r2 =>
         space2 c d = false
         /\ match r2 with
            | EmptyString => True
            | String e _ => space3 c d e = false
            end
     end.
Proof.
  intros H.
  assert (Hlen : forall t, String.length t < String.length (String c r) ->
                           trimLeftSpace t <> String c r).
  { intros t Ht E. pose proof (trimLeftSpace_length t) as L. rewrite E in L. lia. }
  simpl in H.
  destruct (asciiSpace c).
  { exfalso. apply (Hlen r); simpl; auto. }
  split; auto.
  destruct r as [|d r2]; auto.
  destruct (space2 c d).
  { exfalso. apply (Hlen r2); simpl; auto. }
  split; auto.
  destruct r2 as [|e r3]; auto.
  destruct (space3 c d e); auto.
  exfalso. apply (Hlen r3); simpl; auto.
Qed.

(** A prefix of a string that does not start with white space does not
    start with white space. *)
Lemma trimLeftSpace_fix_prefix (a w : string) :
  trimLeftSpace (a ++ w) = a ++ w -> trimLeftSpace a = a.
Proof.
  destruct a as [|c r1]; [reflexivity|]. cbn [append]. intros H.
  apply trimLeftSpace_fix_cons in H. destruct H as [Hc H].
  cbn [trimLeftSpace]. rewrite Hc.
  destruct r1 as [|d r2]; [reflexivity|]. cbn [append] in H.
  destruct H as [Hd H]. rewrite Hd.
  destruct r2 as [|e r3]; [reflexivity|]. cbn [append] in H.
  rewrite H. reflexivity.
Qed.

Lemma trimLeftSpace_app_allSpace (a b : string) :
  allSpace a = true -> trimLeftSpace (a ++ b) = trimLeftSpace b.
Proof.
  induction a as [a IH] using string_length_ind. intros Ha.
  apply allSpace_true in Ha.
  destruct a as [|c r1]; [reflexivity|].
  cbn [trimLeftSpace] in Ha. cbn [append trimLeftSpace].
  destruct (asciiSpace c).
  { apply IH; [simpl; lia | apply allSpace_true; exact Ha]. }
  destruct r1 as [|d r2]; [discriminate|]. cbn [append].
  destruct (space2 c d).
  { apply IH; [simpl; lia | apply allSpace_true; exact Ha]. }
  destruct r2 as [|e r3]; [discriminate|]. cbn [append].
  destruct (space3 c d e); [|discriminate].
  apply IH; [simpl; lia | apply allSpace_true; exact Ha].
Qed.

Lemma allSpace_app (a b : string) :
  allSpace a = true -> allSpace b = true -> allSpace (a ++ b) = true.
Proof.
  intros Ha Hb. apply allSpace_true. rewrite trimLeftSpace_app_allSpace by exact Ha.
  apply allSpace_true. exact Hb.
Qed.

(** What [trimRightSpace] cuts off is white space. *)
Lemma trimRightSpace_decompose (s : string) :
  exists w, s = trimRightSpace s ++ w /\ allSpace w = true.
Proof.
  induction s as [|c r (w & Hw & Hs)]; [exists EmptyString; split; reflexivity|].
  cbn [trimRightSpace]. destruct (allSpace (String c r)) eqn:E.
  - exists (String c r). split; [reflexivity | exact E].
  - exists w. split; [simpl; congruence | exact Hs].
Qed.

Lemma trimRightSpace_idem (s : string) :
  trimRightSpace (trimRightSpace s) = trimRightSpace s.
Proof.
  induction s as [|c r IH]; [reflexivity|].
  cbn [trimRightSpace]. destruct (allSpace (String c r)) eqn:E; [reflexivity|].
  cbn [trimRightSpace]. rewrite IH.
  destruct (allSpace (String c (trimRightSpace r))) eqn:E'; [|reflexivity].
  destruct (trimRightSpace_decompose r) as (w & Hw & Hs).
  assert (allSpace (String c r) = true).
  { rewrite Hw. change (String c (trimRightSpace r ++ w))
      with (String c (trimRightSpace r) ++ w).
    apply allSpace_app; assumption. }
  congruence.
Qed.

Lemma trimLeftSpace_trimRightSpace (s : string) :
  trimLeftSpace s = s -> trimLeftSpace (trimRightSpace s) = trimRightSpace s.
Proof.
  intros H. destruct (trimRightSpace_prefix s) as [w Hw].
  apply (trimLeftSpace_fix_prefix _ w). rewrite <- Hw. exact H.
Qed.

(** [strings.TrimSpace] leaves nothing to trim. *)
Lemma TrimSpace_idem (s : string) : TrimSpace (TrimSpace s) = TrimSpace s.
Proof.
  unfold TrimSpace.
  rewrite (trimLeftSpace_trimRightSpace _ (trimLeftSpace_idem s)).
  apply trimRightSpace_idem.
Qed.

Lemma Contains_true_app_l (a b : string) (c : ascii) :
  Contains a c = true -> Contains (a ++ b) c = true.
Proof. intros H. rewrite Contains_app, H. reflexivity. Qed.

(** The first byte of a trimmed string is the first byte of the string
    trimmed on the left. *)
Lemma HasPrefix_trimRightSpace (s : string) (p : ascii) :
  trimRightSpace s <> EmptyString ->
  HasPrefix (trimRightSpace s) (String p EmptyString)
  = HasPrefix s (String p EmptyString).
Proof.
  intros H. destruct (trimRightSpace_prefix s) as [w Hw].
  rewrite Hw at 2. symmetry. apply HasPrefix_app_nonempty. exact H.
Qed.

End TrimFacts4.

(** * What a parsed line looks like *)

Section ParsedEntries.

Lemma sliceFrom_suffix (s : string) :
  forall n, exists p, s = p ++ sliceFrom s n.
Proof.
  unfold sliceFrom. induction s as [|c s IH]; intros n.
  - exists EmptyString. destruct n; reflexivity.
  - destruct n as [|n].
    + exists EmptyString. rewrite Nat.sub_0_r, substring_all. reflexivity.
    + destruct (IH n) as [p Hp]. exists (String c p).
      cbn [String.length substring append]. rewrite Nat.sub_succ. congruence.
Qed.

Lemma slice_sliceFrom (s : string) :
  forall n, s = slice s 0 n ++ sliceFrom s n.
Proof.
  unfold slice, sliceFrom. induction s as [|c s IH]; intros n.
  - destruct n; reflexivity.
  - destruct n as [|n].
    + rewrite !Nat.sub_0_r, substring_all. reflexivity.
    + cbn [String.length]. rewrite Nat.sub_succ, Nat.sub_0_r.
      cbn [substring append]. specialize (IH n). rewrite Nat.sub_0_r in IH.
      congruence.
Qed.

Lemma IndexByte_Some (s : string) (c : ascii) :
  forall j, IndexByte s c = Some j ->
  Contains (slice s 0 j) c = false
  /\ exists rest, sliceFrom s j = String c rest.
Proof.
  unfold slice, sliceFrom. induction s as [|x s IH]; intros j H; [discriminate|].
  cbn [IndexByte] in H. destruct (Ascii.eqb x c) eqn:E.
  - inversion H; subst. apply Ascii.eqb_eq in E. subst x.
    split; [reflexivity|]. exists s.
    rewrite Nat.sub_0_r. apply substring_all.
  - destruct (IndexByte s c) as [i|]; [|discriminate]. inversion H; subst.
    destruct (IH i eq_refl) as [H1 [rest H2]].
    rewrite Nat.sub_0_r in *. split.
    + cbn [substring]. rewrite Contains_cons, E. exact H1.
    + exists rest. cbn [String.length substring]. rewrite Nat.sub_succ. exact H2.
Qed.

Lemma append_inj_l (a b c : string) : a ++ b = a ++ c -> b = c.
Proof. induction a; simpl; intros H; [exact H|]. inversion H; auto. Qed.

Lemma trimRightSpace_fix_suffix (a y : string) (x : ascii) :
  isASCIIByte x = true ->
  trimRightSpace (a ++ String x y) = a ++ String x y ->
  trimRightSpace (String x y) = String x y.
Proof.
  intros Hx H. rewrite (trimRightSpace_app_ascii x y a Hx) in H.
  destruct (allSpace (String x y)).
  - pose proof (trimRightSpace_length a) as L. rewrite H, append_length in L.
    simpl in L. lia.
  - exact (append_inj_l _ _ _ H).
Qed.

(** The inline comment that is taken from a trimmed text starts with a
    hash and does not end in white space, and the space before it has no
    hash; or there is neither comment nor space. *)
Lemma parseValue_inlineTail (vc : string) :
  trimRightSpace vc = vc ->
  let '(value, cmt, gap) := parseValue vc in inlineTail gap cmt.
Proof.
  intros HR. unfold parseValue.
  assert (Hcomment : forall pre s j,
             vc = pre ++ s -> IndexByte s hash = Some j ->
             Contains (slice s 0 j) hash = false
             /\ exists text, sliceFrom s j = String hash text
                             /\ trimRightSpace (String hash text) = String hash text).
  { intros pre s j Hvc Hj. destruct (IndexByte_Some s hash j Hj) as [H1 [text H2]].
    split; [exact H1|]. exists text. split; [exact H2|].
    apply (trimRightSpace_fix_suffix (pre ++ slice s 0 j) text hash eq_refl).
    rewrite append_assoc, <- H2, <- (slice_sliceFrom s j), <- Hvc. exact HR. }
  destruct (HasPrefix vc Q).
  - destruct (findClosingQuote vc 1) as [i|]; [|constructor].
    destruct (sliceFrom_suffix vc (i + 1)) as [pre Hpre].
    destruct (Nat.ltb 0 (String.length (sliceFrom vc (i + 1)))); [|constructor].
    destruct (IndexByte (sliceFrom vc (i + 1)) hash) as [j|] eqn:Ej; [|constructor].
    destruct (Hcomment pre _ j Hpre Ej) as [H1 (text & H2 & H3)].
    rewrite H2. constructor; assumption.
  - destruct (IndexByte vc hash) as [j|] eqn:Ej; [|constructor].
    destruct (Hcomment EmptyString vc j eq_refl Ej) as [H1 (text & H2 & H3)].
    rewrite H2. constructor; [|exact H3].
    destruct (Nat.ltb (String.length (TrimSpace (slice vc 0 j)))
                      (String.length (slice vc 0 j))); [|reflexivity].
    destruct (sliceFrom_suffix (slice vc 0 j)
                               (String.length (TrimSpace (slice vc 0 j)))) as [p Hp].
    rewrite Hp in H1. exact (Contains_suffix_false _ _ _ H1).
Qed.

Lemma TrimSpace_trimRightSpace_fix (s : string) :
  trimRightSpace (TrimSpace s) = TrimSpace s.
Proof. unfold TrimSpace. apply trimRightSpace_idem. Qed.

(** The key of a line that has one is well formed. *)
Lemma parseLine_wfKey (l : string) :
  Key (parseLine l) <> EmptyString -> wfKey (Key (parseLine l)).
Proof.
  intros Hk.
  destruct (Cut l equals) as [[pre post]|] eqn:HC.
  2:{ apply Cut_None in HC.
      destruct (parseLine_no_key l (or_introl HC)) as [E _]. congruence. }
  destruct (HasPrefix (TrimSpace l) "#") eqn:Hh.
  { destruct (parseLine_no_key l (or_intror Hh)) as [E _]. congruence. }
  pose proof (parseLine_Cut l pre post HC Hh) as HP.
  destruct (parseValue (TrimSpace (trimRightSpace post))) as [[v c] g].
  rewrite HP in *. cbn [Key] in *.
  apply wfKey_intro; [exact Hk | apply TrimSpace_idem | |].
  - apply Contains_TrimSpace. apply Cut_Some in HC. tauto.
  - rewrite (TrimSpace_Cut l pre post HC) in Hh.
    assert (Hne : trimLeftSpace pre <> EmptyString).
    { intros E. apply Hk. unfold TrimSpace. rewrite E. reflexivity. }
    rewrite (HasPrefix_app_nonempty _ _ "#"%char Hne) in Hh.
    unfold TrimSpace. rewrite (HasPrefix_trimRightSpace _ "#"%char Hk). exact Hh.
Qed.

(** A line with a key is an assignment, and every line has an inline
    comment of the shape above or none. *)
Lemma parseLine_shape (l : string) :
  (Key (parseLine l) <> EmptyString ->
   IsBlank (parseLine l) = false /\ IsComment (parseLine l) = false)
  /\ inlineTail (InlineCommentSpace (parseLine l)) (InlineComment (parseLine l)).
Proof.
  unfold parseLine.
  destruct (isEmpty (TrimSpace l)); [split; [simpl; congruence | constructor]|].
  destruct (HasPrefix (TrimSpace l) "#"); [split; [simpl; congruence | constructor]|].
  destruct (SplitN2 (TrimSpace l) equals) as [|p0 [|p1 [|p2 ps]]];
    try solve [split; [simpl; congruence | constructor]].
  pose proof (parseValue_inlineTail (TrimSpace p1) (TrimSpace_trimRightSpace_fix p1))
    as HT.
  destruct (parseValue (TrimSpace p1)) as [[v c] g].
  split; [simpl; auto | exact HT].
Qed.

End ParsedEntries.

(** * Setting a key, saving, loading and querying *)

Section SetRoundTrip.

Context {T : CaseTables}.

Local Open Scope list_scope.

Lemma Value_parseLine_TrimSpace (a b : string) :
  TrimSpace a = TrimSpace b -> Value (parseLine a) = Value (parseLine b).
Proof.
  intros H. unfold parseLine. rewrite H.
  destruct (isEmpty (TrimSpace b)); [reflexivity|].
  destruct (HasPrefix (TrimSpace b) "#"); [reflexivity|].
  destruct (SplitN2 (TrimSpace b) equals) as [|p0 [|p1 [|p2 ps]]]; try reflexivity.
  destruct (parseValue (TrimSpace p1)) as [[v c] g]. reflexivity.
Qed.

(** The line [Save] writes for an entry that [Set] has updated. *)
Lemma saveLine_updateEntry (e : Entry) (value : string) :
  IsBlank e = false -> IsComment e = false -> wfKey (Key e) ->
  inlineTail (InlineCommentSpace e) (InlineComment e) ->
  saveLine (updateEntry e value)
  = (canonicalLine (Key e) value ++ InlineCommentSpace e ++ InlineComment e)%string.
Proof.
  intros Hb Hc (Hne & Htrim & Heq & Hhash) Ht.
  destruct (TrimSpace_fix (Key e) Htrim) as [HL HR].
  unfold saveLine, updateEntry.
  cbn [IsBlank IsComment Key Value Original InlineComment InlineCommentSpace].
  rewrite Hb, Hc.
  replace (isEmpty (Key e)) with false
    by (destruct (Key e); [congruence|reflexivity]).
  cbn [negb].
  assert (HCont : forall rest,
             Contains (Key e ++ " = " ++ rest)%string equals = true).
  { intros rest. rewrite Contains_app. apply orb_true_iff. right. reflexivity. }
  assert (HTR : forall rest,
             TrimRight (nth 0 (SplitN2 (Key e ++ " = " ++ rest)%string equals)
                            EmptyString) spaceOrTab = Key e).
  { intros rest. unfold SplitN2. rewrite (Cut_canonical (Key e) rest Heq).
    cbn [nth]. rewrite (TrimRight_app_cut spaceOrTab (Key e) " " eq_refl).
    apply (TrimRight_trimRightSpace_fix (Key e) HR). }
  unfold canonicalLine.
  destruct Ht as [|g c Hg Hcm]; cbn [isEmpty negb]; rewrite ?append_assoc.
  - rewrite HCont, HTR, ?append_assoc, ?append_nil_r. reflexivity.
  - rewrite HCont, HTR, ?append_assoc. reflexivity.
Qed.

Lemma parseLine_fields_no_LF (l : string) :
  Contains l LF = false ->
  Contains (Key (parseLine l)) LF = false
  /\ Contains (InlineCommentSpace (parseLine l)) LF = false
  /\ Contains (InlineComment (parseLine l)) LF = false.
Proof.
  intros H. apply (Contains_TrimSpace l LF) in H. unfold parseLine.
  destruct (isEmpty (TrimSpace l)); [repeat split|].
  destruct (HasPrefix (TrimSpace l) "#"); [repeat split|].
  unfold SplitN2.
  destruct (Cut (TrimSpace l) equals) as [[p0 p1]|] eqn:HC; [|repeat split].
  destruct (Cut_Some _ _ _ _ HC) as [E _]. rewrite E in H.
  pose proof (Contains_prefix_false _ _ _ H) as H0.
  apply Contains_suffix_false in H. rewrite Contains_cons in H.
  apply orb_false_iff in H. destruct H as [_ H1].
  pose proof (parseValue_Contains (TrimSpace p1) LF (Contains_TrimSpace _ _ H1)) as HV.
  destruct (parseValue (TrimSpace p1)) as [[v c] g]. destruct HV as (Hv & Hc & Hg).
  cbn [Key InlineComment InlineCommentSpace].
  split; [apply Contains_TrimSpace; exact H0|]. split; assumption.
Qed.

(** Read again, the line [Save] writes for an updated entry of a loaded
    file has the key of the entry and the new value. *)
Lemma updated_line_read_back (l value : string) :
  Key (parseLine l) <> EmptyString ->
  lastByte value <> Some backslash ->
  let e' := parseLine (dropCR (saveLine (updateEntry (parseLine l) value))) in
  Key e' = Key (parseLine l) /\ Value e' = value.
Proof.
  intros Hk Hv.
  destruct (parseLine_shape l) as [Hflags Ht]. destruct (Hflags Hk) as [Hb Hc].
  pose proof (parseLine_wfKey l Hk) as Hwf.
  pose proof (saveLine_updateEntry (parseLine l) value Hb Hc Hwf Ht) as HS.
  cbn zeta.
  rewrite (Key_parseLine_TrimSpace _ _ (TrimSpace_dropCR _)).
  rewrite (Value_parseLine_TrimSpace _ _ (TrimSpace_dropCR _)).
  rewrite HS, (parseLine_canonical _ value _ _ Hwf Hv Ht). split; reflexivity.
Qed.

Lemma saveLine_updateEntry_no_LF (l value : string) :
  Key (parseLine l) <> EmptyString ->
  Contains l LF = false -> Contains value LF = false ->
  Contains (saveLine (updateEntry (parseLine l) value)) LF = false.
Proof.
  intros Hk Hl Hv.
  destruct (parseLine_shape l) as [Hflags Ht]. destruct (Hflags Hk) as [Hb Hc].
  rewrite (saveLine_updateEntry (parseLine l) value Hb Hc (parseLine_wfKey l Hk) Ht).
  destruct (parseLine_fields_no_LF l Hl) as (H1 & H2 & H3).
  unfold canonicalLine. rewrite !Contains_app, H1, H2, H3.
  rewrite (Contains_escapeQuotes value LF eq_refl), Hv. reflexivity.
Qed.

(** After [Set] on a loaded file and [Save], loading again and querying
    the key gives the value, whether the key was there or not. *)
Lemma set_round_trip (fs : filesystem) (path : string) (lines : list string)
      (key value : string) :
  fileLoads fs path lines ->
  wfKey key ->
  Contains key LF = false ->
  Contains value LF = false ->
  lastByte value <> Some backslash ->
  Forall (fun e => fits (saveLine e) = true)
         (Entries (Set_ (mkDictionary path (map parseLine lines)) key value)) ->
  exists fs' d2,
    Save (Set_ (mkDictionary path (map parseLine lines)) key value) path fs
    = (fs', None)
    /\ LoadDictionary path fs' = Ok d2
    /\ Query d2 key = Ok value.
Proof.
  intros Hfile Hk Hklf Hvlf Hv Hfits.
  destruct (fileLoads_LoadDictionary fs path lines Hfile) as (HLoad & HLF & Hcan).
  set (d := mkDictionary path (map parseLine lines)) in *.
  assert (HSave : Save (Set_ d key value) path fs
                  = (writeFile fs path (saveBytes (Set_ d key value)), None)).
  { unfold Save. rewrite Hcan. reflexivity. }
  exists (writeFile fs path (saveBytes (Set_ d key value))).
  assert (Hkne : ToLower key <> EmptyString).
  { intros E. apply ToLower_empty in E. destruct Hk as [Hk _]. congruence. }
  destruct (Set_cases d key value)
    as [(pre & e & post & E & Hpre & He & HE)|(Hall & HE)].
  - (* the key is there *)
    unfold d in E. cbn [Entries] in E.
    apply map_eq_app in E. destruct E as (l1 & lrest & El & Epre & Erest).
    apply map_eq_cons in Erest. destruct Erest as (l0 & l2 & Er & Ee & Epost).
    subst lines lrest pre e post.
    assert (Hk0 : Key (parseLine l0) <> EmptyString).
    { intros E0. unfold keyMatches in He. rewrite E0 in He.
      apply String.eqb_eq in He. apply Hkne. symmetry. exact He. }
    apply Forall_app in HLF. destruct HLF as [HLF1 HLF].
    inversion HLF as [|? ? HLF0 HLF2]; subst.
    set (saved := map saveLine (map parseLine l1)
                  ++ saveLine (updateEntry (parseLine l0) value)
                  :: map saveLine (map parseLine l2)).
    assert (Hb : saveBytes (Set_ d key value) = unlines saved).
    { unfold saveBytes. rewrite HE, map_app. reflexivity. }
    assert (Hscan : scanLines (unlines saved) = Some (map dropCR saved)).
    { apply scanLines_unlines_dropCR.
      - unfold saved. apply Forall_app. split.
        + rewrite map_map. apply Forall_map.
          eapply Forall_impl; [|exact HLF1]. apply saveLine_parseLine_no_LF.
        + constructor.
          * apply saveLine_updateEntry_no_LF; assumption.
          * rewrite map_map. apply Forall_map.
            eapply Forall_impl; [|exact HLF2]. apply saveLine_parseLine_no_LF.
      - rewrite HE in Hfits. unfold saved.
        rewrite <- (map_id (map saveLine (map parseLine l1)
                            ++ saveLine (updateEntry (parseLine l0) value)
                            :: map saveLine (map parseLine l2))).
        change (saveLine (updateEntry (parseLine l0) value)
                :: map saveLine (map parseLine l2))
          with (map saveLine (updateEntry (parseLine l0) value :: map parseLine l2)).
        rewrite <- map_app, map_id. apply Forall_map. exact Hfits. }
    exists (mkDictionary path (map parseLine (map dropCR saved))).
    split; [exact HSave|]. split.
    { unfold LoadDictionary. rewrite writeFile_same, Hb, Hscan. reflexivity. }
    destruct (updated_line_read_back l0 value Hk0 Hv) as [HK HV].
    unfold Query, findEntryCaseInsensitive, saved. cbn [Entries].
    rewrite !map_app. cbn [map].
    rewrite (find_app_first _ _ _
               (parseLine (dropCR (saveLine (updateEntry (parseLine l0) value))))).
    + rewrite HV. reflexivity.
    + rewrite !map_map. apply Forall_map. apply Forall_map in Hpre.
      eapply Forall_impl; [|exact Hpre].
      intros l Hl. unfold keyMatches in *. cbn beta.
      rewrite saved_key_stable. exact Hl.
    + unfold keyMatches in *. rewrite HK. exact He.
  - (* the key is new *)
    assert (Hnew : scannedAsIs (canonicalLine key value)).
    { apply canonicalLine_scannedAsIs; [assumption | assumption |].
      rewrite HE in Hfits. apply Forall_app in Hfits. destruct Hfits as [_ Hf].
      inversion Hf as [|? ? Hf0 _]; subst.
      rewrite (saveLine_newEntry key value Hk) in Hf0. exact Hf0. }
    destruct (add_round_trip fs path lines key value Hfile) as
        (d0 & d1 & fs' & d2 & H1 & H2 & H3 & H4 & H5 & H6); try assumption.
    + unfold d in Hall. cbn [Entries] in Hall. apply Forall_map in Hall. exact Hall.
    + rewrite HE in Hfits. apply Forall_app in Hfits. destruct Hfits as [Hf _].
      unfold d in Hf. cbn [Entries] in Hf. apply Forall_map in Hf. exact Hf.
    + exists d2. split; [exact HSave|].
      assert (Ed : d0 = d) by congruence. subst d0.
      assert (E1 : saveBytes d1 = saveBytes (Set_ d key value)).
      { unfold Add in H2. destruct (KeyExists d key); [discriminate|].
        inversion H2; subst. unfold saveBytes. rewrite HE. reflexivity. }
      assert (Efs : forall p, fs' p = writeFile fs path (saveBytes (Set_ d key value)) p).
      { intros p. unfold Save in H3. rewrite E1, Hcan in H3.
        inversion H3; subst; reflexivity. }
      split; [|exact H6].
      unfold LoadDictionary in *. rewrite <- Efs. exact H5.
Qed.

End SetRoundTrip.

(** * The argument KEY=VALUE *)

Section KeyValueFacts.

Lemma TrimSpace_quoted (s : string) :
  TrimSpace (Q ++ s ++ Q) = Q ++ s ++ Q.
Proof.
  unfold TrimSpace, Q. cbn [append].
  rewrite trimLeftSpace_ascii_nonspace by reflexivity.
  change (String dquote (s ++ String dquote EmptyString))
    with (String dquote s ++ String dquote EmptyString).
  apply trimRightSpace_app_fix; reflexivity.
Qed.

Lemma byteAtIs_last (a : string) (x : ascii) :
  byteAtIs (a ++ String x EmptyString)
           (String.length (a ++ String x EmptyString) - 1) x = true.
Proof.
  unfold byteAtIs. rewrite append_length. cbn [String.length].
  replace (String.length a + 1 - 1) with (String.length a) by lia.
  rewrite get_app_length. apply Ascii.eqb_refl.
Qed.

(** What [parseKeyValue] makes of the two parts of its argument. *)
Lemma parseKeyValue_Cut (kv before after : string) :
  Cut kv equals = Some (before, after) ->
  TrimSpace before <> EmptyString ->
  exists value, parseKeyValue kv = KeyValue (TrimSpace before) value
                /\ forall c, Contains after c = false -> Contains value c = false.
Proof.
  intros HC Hk. unfold parseKeyValue, SplitN2. rewrite HC.
  replace (isEmpty (TrimSpace before)) with false
    by (destruct (TrimSpace before); [congruence|reflexivity]).
  eexists. split; [reflexivity|].
  intros c Hc. apply (Contains_TrimSpace after c) in Hc.
  match goal with |- context [if ?b then _ else _] => destruct b end.
  - apply Contains_unescapeQuotes. apply Contains_substring. exact Hc.
  - exact Hc.
Qed.

(** A value between double quotes, with its quotes escaped, comes out of
    [parseKeyValue] as it was. *)
Lemma parseKeyValue_quoted (key value : string) :
  key <> EmptyString -> TrimSpace key = key -> Contains key equals = false ->
  parseKeyValue (key ++ "=" ++ Q ++ escapeQuotes value ++ Q) = KeyValue key value.
Proof.
  intros Hne Ht He. unfold parseKeyValue, SplitN2.
  change (key ++ "=" ++ Q ++ escapeQuotes value ++ Q)
    with (key ++ String equals (Q ++ escapeQuotes value ++ Q)).
  rewrite (Cut_app key _ equals He), Ht, TrimSpace_quoted.
  replace (isEmpty key) with false by (destruct key; [congruence|reflexivity]).
  assert (Hlen : Nat.leb 2 (String.length (Q ++ escapeQuotes value ++ Q)) = true)
    by (apply Nat.leb_le; rewrite !append_length; simpl; lia).
  assert (Hlast : byteAtIs (Q ++ escapeQuotes value ++ Q)
                           (String.length (Q ++ escapeQuotes value ++ Q) - 1)
                           dquote = true).
  { replace (Q ++ escapeQuotes value ++ Q)
      with ((Q ++ escapeQuotes value) ++ String dquote EmptyString)
      by (rewrite append_assoc; reflexivity).
    apply byteAtIs_last. }
  assert (Hslice : slice (Q ++ escapeQuotes value ++ Q) 1
                         (String.length (Q ++ escapeQuotes value ++ Q) - 1)
                   = escapeQuotes value).
  { replace (String.length (Q ++ escapeQuotes value ++ Q) - 1)
      with (String.length Q + String.length (escapeQuotes value))
      by (rewrite !append_length; simpl; lia).
    apply (slice_middle Q (escapeQuotes value) Q). }
  rewrite Hlen, Hlast, Hslice, unescape_escape. reflexivity.
Qed.

End KeyValueFacts.

(** * The search for the closing quote, in general *)

Section ClosingQuote.

Lemma findClosingQuoteLoop_Some (s : string) (n : nat) :
  forall i k,
    findClosingQuoteLoop s n i = Some k ->
    i <= k < i + n
    /\ byteAtIs s k dquote = true
    /\ escapedAt s k = false
    /\ forall j, i <= j < k -> byteAtIs s j dquote = true -> escapedAt s j = true.
Proof.
  unfold escapedAt.
  induction n as [|n IH]; intros i k H; [discriminate|].
  cbn [findClosingQuoteLoop] in H.
  destruct (byteAtIs s i dquote) eqn:Eq.
  - destruct (Nat.ltb 0 i && byteAtIs s (i - 1) backslash) eqn:Ee.
    + destruct (IH (S i) k H) as (Hr & Hq & He & Hf).
      split; [lia|]. split; [exact Hq|]. split; [exact He|].
      intros j Hj Hjq. destruct (Nat.eq_dec j i) as [->|Hne]; [exact Ee|].
      apply Hf; [lia | exact Hjq].
    + inversion H; subst. split; [lia|]. split; [exact Eq|]. split; [exact Ee|].
      intros j Hj. lia.
  - destruct (IH (S i) k H) as (Hr & Hq & He & Hf).
    split; [lia|]. split; [exact Hq|]. split; [exact He|].
    intros j Hj Hjq. destruct (Nat.eq_dec j i) as [->|Hne]; [congruence|].
    apply Hf; [lia | exact Hjq].
Qed.

Lemma findClosingQuoteLoop_None (s : string) (n : nat) :
  forall i,
    findClosingQuoteLoop s n i = None ->
    forall j, i <= j < i + n -> byteAtIs s j dquote = true -> escapedAt s j = true.
Proof.
  unfold escapedAt.
  induction n as [|n IH]; intros i H j Hj Hjq; [lia|].
  cbn [findClosingQuoteLoop] in H.
  destruct (byteAtIs s i dquote) eqn:Eq.
  - destruct (Nat.ltb 0 i && byteAtIs s (i - 1) backslash) eqn:Ee; [|discriminate].
    destruct (Nat.eq_dec j i) as [->|Hne]; [exact Ee|].
    apply (IH (S i) H); [lia | exact Hjq].
  - destruct (Nat.eq_dec j i) as [->|Hne]; [congruence|].
    apply (IH (S i) H); [lia | exact Hjq].
Qed.

Lemma byteAtIs_length (s : string) (k : nat) (c : ascii) :
  byteAtIs s k c = true -> k < String.length s.
Proof.
  unfold byteAtIs. revert k. induction s as [|x s IH]; intros k H.
  - destruct k; discriminate.
  - destruct k as [|k]; simpl; [lia|]. simpl in H. apply IH in H. lia.
Qed.

(** A backslash at the end of the value hides the closing quote. *)
Lemma scanQuote_hidden (v : string) :
  forall (prev : ascii) (i : nat),
    lastByte (String prev v) = Some backslash ->
    scanQuote prev (escapeQuotes v ++ Q) i = None.
Proof.
  unfold escapeQuotes, Q.
  induction v as [|c v IH]; intros prev i Hlast.
  - simpl in Hlast. inversion Hlast; subst. reflexivity.
  - change (lastByte (String prev (String c v))) with (lastByte (String c v))
      in Hlast.
    cbn [ReplaceAll_quote_escaped]. destruct (Ascii.eqb c dquote) eqn:E.
    + apply Ascii.eqb_eq in E. subst c.
      cbn [append scanQuote].
      change (Ascii.eqb backslash dquote) with false. cbv iota.
      rewrite !Ascii.eqb_refl. apply IH. exact Hlast.
    + cbn [append scanQuote]. rewrite E. apply IH. exact Hlast.
Qed.

Lemma findClosingQuote_hidden (v : string) :
  lastByte v = Some backslash ->
  findClosingQuote (Q ++ escapeQuotes v ++ Q) 1 = None.
Proof.
  intros H. unfold Q at 1. cbn [append]. rewrite findClosingQuote_scanQuote.
  apply scanQuote_hidden. destruct v; [discriminate | exact H].
Qed.

End ClosingQuote.

(** * How the operations of the dictionary compose *)

Section DictionaryFacts.

Context {T : CaseTables}.

Local Open Scope list_scope.

Lemma withEntries_Entries (d : Dictionary) : withEntries d (Entries d) = d.
Proof. destruct d. reflexivity. Qed.

Lemma keyedLower_app (a b : list Entry) :
  keyedLower (a ++ b) = keyedLower a ++ keyedLower b.
Proof. unfold keyedLower. rewrite filter_app, map_app. reflexivity. Qed.

Lemma keyedLower_cons_Key (e e' : Entry) (r : list Entry) :
  Key e' = Key e -> keyedLower (e' :: r) = keyedLower (e :: r).
Proof.
  intros H. unfold keyedLower. cbn [filter]. rewrite H.
  destruct (negb (isEmpty (Key e))); cbn [map]; [rewrite H|]; reflexivity.
Qed.

Lemma keyedLower_In (es : list Entry) (k : string) :
  In k (keyedLower es) ->
  exists e, In e es /\ Key e <> EmptyString /\ ToLower (Key e) = k.
Proof.
  unfold keyedLower. intros H. apply in_map_iff in H.
  destruct H as (e & He & Hin). apply filter_In in Hin. destruct Hin as [Hin Hne].
  exists e. split; [exact Hin|]. split; [|exact He].
  apply isEmpty_false. destruct (isEmpty (Key e)); [discriminate | reflexivity].
Qed.

Lemma removeFirst_Some (key : string) (es es' : list Entry) :
  removeFirst key es = Some es' ->
  exists pre e post,
    es = pre ++ e :: post
    /\ es' = pre ++ post
    /\ Forall (fun x => EqualFold (Key x) key = false) pre
    /\ EqualFold (Key e) key = true.
Proof.
  revert es'. induction es as [|x es IH]; intros es' H; [discriminate|].
  cbn [removeFirst] in H. destruct (EqualFold (Key x) key) eqn:Hx.
  - inversion H; subst. exists [], x, es'. auto.
  - destruct (removeFirst key es) as [r|] eqn:Hr; [|discriminate].
    inversion H; subst.
    destruct (IH r eq_refl) as (pre & e & post & -> & -> & Hpre & He).
    exists (x :: pre), e, post. auto.
Qed.

Lemma Add_Ok (d d1 : Dictionary) (key value : string) :
  Add d key value = Ok d1 ->
  Forall (fun x => keyMatches (ToLower key) x = false) (Entries d)
  /\ d1 = withEntries d (Entries d ++ [newEntry key value]).
Proof.
  unfold Add, KeyExists, findEntryCaseInsensitive.
  destruct (find (keyMatches (ToLower key)) (Entries d)) eqn:F; [discriminate|].
  intros H. inversion H. split; [|reflexivity].
  apply find_none_Forall. exact F.
Qed.

(** The lookup of another key does not see an entry that is added,
    updated or taken away. *)
Lemma find_skip (k : string) (pre post : list Entry) (e : Entry) :
  keyMatches k e = false ->
  find (keyMatches k) (pre ++ e :: post) = find (keyMatches k) (pre ++ post).
Proof.
  intros He. induction pre as [|x pre IH]; cbn [app find].
  - rewrite He. reflexivity.
  - destruct (keyMatches k x); [reflexivity | exact IH].
Qed.

Lemma keyMatches_other (key key' : string) (e : Entry) :
  keyEq key key' = false ->
  keyMatches (ToLower key) e = true ->
  keyMatches (ToLower key') e = false.
Proof.
  unfold keyEq, keyMatches. intros Hne He.
  apply String.eqb_eq in He. rewrite He. exact Hne.
Qed.

Lemma Query_Set_other (d : Dictionary) (key value key' : string) :
  keyEq key key' = false ->
  Query (Set_ d key value) key' = Query d key'.
Proof.
  intros Hne. unfold Query, findEntryCaseInsensitive.
  destruct (Set_cases d key value)
    as [(pre & e & post & E & Hpre & He & ->)|(Hall & ->)].
  - rewrite E.
    rewrite (find_skip _ pre post (updateEntry e value)).
    + rewrite (find_skip _ pre post e); [reflexivity|].
      exact (keyMatches_other key key' e Hne He).
    + exact (keyMatches_other key key' e Hne He).
  - replace (Entries d ++ [newEntry key value])
      with (Entries d ++ newEntry key value :: []) by reflexivity.
    rewrite find_skip; [rewrite app_nil_r; reflexivity|].
    exact Hne.
Qed.

Lemma Query_Add_other (d d1 : Dictionary) (key value key' : string) :
  Add d key value = Ok d1 ->
  keyEq key key' = false ->
  Query d1 key' = Query d key'.
Proof.
  intros HA Hne. apply Add_Ok in HA. destruct HA as [_ ->].
  unfold Query, findEntryCaseInsensitive. cbn [Entries withEntries].
  replace (Entries d ++ [newEntry key value])
    with (Entries d ++ newEntry key value :: []) by reflexivity.
  rewrite find_skip; [rewrite app_nil_r; reflexivity|].
  exact Hne.
Qed.

Lemma Remove_Add (d d1 : Dictionary) (key value : string) :
  Add d key value = Ok d1 ->
  Forall (fun e => EqualFold (Key e) key = false) (Entries d) ->
  EqualFold key key = true ->
  Remove d1 key = Ok d.
Proof.
  intros HA Hall Hrefl. apply Add_Ok in HA. destruct HA as [_ ->].
  unfold Remove. cbn [Entries withEntries].
  replace (Entries d ++ [newEntry key value])
    with (Entries d ++ newEntry key value :: []) by reflexivity.
  rewrite (removeFirst_app_first key (Entries d) [] (newEntry key value) Hall Hrefl).
  rewrite app_nil_r. destruct d. reflexivity.
Qed.

Lemma uniqueKeys_Add (d d1 : Dictionary) (key value : string) :
  uniqueKeys d -> Add d key value = Ok d1 -> uniqueKeys d1.
Proof.
  unfold uniqueKeys. intros Hu HA. apply Add_Ok in HA. destruct HA as [Hall ->].
  cbn [Entries withEntries]. rewrite keyedLower_app.
  apply NoDup_app; [exact Hu | |].
  - unfold keyedLower. cbn [filter Key newEntry].
    destruct (negb (isEmpty key)); cbn [map]; repeat constructor; intros [].
  - intros k Hin Hin2.
    apply keyedLower_In in Hin. destruct Hin as (e & He & _ & Hk).
    apply keyedLower_In in Hin2. destruct Hin2 as (e2 & [<-|[]] & _ & Hk2).
    cbn [Key newEntry] in Hk2.
    rewrite Forall_forall in Hall. specialize (Hall e He).
    unfold keyMatches in Hall. rewrite Hk, <- Hk2, String.eqb_refl in Hall.
    discriminate.
Qed.

Lemma uniqueKeys_Set (d : Dictionary) (key value : string) :
  uniqueKeys d -> uniqueKeys (Set_ d key value).
Proof.
  unfold uniqueKeys. intros Hu.
  destruct (Set_cases d key value)
    as [(pre & e & post & E & Hpre & He & ->)|(Hall & ->)].
  - rewrite E in Hu. rewrite keyedLower_app in *.
    rewrite (keyedLower_cons_Key e (updateEntry e value) post eq_refl).
    exact Hu.
  - rewrite keyedLower_app.
    apply NoDup_app; [exact Hu | |].
    + unfold keyedLower. cbn [filter Key newEntry].
      destruct (negb (isEmpty key)); cbn [map]; repeat constructor; intros [].
    + intros k Hin Hin2.
      apply keyedLower_In in Hin. destruct Hin as (e & He & _ & Hk).
      apply keyedLower_In in Hin2. destruct Hin2 as (e2 & [<-|[]] & _ & Hk2).
      cbn [Key newEntry] in Hk2.
      rewrite Forall_forall in Hall. specialize (Hall e He).
      unfold keyMatches in Hall. rewrite Hk, <- Hk2, String.eqb_refl in Hall.
      discriminate.
Qed.

Lemma uniqueKeys_Remove (d d1 : Dictionary) (key : string) :
  uniqueKeys d -> Remove d key = Ok d1 -> uniqueKeys d1.
Proof.
  unfold uniqueKeys, Remove. intros Hu HR.
  destruct (removeFirst key (Entries d)) as [es|] eqn:F; [|discriminate].
  inversion HR; subst. cbn [Entries withEntries].
  destruct (removeFirst_Some _ _ _ F) as (pre & e & post & E & -> & _ & _).
  rewrite E in Hu. rewrite keyedLower_app in *.
  change (e :: post) with ([e] ++ post) in Hu. rewrite keyedLower_app in Hu.
  unfold keyedLower at 2 in Hu. cbn [filter] in Hu.
  destruct (negb (isEmpty (Key e))); cbn [map app] in Hu.
  - eapply NoDup_remove_1. exact Hu.
  - exact Hu.
Qed.

End DictionaryFacts.

(** * What [Save] writes is written again as it is *)

Section NormalForm.

Lemma TrimRight_idem (p : ascii -> bool) (s : string) :
  TrimRight (TrimRight s p) p = TrimRight s p.
Proof.
  induction s as [|c r IH]; [reflexivity|].
  cbn [TrimRight]. destruct (allBytes p (String c r)) eqn:E; [reflexivity|].
  cbn [TrimRight]. rewrite IH.
  destruct (allBytes p (String c (TrimRight r p))) eqn:E'; [|reflexivity].
  destruct (TrimRight_decompose p r) as (w & Hw & Hs).
  assert (allBytes p (String c r) = true).
  { rewrite Hw. change (String c (TrimRight r p ++ w))
      with (String c (TrimRight r p) ++ w).
    rewrite allBytes_app, E', Hs. reflexivity. }
  congruence.
Qed.

Lemma dropCR_trimRightSpace_fix (s : string) :
  trimRightSpace s = s -> dropCR s = s.
Proof.
  intros H. destruct (dropCR_cases s) as [E|E]; [exact E|].
  exfalso.
  assert (HR : trimRightSpace s = trimRightSpace (dropCR s)).
  { rewrite E at 1.
    rewrite (trimRightSpace_app_ascii CR EmptyString (dropCR s) eq_refl).
    reflexivity. }
  pose proof (trimRightSpace_length (dropCR s)) as HL.
  rewrite <- HR, H in HL. rewrite E in HL at 1.
  rewrite append_length in HL. cbn [String.length] in HL. lia.
Qed.

Lemma trimRightSpace_quoted_tail (value gap cmt : string) :
  inlineTail gap cmt ->
  trimRightSpace (Q ++ escapeQuotes value ++ Q ++ gap ++ cmt)
  = Q ++ escapeQuotes value ++ Q ++ gap ++ cmt.
Proof.
  intros Ht.
  replace (Q ++ escapeQuotes value ++ Q ++ gap ++ cmt)
    with ((Q ++ escapeQuotes value) ++ String dquote (gap ++ cmt))
    by (rewrite append_assoc; reflexivity).
  apply trimRightSpace_app_fix; [reflexivity|].
  apply trimRightSpace_quote_tail; exact Ht.
Qed.

(** A line that [Save] writes for an assignment is read back with the
    same fields: the key part may start with white space. *)
Lemma parseLine_written (keyPart value gap cmt : string) :
  Contains keyPart equals = false ->
  TrimSpace keyPart <> EmptyString ->
  HasPrefix (trimLeftSpace keyPart) "#" = false ->
  lastByte value <> Some backslash ->
  inlineTail gap cmt ->
  parseLine (keyPart ++ " = " ++ Q ++ escapeQuotes value ++ Q ++ gap ++ cmt)
  = mkEntry (keyPart ++ " = " ++ Q ++ escapeQuotes value ++ Q ++ gap ++ cmt)
            (TrimSpace keyPart) value cmt gap false false.
Proof.
  intros Hkeq Hk Hh Hv Ht.
  pose proof (trimRightSpace_quoted_tail value gap cmt Ht) as Hrest.
  set (rest := Q ++ escapeQuotes value ++ Q ++ gap ++ cmt) in *.
  assert (Hna : allSpace keyPart = false).
  { apply TrimSpace_nonempty_not_allSpace. exact Hk. }
  assert (Hne : trimLeftSpace keyPart <> EmptyString).
  { apply allSpace_false. exact Hna. }
  pose proof (Cut_canonical keyPart rest Hkeq) as HC.
  assert (Hh' : HasPrefix (TrimSpace (keyPart ++ " = " ++ rest)) "#" = false).
  { rewrite (TrimSpace_Cut _ _ _ HC).
    rewrite (trimLeftSpace_app_ascii " "%char EmptyString keyPart eq_refl), Hna.
    rewrite !append_assoc.
    rewrite (HasPrefix_app_nonempty _ _ "#"%char Hne). exact Hh. }
  rewrite (parseLine_Cut _ _ _ HC Hh').
  assert (HR : trimRightSpace (" " ++ rest) = " " ++ rest).
  { unfold rest, Q. cbn [append].
    change (String " " (String dquote (escapeQuotes value ++ String dquote (gap ++ cmt))))
      with (" " ++ String dquote (escapeQuotes value ++ String dquote (gap ++ cmt))).
    apply trimRightSpace_app_fix; [reflexivity|]. exact Hrest. }
  assert (Tval : TrimSpace (trimRightSpace (" " ++ rest)) = rest).
  { rewrite HR. unfold TrimSpace.
    change (trimLeftSpace (" " ++ rest)) with (trimLeftSpace rest).
    unfold rest at 1, Q at 1. cbn [append].
    rewrite trimLeftSpace_ascii_nonspace by reflexivity. exact Hrest. }
  rewrite Tval. unfold rest. rewrite (parseValue_quoted value gap cmt Hv Ht).
  rewrite (TrimSpace_snoc_space keyPart " "%char eq_refl). reflexivity.
Qed.

Lemma inlineSuffix_inlineTail (l key value cmt gap : string) :
  inlineTail gap cmt ->
  inlineSuffix (mkEntry l key value cmt gap false false) = gap ++ cmt.
Proof.
  intros Ht. unfold inlineSuffix. cbn [InlineComment InlineCommentSpace].
  destruct Ht; reflexivity.
Qed.

(** The line [Save] writes for a line of a file is written as it is the
    next time, when the value that was read does not end in a
    backslash. *)
Lemma saved_line_fixed (l : string) :
  dropCR l = l ->
  lastByte (Value (parseLine l)) <> Some backslash ->
  dropCR (saveLine (parseLine l)) = saveLine (parseLine l)
  /\ saveLine (parseLine (saveLine (parseLine l))) = saveLine (parseLine l).
Proof.
  intros Hcr Hv.
  destruct (Key (parseLine l)) as [|k0 k] eqn:EK.
  { destruct (saveLine_no_key (parseLine l) EK) as [E|E]; rewrite E.
    - split; reflexivity.
    - rewrite parseLine_Original. split; [exact Hcr|].
      rewrite E, parseLine_Original. reflexivity. }
  destruct (Cut l equals) as [[pre post]|] eqn:HC.
  2:{ apply Cut_None in HC.
      destruct (parseLine_no_key l (or_introl HC)) as [E _]. congruence. }
  destruct (HasPrefix (TrimSpace l) "#") eqn:Hh.
  { destruct (parseLine_no_key l (or_intror Hh)) as [E _]. congruence. }
  pose proof (parseLine_Cut l pre post HC Hh) as HP.
  pose proof (parseValue_inlineTail (TrimSpace (trimRightSpace post))
                (TrimSpace_trimRightSpace_fix _)) as Ht.
  destruct (parseValue (TrimSpace (trimRightSpace post))) as [[v c] g].
  rewrite HP in *. cbn [Key Value] in *.
  assert (Hk : TrimSpace pre <> EmptyString) by congruence.
  rewrite (saveLine_assignment l pre post _ v c g HC Hk).
  rewrite (inlineSuffix_inlineTail l _ v c g Ht).
  destruct (TrimRight_spaces pre) as (w & Hw & Hsp).
  remember (TrimRight pre spaceOrTab) as keyPart eqn:Ekp.
  assert (HTk : TrimSpace keyPart = TrimSpace pre).
  { rewrite Hw. symmetry. apply TrimSpace_app_spaces. exact Hsp. }
  assert (Hna : allSpace keyPart = false).
  { apply TrimSpace_nonempty_not_allSpace. rewrite HTk. exact Hk. }
  assert (Hne : trimLeftSpace keyPart <> EmptyString).
  { apply allSpace_false. exact Hna. }
  assert (Hpre : Contains pre equals = false).
  { apply Cut_Some in HC. tauto. }
  assert (Hkeq : Contains keyPart equals = false).
  { rewrite Hw in Hpre. exact (Contains_prefix_false _ _ _ Hpre). }
  assert (Hkh : HasPrefix (trimLeftSpace keyPart) "#" = false).
  { rewrite (TrimSpace_Cut l pre post HC) in Hh.
    rewrite Hw, (trimLeftSpace_app_spaces keyPart w Hna Hsp) in Hh.
    rewrite !append_assoc in Hh.
    rewrite (HasPrefix_app_nonempty _ _ "#"%char Hne) in Hh. exact Hh. }
  assert (Hk' : TrimSpace keyPart <> EmptyString) by (rewrite HTk; exact Hk).
  pose proof (trimRightSpace_quoted_tail v g c Ht) as Hrest.
  split.
  - apply dropCR_trimRightSpace_fix.
    replace (keyPart ++ " = " ++ Q ++ escapeQuotes v ++ Q ++ g ++ c)
      with ((keyPart ++ " = ") ++ String dquote (escapeQuotes v ++ Q ++ g ++ c))
      by (rewrite append_assoc; reflexivity).
    apply trimRightSpace_app_fix; [reflexivity|]. exact Hrest.
  - rewrite (parseLine_written keyPart v g c Hkeq Hk' Hkh Hv Ht).
    pose proof (Cut_canonical keyPart (Q ++ escapeQuotes v ++ Q ++ g ++ c) Hkeq)
      as HC'.
    rewrite (saveLine_assignment _ _ _ _ v c g HC' Hk').
    rewrite (inlineSuffix_inlineTail _ _ v c g Ht).
    rewrite (TrimRight_app_cut spaceOrTab keyPart " " eq_refl).
    rewrite Ekp, TrimRight_idem. reflexivity.
Qed.

End NormalForm.

(** * Lines as [Save] writes them, read back *)

Section WrittenLines.

Local Open Scope list_scope.



End WrittenLines.

(** * The argument KEY=VALUE *)

Section KeyValueFacts2.

Lemma parseKeyValue_KeyValue (kv key value : string) :
  parseKeyValue kv = KeyValue key value ->
  exists before after,
    Cut kv equals = Some (before, after)
    /\ key = TrimSpace before
    /\ key <> EmptyString
    /\ forall c, Contains after c = false -> Contains value c = false.
Proof.
  intros H. destruct (Cut kv equals) as [[before after]|] eqn:HC.
  - destruct (TrimSpace before) as [|k0 k] eqn:EK.
    + unfold parseKeyValue, SplitN2 in H. rewrite HC, EK in H. discriminate.
    + assert (Hk : TrimSpace before <> EmptyString) by (rewrite EK; discriminate).
      destruct (parseKeyValue_Cut kv before after HC Hk) as (v & Hp & Hc).
      rewrite Hp in H. inversion H; subst.
      exists before, after. auto.
  - unfold parseKeyValue, SplitN2 in H. rewrite HC in H. discriminate.
Qed.

Lemma parseKeyValue_wfKey (kv key value : string) :
  parseKeyValue kv = KeyValue key value ->
  key <> EmptyString /\ TrimSpace key = key /\ Contains key equals = false.
Proof.
  intros H. destruct (parseKeyValue_KeyValue kv key value H)
    as (before & after & HC & -> & Hne & _).
  split; [exact Hne|]. split; [apply TrimSpace_idem|].
  apply Contains_TrimSpace. apply Cut_Some in HC. tauto.
Qed.

Lemma parseKeyValue_no_byte (kv key value : string) (c : ascii) :
  parseKeyValue kv = KeyValue key value ->
  Contains kv c = false ->
  Contains key c = false /\ Contains value c = false.
Proof.
  intros H Hc. destruct (parseKeyValue_KeyValue kv key value H)
    as (before & after & HC & -> & Hne & Hv).
  apply Cut_Some in HC. destruct HC as [-> _].
  rewrite Contains_app in Hc. apply orb_false_iff in Hc. destruct Hc as [Hb Ha].
  rewrite Contains_cons in Ha. apply orb_false_iff in Ha. destruct Ha as [_ Ha].
  split; [apply Contains_TrimSpace; exact Hb | apply Hv; exact Ha].
Qed.

Lemma parseKeyValue_errors (kv : string) :
  (parseKeyValue kv = KVError InvalidFormat <-> Contains kv equals = false)
  /\ (parseKeyValue kv = KVError EmptyKey
      <-> exists before after,
          Cut kv equals = Some (before, after)
          /\ TrimSpace before = EmptyString).
Proof.
  destruct (Cut kv equals) as [[before after]|] eqn:HC.
  - assert (Hcont : Contains kv equals = true).
    { destruct (Contains kv equals) eqn:E; [reflexivity|].
      apply Cut_None in E. congruence. }
    destruct (TrimSpace before) as [|k0 k] eqn:EK.
    + assert (Hp : parseKeyValue kv = KVError EmptyKey).
      { unfold parseKeyValue, SplitN2. rewrite HC, EK. reflexivity. }
      rewrite Hp, Hcont. split; split; try discriminate; intros _.
      * exists before, after. auto.
      * reflexivity.
    + assert (Hk : TrimSpace before <> EmptyString) by (rewrite EK; discriminate).
      destruct (parseKeyValue_Cut kv before after HC Hk) as (v & Hp & _).
      rewrite Hp, Hcont. split; split; try discriminate.
      intros (b & a & Hba & Hb). inversion Hba; subst. congruence.
  - assert (Hcont : Contains kv equals = false) by (apply Cut_None; exact HC).
    assert (Hp : parseKeyValue kv = KVError InvalidFormat).
    { unfold parseKeyValue, SplitN2. rewrite HC. reflexivity. }
    rewrite Hp, Hcont. split; split; try discriminate; try reflexivity.
    intros (b & a & Hba & _). discriminate.
Qed.

Lemma parseKeyValue_canonical (key value : string) :
  key <> EmptyString -> TrimSpace key = key -> Contains key equals = false ->
  parseKeyValue (canonicalLine key value) = KeyValue key value.
Proof.
  intros Hne Htrim Heq.
  unfold parseKeyValue, SplitN2, canonicalLine.
  rewrite (Cut_canonical key _ Heq).
  rewrite (TrimSpace_key_space key Hne Htrim).
  assert (Tval : TrimSpace (" " ++ Q ++ escapeQuotes value ++ Q)
                 = Q ++ escapeQuotes value ++ Q).
  { unfold TrimSpace.
    change (trimLeftSpace (" " ++ Q ++ escapeQuotes value ++ Q))
      with (trimLeftSpace (Q ++ escapeQuotes value ++ Q)).
    fold (TrimSpace (Q ++ escapeQuotes value ++ Q)).
    apply TrimSpace_quoted. }
  rewrite Tval.
  pose proof (parseKeyValue_quoted key value Hne Htrim Heq) as H.
  unfold parseKeyValue, SplitN2 in H.
  change (key ++ "=" ++ Q ++ escapeQuotes value ++ Q)
    with (key ++ String equals (Q ++ escapeQuotes value ++ Q)) in H.
  rewrite (Cut_app key _ equals Heq) in H.
  rewrite Htrim, TrimSpace_quoted in H.
  exact H.
Qed.

End KeyValueFacts2.

(** * Removing a key and saving; saving twice *)

Section FileRoundTrips.

Context {T : CaseTables}.

Local Open Scope list_scope.

Lemma Save_writes (d : Dictionary) (path : string) (fs : filesystem) :
  canCreate fs path = true ->
  Save d path fs = (writeFile fs path (saveBytes d), None).
Proof. intros H. unfold Save. rewrite H. reflexivity. Qed.

Lemma Save_fails (d : Dictionary) (path : string) (fs : filesystem) :
  canCreate fs path = false -> Save d path fs = (fs, Some PathError).
Proof. intros H. unfold Save. rewrite H. reflexivity. Qed.

Lemma canCreate_writeFile (fs : filesystem) (path data : string) :
  canCreate (writeFile fs path data) path = true.
Proof. unfold canCreate. rewrite writeFile_same. reflexivity. Qed.

Lemma writeFile_other (fs : filesystem) (path data p : string) :
  p <> path -> writeFile fs path data p = fs p.
Proof.
  intros H. unfold writeFile. apply String.eqb_neq in H. rewrite H. reflexivity.
Qed.

(** What is loaded from the file that [Save] wrote for the lines of a
    file. *)
Lemma load_saved (fs : filesystem) (path : string) (lines : list string) :
  Forall (fun l => Contains l LF = false) lines ->
  Forall (fun l => fits (saveLine (parseLine l)) = true) lines ->
  LoadDictionary path
    (writeFile fs path (saveBytes (mkDictionary path (map parseLine lines))))
  = Ok (mkDictionary path
          (map (fun l => parseLine (dropCR (saveLine (parseLine l)))) lines)).
Proof.
  intros HLF Hfits. unfold LoadDictionary, saveBytes. cbn [Entries].
  rewrite writeFile_same.
  rewrite scanLines_unlines_dropCR.
  - rewrite !map_map. reflexivity.
  - rewrite map_map. apply Forall_map.
    eapply Forall_impl; [|exact HLF]. apply saveLine_parseLine_no_LF.
  - rewrite map_map. apply Forall_map. exact Hfits.
Qed.

Lemma remove_round_trip (fs : filesystem) (path : string)
      (l1 : list string) (l0 : string) (l2 : list string) (key : string) :
  fileLoads fs path (l1 ++ l0 :: l2) ->
  Forall (fun l => EqualFold (Key (parseLine l)) key = false
                   /\ keyEq (Key (parseLine l)) key = false) l1 ->
  EqualFold (Key (parseLine l0)) key = true ->
  Forall (fun l => keyEq (Key (parseLine l)) key = false) l2 ->
  Forall (fun l => fits (saveLine (parseLine l)) = true) (l1 ++ l2) ->
  exists fs' d2,
    LoadDictionary path fs = Ok (mkDictionary path (map parseLine (l1 ++ l0 :: l2)))
    /\ Remove (mkDictionary path (map parseLine (l1 ++ l0 :: l2))) key
       = Ok (mkDictionary path (map parseLine (l1 ++ l2)))
    /\ Save (mkDictionary path (map parseLine (l1 ++ l2))) path fs = (fs', None)
    /\ fs' path = Regular (unlines (map saveLine (map parseLine (l1 ++ l2))))
    /\ LoadDictionary path fs' = Ok d2
    /\ List.length (Entries d2) = List.length l1 + List.length l2
    /\ Query d2 key = Err (KeyNotFoundError key).
Proof.
  intros Hfile H1 H0 H2 Hfits.
  destruct (fileLoads_LoadDictionary fs path _ Hfile) as (HLoad & HLF & Hcan).
  assert (HLF' : Forall (fun l => Contains l LF = false) (l1 ++ l2)).
  { apply Forall_app in HLF. destruct HLF as [Ha Hb].
    inversion Hb; subst. apply Forall_app. split; assumption. }
  exists (writeFile fs path
            (saveBytes (mkDictionary path (map parseLine (l1 ++ l2))))).
  eexists.
  split; [exact HLoad|]. split.
  { unfold Remove. cbn [Entries]. rewrite !map_app. cbn [map].
    rewrite (removeFirst_app_first key (map parseLine l1) (map parseLine l2)
               (parseLine l0)).
    - reflexivity.
    - apply Forall_map. eapply Forall_impl; [|exact H1]. intros l [Hl _]. exact Hl.
    - exact H0. }
  split; [apply Save_writes; exact Hcan|].
  split; [rewrite writeFile_same; reflexivity|].
  split; [apply load_saved; assumption|].
  cbn [Entries]. split.
  { rewrite length_map, length_app. reflexivity. }
  unfold Query, findEntryCaseInsensitive. cbn [Entries].
  rewrite find_none; [reflexivity|].
  apply Forall_map. apply Forall_app. split.
  - eapply Forall_impl; [|exact H1]. intros l [_ Hl].
    unfold keyMatches. rewrite saved_key_stable. exact Hl.
  - eapply Forall_impl; [|exact H2]. intros l Hl.
    unfold keyMatches. rewrite saved_key_stable. exact Hl.
Qed.

(** Saving what was loaded from a saved file writes the same bytes. *)
Lemma save_normal_form (fs : filesystem) (path : string) (lines : list string) :
  fileLoads fs path lines ->
  Forall (fun l => dropCR l = l) lines ->
  Forall (fun l => lastByte (Value (parseLine l)) <> Some backslash) lines ->
  Forall (fun l => fits (saveLine (parseLine l)) = true) lines ->
  exists d fs1 d1 fs2,
    LoadDictionary path fs = Ok d
    /\ Save d path fs = (fs1, None)
    /\ LoadDictionary path fs1 = Ok d1
    /\ Save d1 path fs1 = (fs2, None)
    /\ fs2 path = fs1 path
    /\ saveBytes d1 = saveBytes d.
Proof.
  intros Hfile Hcr Hv Hfits.
  destruct (fileLoads_LoadDictionary fs path _ Hfile) as (HLoad & HLF & Hcan).
  set (d := mkDictionary path (map parseLine lines)) in *.
  set (fs1 := writeFile fs path (saveBytes d)).
  set (d1 := mkDictionary path
               (map (fun l => parseLine (dropCR (saveLine (parseLine l)))) lines)).
  assert (Hb : saveBytes d1 = saveBytes d).
  { unfold saveBytes, d1, d. cbn [Entries]. f_equal. rewrite !map_map.
    apply map_ext_in. intros l Hin.
    rewrite Forall_forall in Hcr, Hv.
    destruct (saved_line_fixed l (Hcr l Hin) (Hv l Hin)) as [E1 E2].
    rewrite E1. exact E2. }
  exists d, fs1, d1, (writeFile fs1 path (saveBytes d1)).
  split; [exact HLoad|].
  split; [apply Save_writes; exact Hcan|].
  split; [apply load_saved; assumption|].
  split.
  { apply Save_writes. unfold fs1. apply canCreate_writeFile. }
  split; [|exact Hb].
  unfold fs1. rewrite !writeFile_same, Hb. reflexivity.
Qed.

End FileRoundTrips.

(** * The command line *)

Section RunFacts.

Context {T : CaseTables}.

Local Open Scope list_scope.

Lemma Query_keyEq (d : Dictionary) (key key' : string) (value : string) :
  keyEq key' key = true -> Query d key = Ok value -> Query d key' = Ok value.
Proof.
  unfold keyEq, Query, findEntryCaseInsensitive. intros H.
  apply String.eqb_eq in H. rewrite H.
  destruct (find (keyMatches (ToLower key)) (Entries d)); [auto | discriminate].
Qed.

Lemma Add_Ok_KeyExists (d d1 : Dictionary) (key value : string) :
  Add d key value = Ok d1 -> KeyExists d key = false.
Proof. unfold Add. destruct (KeyExists d key); [discriminate | reflexivity]. Qed.

(** A dictionary that [LoadDictionary] returns is made of the lines of
    the scanner, or of none. *)
Lemma LoadDictionary_lines (filename : string) (fs : filesystem)
      (d : Dictionary) :
  LoadDictionary filename fs = Ok d ->
  exists lines,
    d = mkDictionary filename (map parseLine lines)
    /\ Forall (fun l => Contains l LF = false) lines.
Proof.
  unfold LoadDictionary.
  destruct (fs filename) as [| | |data|data]; try discriminate.
  1, 2: intros H; inversion H; exists []; split; [reflexivity | constructor].
  all: destruct (scanLines data) as [lines|] eqn:Hs; [|discriminate].
  all: intros H; inversion H; exists lines; split;
    [reflexivity | exact (scanLines_no_LF data lines Hs)].
Qed.

Lemma Save_other (d : Dictionary) (path : string) (fs fs' : filesystem)
      (err : option error) (p : string) :
  Save d path fs = (fs', err) -> p <> path -> fs' p = fs p.
Proof.
  unfold Save. intros H Hp.
  destruct (canCreate fs path); inversion H; subst; try reflexivity;
    apply writeFile_other; exact Hp.
Qed.

(** A file that does not exist is loaded as an empty file is. *)
Lemma LoadDictionary_Absent (fs : filesystem) (path : string) :
  fs path = Absent ->
  LoadDictionary path fs = Ok (mkDictionary path [])
  /\ LoadDictionary path (writeFile fs path EmptyString)
     = Ok (mkDictionary path []).
Proof.
  intros H. unfold LoadDictionary. rewrite H, writeFile_same. split; reflexivity.
Qed.

Lemma map_printLine_preserved (lines : list string) :
  Forall preservedLine lines ->
  map printLine (map parseLine lines) = lines.
Proof.
  induction 1 as [|l ls Hl _ IH]; [reflexivity|].
  cbn [map]. rewrite IH. destruct (preservedLine_fix l Hl) as [_ E].
  rewrite E. reflexivity.
Qed.

(** [Print] and [Save] write the same line for an entry, but for the text
    before the equals sign: [Save] keeps the key part of the line with
    the white space before it, [Print] writes the key. *)
Lemma printLine_saveLine (l : string) :
  (Key (parseLine l) = EmptyString ->
   printLine (parseLine l) = saveLine (parseLine l))
  /\ (Key (parseLine l) <> EmptyString ->
      exists pre post tail,
        Cut l equals = Some (pre, post)
        /\ Key (parseLine l) = TrimSpace pre
        /\ saveLine (parseLine l) = (TrimRight pre spaceOrTab ++ tail)%string
        /\ printLine (parseLine l) = (TrimSpace pre ++ tail)%string).
Proof.
  split.
  - intros EK. unfold printLine, saveLine. rewrite EK. reflexivity.
  - intros Hk.
    destruct (Cut l equals) as [[pre post]|] eqn:HC.
    2:{ apply Cut_None in HC.
        destruct (parseLine_no_key l (or_introl HC)) as [E _]. congruence. }
    destruct (HasPrefix (TrimSpace l) "#") eqn:Hh.
    { destruct (parseLine_no_key l (or_intror Hh)) as [E _]. congruence. }
    pose proof (parseLine_Cut l pre post HC Hh) as HP.
    destruct (parseValue (TrimSpace (trimRightSpace post))) as [[v c] g].
    rewrite HP in *. cbn [Key] in *.
    exists pre, post,
      (" = " ++ Q ++ escapeQuotes v ++ Q
       ++ inlineSuffix (mkEntry l (TrimSpace pre) v c g false false))%string.
    split; [reflexivity|]. split; [reflexivity|]. split.
    + apply (saveLine_assignment l pre post _ v c g HC Hk).
    + unfold printLine, inlineSuffix.
      cbn [IsBlank IsComment Key Value InlineComment InlineCommentSpace].
      replace (isEmpty (TrimSpace pre)) with false
        by (symmetry; apply isEmpty_false; exact Hk).
      cbn [negb]. destruct (negb (isEmpty c)).
      * rewrite ?append_assoc. reflexivity.
      * rewrite ?append_assoc, ?append_nil_r. reflexivity.
Qed.

End RunFacts.

(** * Runes and white space *)

Section RuneFacts.

Local Open Scope list_scope.

Lemma byteIs_eq (n : N) (c : ascii) : byteIs n c = true -> c = ascii_of_N n.
Proof.
  unfold byteIs. intros H. apply N.eqb_eq in H. rewrite <- H.
  symmetry. apply ascii_N_embedding.
Qed.

Lemma decoderune_ascii (c : ascii) (r : string) :
  isASCIIByte c = true -> decoderune (String c r) = (N_of_ascii c, 1).
Proof.
  unfold isASCIIByte, decoderune. intros H. rewrite H. reflexivity.
Qed.

Lemma asciiSpace_IsSpace (c : ascii) :
  asciiSpace c = true -> IsSpace (N_of_ascii c) = true.
Proof.
  destruct c as [[] [] [] [] [] [] [] []]; intros H;
    first [discriminate H | reflexivity].
Qed.

Lemma asciiSpace_rune (c : ascii) (r : string) :
  asciiSpace c = true -> IsSpace (fst (decoderune (String c r))) = true.
Proof.
  intros H. rewrite (decoderune_ascii c r (asciiSpace_ascii c H)).
  apply asciiSpace_IsSpace. exact H.
Qed.

Lemma space2_rune (c d : ascii) (r : string) :
  space2 c d = true ->
  IsSpace (fst (decoderune (String c (String d r)))) = true.
Proof.
  unfold space2. intros H. apply andb_true_iff in H. destruct H as [Hc Hd].
  apply byteIs_eq in Hc. subst c.
  apply orb_true_iff in Hd. destruct Hd as [Hd|Hd];
    apply byteIs_eq in Hd; subst d; reflexivity.
Qed.

Lemma space3_rune (c d e : ascii) (r : string) :
  space3 c d e = true ->
  IsSpace (fst (decoderune (String c (String d (String e r))))) = true.
Proof.
  unfold space3. intros H.
  repeat (apply orb_true_iff in H; destruct H as [H|H]);
    apply andb_true_iff in H; destruct H as [H He];
    apply andb_true_iff in H; destruct H as [Hc Hd];
    apply byteIs_eq in Hc; apply byteIs_eq in Hd; subst c d;
    destruct e as [[] [] [] [] [] [] [] []];
    first [discriminate He | reflexivity].
Qed.

(** A rune that is no white space stops [trimLeftSpace]. *)
Lemma rune_not_space_trimLeftSpace (c : ascii) (r : string) :
  IsSpace (fst (decoderune (String c r))) = false ->
  trimLeftSpace (String c r) = String c r.
Proof.
  intros H. cbn [trimLeftSpace].
  destruct (asciiSpace c) eqn:Ea.
  { rewrite (asciiSpace_rune c r Ea) in H. discriminate. }
  destruct r as [|d r2]; [reflexivity|].
  destruct (space2 c d) eqn:E2.
  { rewrite (space2_rune c d r2 E2) in H. discriminate. }
  destruct r2 as [|e r3]; [reflexivity|].
  destruct (space3 c d e) eqn:E3; [|reflexivity].
  rewrite (space3_rune c d e r3 E3) in H. discriminate.
Qed.

Lemma isCont_facts (c : ascii) :
  isCont c = true ->
  asciiSpace c = false
  /\ byteIs 194 c = false /\ byteIs 225 c = false
  /\ byteIs 226 c = false /\ byteIs 227 c = false
  /\ Ascii.eqb c dquote = false /\ Ascii.eqb c equals = false.
Proof.
  destruct c as [[] [] [] [] [] [] [] []]; intros H;
    first [discriminate H | repeat split; reflexivity].
Qed.

Lemma isCont_trimLeftSpace (c : ascii) (r : string) :
  isCont c = true -> trimLeftSpace (String c r) = String c r.
Proof.
  intros H. destruct (isCont_facts c H) as (Ha & H2 & H3a & H3b & H3c & _).
  cbn [trimLeftSpace]. rewrite Ha.
  destruct r as [|d r2]; [reflexivity|].
  unfold space2. rewrite H2. cbn [andb].
  destruct r2 as [|e r3]; [reflexivity|].
  unfold space3. rewrite H3a, H3b, H3c. reflexivity.
Qed.

(** The bytes a rune takes after its first are continuation bytes. *)
Lemma decoderune_contPrefix (c : ascii) (r : string) :
  contPrefix (snd (decoderune (String c r)) - 1) r = true.
Proof.
  unfold decoderune.
  destruct (N.ltb (N_of_ascii c) 128); [reflexivity|].
  destruct (N.leb 192 (N_of_ascii c) && N.ltb (N_of_ascii c) 224).
  { destruct r as [|b1 r2]; [reflexivity|].
    destruct (isCont b1) eqn:E1; [|reflexivity].
    match goal with |- context [if ?b then _ else _] => destruct b end;
      [|reflexivity].
    cbn [snd Nat.sub contPrefix]. rewrite E1. destruct r2; reflexivity. }
  destruct (N.leb 224 (N_of_ascii c) && N.ltb (N_of_ascii c) 240).
  { destruct r as [|b1 [|b2 r3]]; [reflexivity..|].
    destruct (isCont b1) eqn:E1; [|reflexivity].
    destruct (isCont b2) eqn:E2; [|reflexivity].
    cbn [andb].
    match goal with |- context [if ?b then _ else _] => destruct b end;
      [|reflexivity].
    cbn [snd Nat.sub contPrefix]. rewrite E1, E2. destruct r3; reflexivity. }
  destruct (N.leb 240 (N_of_ascii c) && N.ltb (N_of_ascii c) 248).
  { destruct r as [|b1 [|b2 [|b3 r4]]]; [reflexivity..|].
    destruct (isCont b1) eqn:E1; [|reflexivity].
    destruct (isCont b2) eqn:E2; [|reflexivity].
    destruct (isCont b3) eqn:E3; [|reflexivity].
    cbn [andb].
    match goal with |- context [if ?b then _ else _] => destruct b end;
      [|reflexivity].
    cbn [snd Nat.sub contPrefix]. rewrite E1, E2, E3. destruct r4; reflexivity. }
  reflexivity.
Qed.

Lemma decoderune_byte (c : ascii) (r : string) (x : ascii) :
  isASCIIByte x = true ->
  N.eqb (fst (decoderune (String c r))) (N_of_ascii x) = false ->
  Ascii.eqb c x = false.
Proof.
  intros Hx H. destruct (Ascii.eqb c x) eqn:E; [|reflexivity].
  apply Ascii.eqb_eq in E. subst c.
  rewrite (decoderune_ascii x r Hx) in H. cbn [fst] in H.
  rewrite N.eqb_refl in H. discriminate.
Qed.

(** When no rune of a range loop is white space, a double quote or an
    equals sign, no such byte is in the string, and no white space at its
    end. *)
Lemma runesFrom_clean (s : string) :
  forall skip,
    existsb quotingRune (runesFrom skip s) = false ->
    contPrefix skip s = true ->
    trimRightSpace s = s
    /\ Contains s dquote = false
    /\ Contains s equals = false.
Proof.
  induction s as [|c r IH]; intros skip Hr Hc; [repeat split; reflexivity|].
  destruct skip as [|k].
  - cbn [runesFrom] in Hr.
    pose proof (decoderune_contPrefix c r) as Hcont.
    destruct (decoderune (String c r)) as [char width] eqn:Ed.
    cbn [existsb] in Hr. apply orb_false_iff in Hr. destruct Hr as [Ht Hr].
    unfold quotingRune in Ht.
    apply orb_false_iff in Ht. destruct Ht as [Ht He].
    apply orb_false_iff in Ht. destruct Ht as [Hs Hq].
    cbn [snd] in Hcont.
    destruct (IH (width - 1) Hr Hcont) as (HR & HQ & HE).
    assert (HL : trimLeftSpace (String c r) = String c r).
    { apply rune_not_space_trimLeftSpace. rewrite Ed. exact Hs. }
    split.
    + cbn [trimRightSpace]. unfold allSpace. rewrite HL, HR. reflexivity.
    + split.
      * rewrite Contains_cons, HQ.
        rewrite (decoderune_byte c r dquote eq_refl); [reflexivity|].
        rewrite Ed. exact Hq.
      * rewrite Contains_cons, HE.
        rewrite (decoderune_byte c r equals eq_refl); [reflexivity|].
        rewrite Ed. exact He.
  - cbn [runesFrom] in Hr. cbn [contPrefix] in Hc.
    apply andb_true_iff in Hc. destruct Hc as [Hcc Hc].
    destruct (IH k Hr Hc) as (HR & HQ & HE).
    destruct (isCont_facts c Hcc) as (_ & _ & _ & _ & _ & Hq & He).
    split.
    + cbn [trimRightSpace]. unfold allSpace.
      rewrite (isCont_trimLeftSpace c r Hcc), HR. reflexivity.
    + split; rewrite Contains_cons; [rewrite Hq, HQ | rewrite He, HE];
        reflexivity.
Qed.

(** A value that [needsQuoting] lets pass is not empty, has no white
    space at its ends, and neither double quote nor equals sign. *)
Lemma needsQuoting_false (value : string) :
  Unquoted.needsQuoting value = false ->
  value <> EmptyString
  /\ TrimSpace value = value
  /\ Contains value dquote = false
  /\ Contains value equals = false.
Proof.
  unfold Unquoted.needsQuoting. intros H.
  apply orb_false_iff in H. destruct H as [Hne Hr].
  destruct value as [|c r]; [discriminate|].
  change (existsb (fun char => IsSpace char || N.eqb char 34 || N.eqb char 61)
                  (runes (String c r)))
    with (existsb quotingRune (runesFrom 0 (String c r))) in Hr.
  destruct (runesFrom_clean (String c r) 0 Hr eq_refl) as (HR & HQ & HE).
  split; [discriminate|]. split; [|split; assumption].
  unfold TrimSpace.
  assert (HL : trimLeftSpace (String c r) = String c r).
  { apply rune_not_space_trimLeftSpace.
    cbn [runesFrom] in Hr.
    destruct (decoderune (String c r)) as [char width].
    cbn [existsb] in Hr. apply orb_false_iff in Hr. destruct Hr as [Ht _].
    unfold quotingRune in Ht.
    apply orb_false_iff in Ht. destruct Ht as [Ht _].
    apply orb_false_iff in Ht. destruct Ht as [Hs _]. exact Hs. }
  rewrite HL. exact HR.
Qed.

End RuneFacts.

(** * The lines of the two other programs *)

Section EarlierLines.

Local Open Scope list_scope.

Lemma Earlier_parseLine_Original (l : string) :
  Earlier.Original (Earlier.parseLine l) = l.
Proof.
  unfold Earlier.parseLine.
  destruct (isEmpty (TrimSpace l)); [reflexivity|].
  destruct (HasPrefix (TrimSpace l) "#"); [reflexivity|].
  destruct (SplitN2 (TrimSpace l) equals) as [|p0 [|p1 [|p2 ps]]]; reflexivity.
Qed.

Lemma Earlier_parseLine_Cut (l pre post : string) :
  Cut l equals = Some (pre, post) ->
  HasPrefix (TrimSpace l) "#" = false ->
  Earlier.parseLine l
  = Earlier.mkEntry l (TrimSpace pre)
      (Earlier.removeQuotes (TrimSpace (trimRightSpace post))) false false.
Proof.
  intros HC Hh. unfold Earlier.parseLine. rewrite Hh.
  pose proof (TrimSpace_Cut l pre post HC) as HT. rewrite HT.
  replace (isEmpty (trimLeftSpace pre ++ String equals (trimRightSpace post))%string)
    with false by (destruct (trimLeftSpace pre); reflexivity).
  unfold SplitN2.
  rewrite (Cut_app (trimLeftSpace pre) (trimRightSpace post) equals).
  - rewrite TrimSpace_trimLeftSpace. reflexivity.
  - apply Contains_trimLeftSpace. apply Cut_Some in HC. tauto.
Qed.

Lemma Earlier_parseLine_no_key (l : string) :
  Contains l equals = false \/ HasPrefix (TrimSpace l) "#" = true ->
  Earlier.Key (Earlier.parseLine l) = EmptyString.
Proof.
  intros H. unfold Earlier.parseLine.
  destruct (isEmpty (TrimSpace l)) eqn:Ee; [reflexivity|].
  destruct (HasPrefix (TrimSpace l) "#") eqn:Eh; [reflexivity|].
  destruct H as [H|H]; [|discriminate].
  unfold SplitN2.
  replace (Cut (TrimSpace l) equals) with (@None (string * string))
    by (symmetry; apply Cut_None; apply Contains_TrimSpace; exact H).
  reflexivity.
Qed.

(** Key and value depend on the trimmed line only. *)
Lemma Earlier_parseLine_TrimSpace (a b : string) :
  TrimSpace a = TrimSpace b ->
  Earlier.Key (Earlier.parseLine a) = Earlier.Key (Earlier.parseLine b)
  /\ Earlier.Value (Earlier.parseLine a) = Earlier.Value (Earlier.parseLine b).
Proof.
  intros H. unfold Earlier.parseLine. rewrite H.
  destruct (isEmpty (TrimSpace b)); [split; reflexivity|].
  destruct (HasPrefix (TrimSpace b) "#"); [split; reflexivity|].
  destruct (SplitN2 (TrimSpace b) equals) as [|p0 [|p1 [|p2 ps]]];
    split; reflexivity.
Qed.

Lemma removeQuotes_quoted (value : string) :
  Earlier.removeQuotes (Q ++ value ++ Q) = value.
Proof.
  unfold Earlier.removeQuotes.
  assert (Hlen : Nat.leb 2 (String.length (Q ++ value ++ Q)) = true)
    by (apply Nat.leb_le; rewrite !append_length; simpl; lia).
  assert (Hlast : byteAtIs (Q ++ value ++ Q)
                           (String.length (Q ++ value ++ Q) - 1) dquote = true).
  { replace (Q ++ value ++ Q)%string
      with ((Q ++ value) ++ String dquote EmptyString)%string
      by (rewrite append_assoc; reflexivity).
    apply byteAtIs_last. }
  assert (Hslice : slice (Q ++ value ++ Q) 1
                         (String.length (Q ++ value ++ Q) - 1) = value).
  { replace (String.length (Q ++ value ++ Q) - 1)
      with (String.length Q + String.length value)
      by (rewrite !append_length; simpl; lia).
    apply (slice_middle Q value Q). }
  rewrite Hlen, Hlast, Hslice. reflexivity.
Qed.

Lemma removeQuotes_plain (value : string) :
  Contains value dquote = false -> Earlier.removeQuotes value = value.
Proof.
  intros H. unfold Earlier.removeQuotes.
  replace (byteAtIs value 0 dquote) with false.
  - rewrite andb_false_r. reflexivity.
  - destruct value as [|c r]; [reflexivity|].
    rewrite Contains_cons in H. apply orb_false_iff in H. destruct H as [H _].
    unfold byteAtIs. cbn [get]. symmetry. exact H.
Qed.

Lemma Contains_removeQuotes (value : string) (c : ascii) :
  Contains value c = false -> Contains (Earlier.removeQuotes value) c = false.
Proof.
  intros H. unfold Earlier.removeQuotes, slice.
  match goal with |- context [if ?b then _ else _] => destruct b end;
    [apply Contains_substring; exact H | exact H].
Qed.

(** Text without white space at its ends, after a space. *)
Lemma TrimSpace_after_space (text : string) :
  text <> EmptyString -> TrimSpace text = text ->
  TrimSpace (trimRightSpace (" " ++ text)) = text.
Proof.
  intros Hne Ht. destruct (TrimSpace_fix text Ht) as [HL HR].
  assert (Hns : allSpace (" " ++ text) = false).
  { unfold allSpace.
    change (trimLeftSpace (" " ++ text)) with (trimLeftSpace text).
    rewrite HL. destruct text; [congruence | reflexivity]. }
  assert (E : trimRightSpace (" " ++ text) = (" " ++ text)%string).
  { change (" " ++ text)%string with (String " " text).
    cbn [trimRightSpace].
    change (String " " text) with (" " ++ text)%string at 1.
    rewrite Hns, HR. reflexivity. }
  rewrite E. unfold TrimSpace.
  change (trimLeftSpace (" " ++ text)) with (trimLeftSpace text).
  rewrite HL. exact HR.
Qed.

(** A key part, the equals sign between two spaces and a text. *)
Lemma Earlier_parseLine_written (keyPart text : string) :
  Contains keyPart equals = false ->
  TrimSpace keyPart <> EmptyString ->
  HasPrefix (trimLeftSpace keyPart) "#" = false ->
  text <> EmptyString -> TrimSpace text = text ->
  Earlier.parseLine (keyPart ++ " = " ++ text)
  = Earlier.mkEntry (keyPart ++ " = " ++ text) (TrimSpace keyPart)
                    (Earlier.removeQuotes text) false false.
Proof.
  intros Hkeq Hk Hh Hne Ht.
  assert (Hna : allSpace keyPart = false).
  { apply TrimSpace_nonempty_not_allSpace. exact Hk. }
  assert (Hne' : trimLeftSpace keyPart <> EmptyString).
  { apply allSpace_false. exact Hna. }
  pose proof (Cut_canonical keyPart text Hkeq) as HC.
  assert (Hh' : HasPrefix (TrimSpace (keyPart ++ " = " ++ text)) "#" = false).
  { rewrite (TrimSpace_Cut _ _ _ HC).
    rewrite (trimLeftSpace_app_ascii " "%char EmptyString keyPart eq_refl), Hna.
    rewrite !append_assoc.
    rewrite (HasPrefix_app_nonempty _ _ "#"%char Hne'). exact Hh. }
  rewrite (Earlier_parseLine_Cut _ _ _ HC Hh').
  rewrite (TrimSpace_after_space text Hne Ht).
  rewrite (TrimSpace_snoc_space keyPart " "%char eq_refl). reflexivity.
Qed.

Lemma saveLineWith_assignment (format : string -> string)
      (l pre post key value : string) :
  Cut l equals = Some (pre, post) ->
  key <> EmptyString ->
  Earlier.saveLineWith format (Earlier.mkEntry l key value false false)
  = (TrimRight pre spaceOrTab ++ " = " ++ format value)%string.
Proof.
  intros HC Hk. unfold Earlier.saveLineWith.
  cbn [Earlier.IsBlank Earlier.IsComment Earlier.Key Earlier.Value
       Earlier.Original].
  replace (isEmpty key) with false by (destruct key; [congruence|reflexivity]).
  cbn [negb].
  replace (Contains l equals) with true.
  2:{ symmetry. destruct (Contains l equals) eqn:E; auto.
      apply Cut_None in E. congruence. }
  unfold SplitN2. rewrite HC. reflexivity.
Qed.

Lemma saveLineWith_no_key (format : string -> string) (e : Earlier.Entry) :
  Earlier.Key e = EmptyString ->
  Earlier.saveLineWith format e = EmptyString
  \/ Earlier.saveLineWith format e = Earlier.Original e.
Proof.
  intros H. unfold Earlier.saveLineWith. rewrite H.
  destruct (Earlier.IsBlank e); [left; reflexivity|].
  destruct (Earlier.IsComment e); right; reflexivity.
Qed.

Lemma printLineWith_saveLineWith (format : string -> string) (key value : string)
      (l : string) (pre post : string) :
  Cut l equals = Some (pre, post) ->
  TrimRight pre spaceOrTab = key ->
  key <> EmptyString ->
  Earlier.printLineWith format (Earlier.mkEntry l key value false false)
  = Earlier.saveLineWith format (Earlier.mkEntry l key value false false).
Proof.
  intros HC Hkp Hk. rewrite (saveLineWith_assignment format l pre post key value HC Hk).
  unfold Earlier.printLineWith.
  cbn [Earlier.IsBlank Earlier.IsComment Earlier.Key Earlier.Value].
  replace (isEmpty key) with false by (destruct key; [congruence|reflexivity]).
  rewrite Hkp. reflexivity.
Qed.

End EarlierLines.

(** * Files of the two other programs *)

Section EarlierFiles.

Local Open Scope list_scope.

(** The text that stands for a value, and the line [Add] gives a new
    entry: what the two programs differ in. *)
Variable format : string -> string.
Variable original : string -> string -> string.

Hypothesis format_trimmed :
  forall v, format v <> EmptyString /\ TrimSpace (format v) = format v.
Hypothesis format_no_LF :
  forall v, Contains v LF = false -> Contains (format v) LF = false.
Hypothesis original_shape :
  forall key value, exists text, original key value = (key ++ " = " ++ text)%string.

Lemma Earlier_saved_line (l : string) :
  Earlier.Key (Earlier.parseLine l) <> EmptyString ->
  exists pre post,
    Cut l equals = Some (pre, post)
    /\ Earlier.Key (Earlier.parseLine l) = TrimSpace pre
    /\ Earlier.Value (Earlier.parseLine l)
       = Earlier.removeQuotes (TrimSpace (trimRightSpace post))
    /\ Earlier.saveLineWith format (Earlier.parseLine l)
       = (TrimRight pre spaceOrTab ++ " = "
          ++ format (Earlier.Value (Earlier.parseLine l)))%string
    /\ Contains (TrimRight pre spaceOrTab) equals = false
    /\ TrimSpace (TrimRight pre spaceOrTab) = TrimSpace pre
    /\ HasPrefix (trimLeftSpace (TrimRight pre spaceOrTab)) "#" = false.
Proof.
  intros Hk.
  destruct (Cut l equals) as [[pre post]|] eqn:HC.
  2:{ apply Cut_None in HC.
      rewrite (Earlier_parseLine_no_key l (or_introl HC)) in Hk. congruence. }
  destruct (HasPrefix (TrimSpace l) "#") eqn:Hh.
  { rewrite (Earlier_parseLine_no_key l (or_intror Hh)) in Hk. congruence. }
  pose proof (Earlier_parseLine_Cut l pre post HC Hh) as HP.
  rewrite HP in *. cbn [Earlier.Key Earlier.Value] in *.
  exists pre, post.
  split; [reflexivity|]. split; [reflexivity|]. split; [reflexivity|].
  split; [apply (saveLineWith_assignment format l pre post _ _ HC Hk)|].
  destruct (TrimRight_spaces pre) as (w & Hw & Hsp).
  remember (TrimRight pre spaceOrTab) as keyPart eqn:Ekp.
  assert (HTk : TrimSpace keyPart = TrimSpace pre).
  { rewrite Hw. symmetry. apply TrimSpace_app_spaces. exact Hsp. }
  assert (Hna : allSpace keyPart = false).
  { apply TrimSpace_nonempty_not_allSpace. rewrite HTk. exact Hk. }
  assert (Hne : trimLeftSpace keyPart <> EmptyString).
  { apply allSpace_false. exact Hna. }
  assert (Hpre : Contains pre equals = false).
  { apply Cut_Some in HC. tauto. }
  split.
  { rewrite Hw in Hpre. exact (Contains_prefix_false _ _ _ Hpre). }
  split; [exact HTk|].
  rewrite (TrimSpace_Cut l pre post HC) in Hh.
  rewrite Hw, (trimLeftSpace_app_spaces keyPart w Hna Hsp) in Hh.
  rewrite !append_assoc in Hh.
  rewrite (HasPrefix_app_nonempty _ _ "#"%char Hne) in Hh. exact Hh.
Qed.

(** What is read from the line that was saved for a line: the same key,
    and the value as it was formatted, without its quotes. *)
Lemma Earlier_saved_line_read_back (l : string) :
  Earlier.Key (Earlier.parseLine l) <> EmptyString ->
  Earlier.parseLine (Earlier.saveLineWith format (Earlier.parseLine l))
  = Earlier.mkEntry (Earlier.saveLineWith format (Earlier.parseLine l))
      (Earlier.Key (Earlier.parseLine l))
      (Earlier.removeQuotes (format (Earlier.Value (Earlier.parseLine l))))
      false false.
Proof.
  intros Hk.
  destruct (Earlier_saved_line l Hk)
    as (pre & post & HC & EK & EV & ES & Hkeq & HTk & Hh).
  destruct (format_trimmed (Earlier.Value (Earlier.parseLine l))) as [Hfn Hft].
  rewrite ES.
  rewrite (Earlier_parseLine_written _ _ Hkeq); try assumption.
  - rewrite HTk, <- EK. reflexivity.
  - rewrite HTk, <- EK. exact Hk.
Qed.

Lemma Earlier_saved_key_stable (l : string) :
  Earlier.Key (Earlier.parseLine
                 (dropCR (Earlier.saveLineWith format (Earlier.parseLine l))))
  = Earlier.Key (Earlier.parseLine l).
Proof.
  rewrite (proj1 (Earlier_parseLine_TrimSpace _ _ (TrimSpace_dropCR _))).
  destruct (Earlier.Key (Earlier.parseLine l)) as [|k0 k] eqn:EK.
  { destruct (saveLineWith_no_key format (Earlier.parseLine l) EK) as [E|E];
      rewrite E.
    - reflexivity.
    - rewrite Earlier_parseLine_Original. exact EK. }
  assert (Hk : Earlier.Key (Earlier.parseLine l) <> EmptyString)
    by (rewrite EK; discriminate).
  rewrite (Earlier_saved_line_read_back l Hk). cbn [Earlier.Key]. exact EK.
Qed.

Lemma saveLineWith_no_LF (l : string) :
  Contains l LF = false ->
  Contains (Earlier.saveLineWith format (Earlier.parseLine l)) LF = false.
Proof.
  intros H.
  destruct (Earlier.Key (Earlier.parseLine l)) as [|k0 k] eqn:EK.
  { destruct (saveLineWith_no_key format (Earlier.parseLine l) EK) as [E|E];
      rewrite E.
    - reflexivity.
    - rewrite Earlier_parseLine_Original. exact H. }
  assert (Hk : Earlier.Key (Earlier.parseLine l) <> EmptyString)
    by (rewrite EK; discriminate).
  destruct (Earlier_saved_line l Hk)
    as (pre & post & HC & _ & EV & ES & _ & _ & _).
  destruct (Cut_Some _ _ _ _ HC) as [El _].
  assert (Hpre : Contains pre LF = false).
  { rewrite El in H. exact (Contains_prefix_false _ _ _ H). }
  assert (Hpost : Contains post LF = false).
  { rewrite El in H. apply Contains_suffix_false in H.
    rewrite Contains_cons in H. apply orb_false_iff in H. tauto. }
  rewrite ES, EV. destruct (TrimRight_spaces pre) as (w & Hw & _).
  rewrite !Contains_app.
  rewrite Hw in Hpre. rewrite (Contains_prefix_false _ _ _ Hpre).
  rewrite format_no_LF; [reflexivity|].
  apply Contains_removeQuotes. apply Contains_TrimSpace.
  apply Contains_trimRightSpace. exact Hpost.
Qed.

Lemma Earlier_fileLoads_LoadDictionary (fs : filesystem) (path : string)
      (lines : list string) :
  fileLoads fs path lines ->
  Earlier.LoadDictionary path fs
  = Ok (Earlier.mkDictionary path (map Earlier.parseLine lines))
  /\ Forall (fun l => Contains l LF = false) lines
  /\ canCreate fs path = true.
Proof.
  unfold fileLoads, Earlier.LoadDictionary, canCreate.
  destruct (fs path) as [| | |data|data]; intros H; try contradiction.
  - subst lines. repeat split. constructor.
  - rewrite H. repeat split. exact (scanLines_no_LF data lines H).
Qed.

(** The line of the entry that [Add] makes, as [Save] writes it. *)
Lemma saveLineWith_added (key value : string) :
  wfKey key ->
  Earlier.saveLineWith format
    (Earlier.mkEntry (original key value) key value false false)
  = (key ++ " = " ++ format value)%string.
Proof.
  intros (Hne & Htrim & Heq & Hhash).
  destruct (TrimSpace_fix key Htrim) as [HL HR].
  destruct (original_shape key value) as (text & E). rewrite E.
  rewrite (saveLineWith_assignment format _ _ _ key value
             (Cut_canonical key text Heq) Hne).
  rewrite (TrimRight_app_cut spaceOrTab key " " eq_refl).
  rewrite (TrimRight_trimRightSpace_fix key HR). reflexivity.
Qed.

(** Adding a key that the file does not have, saving, loading and
    querying: the value comes back as it was formatted, without the
    quotes around it. *)
Lemma Earlier_add_round_trip (fs : filesystem) (path : string)
      (lines : list string) (key value : string) :
  fileLoads fs path lines ->
  Forall (fun l => Earlier.hasKey key (Earlier.parseLine l) = false) lines ->
  Forall (fun l => fits (Earlier.saveLineWith format (Earlier.parseLine l)) = true)
         lines ->
  wfKey key ->
  Contains key LF = false ->
  Contains value LF = false ->
  fits (key ++ " = " ++ format value) = true ->
  exists d1 fs' d2,
    Earlier.LoadDictionary path fs
    = Ok (Earlier.mkDictionary path (map Earlier.parseLine lines))
    /\ Earlier.addWith original
         (Earlier.mkDictionary path (map Earlier.parseLine lines)) key value
       = Ok d1
    /\ Earlier.saveWith format d1 path fs = (fs', None)
    /\ fs' path
       = Regular (unlines (map (Earlier.saveLineWith format)
                               (map Earlier.parseLine lines))
                  ++ key ++ " = " ++ format value ++ NL)%string
    /\ Earlier.LoadDictionary path fs' = Ok d2
    /\ Earlier.Query d2 key = Ok (Earlier.removeQuotes (format value)).
Proof.
  intros Hfile Habs Hfits Hk Hklf Hvlf Hfit.
  destruct (Earlier_fileLoads_LoadDictionary fs path lines Hfile)
    as (HLoad & HLF & Hcan).
  set (d := Earlier.mkDictionary path (map Earlier.parseLine lines)) in *.
  set (new := Earlier.mkEntry (original key value) key value false false).
  set (d1 := Earlier.withEntries d (Earlier.Entries d ++ [new])).
  set (line := (key ++ " = " ++ format value)%string).
  set (saved := map (Earlier.saveLineWith format) (map Earlier.parseLine lines)
                ++ [line]).
  assert (Hnone : existsb (Earlier.hasKey key) (map Earlier.parseLine lines)
                  = false).
  { clear -Habs. induction Habs as [|l ls Hl _ IH]; [reflexivity|].
    cbn [map existsb]. rewrite Hl, IH. reflexivity. }
  assert (HAdd : Earlier.addWith original d key value = Ok d1).
  { unfold Earlier.addWith, Earlier.KeyExists, d. cbn [Earlier.Entries].
    rewrite Hnone. reflexivity. }
  assert (Hbytes : unlines (map (Earlier.saveLineWith format) (Earlier.Entries d1))
                   = unlines saved).
  { unfold d1, d, saved, new, line. cbn [Earlier.Entries Earlier.withEntries].
    rewrite map_app. cbn [map].
    rewrite (saveLineWith_added key value Hk). reflexivity. }
  assert (HSave : Earlier.saveWith format d1 path fs
                  = (writeFile fs path (unlines saved), None)).
  { unfold Earlier.saveWith. rewrite Hbytes, Hcan. reflexivity. }
  assert (Hline : Contains line LF = false).
  { unfold line. rewrite !Contains_app, Hklf, (format_no_LF value Hvlf).
    reflexivity. }
  assert (Hscan : scanLines (unlines saved) = Some (map dropCR saved)).
  { apply scanLines_unlines_dropCR; unfold saved; apply Forall_app; split.
    - rewrite map_map. apply Forall_map.
      eapply Forall_impl; [|exact HLF]. apply saveLineWith_no_LF.
    - constructor; [exact Hline | constructor].
    - rewrite map_map. apply Forall_map. exact Hfits.
    - constructor; [exact Hfit | constructor]. }
  exists d1, (writeFile fs path (unlines saved)),
         (Earlier.mkDictionary path (map Earlier.parseLine (map dropCR saved))).
  split; [exact HLoad|]. split; [exact HAdd|]. split; [exact HSave|].
  split.
  { rewrite writeFile_same. unfold saved. rewrite unlines_app.
    cbn [unlines]. unfold line. rewrite ?append_assoc, ?append_nil_r.
    reflexivity. }
  split.
  { unfold Earlier.LoadDictionary. rewrite writeFile_same, Hscan. reflexivity. }
  destruct Hk as (Hne & Htrim & Heq & Hhash).
  destruct (TrimSpace_fix key Htrim) as [HL HR].
  destruct (format_trimmed value) as [Hfn Hft].
  assert (Hparsed : Earlier.parseLine line
                    = Earlier.mkEntry line key
                        (Earlier.removeQuotes (format value)) false false).
  { unfold line. rewrite (Earlier_parseLine_written key (format value) Heq).
    - rewrite Htrim. reflexivity.
    - rewrite Htrim. exact Hne.
    - rewrite HL. exact Hhash.
    - exact Hfn.
    - exact Hft. }
  destruct (Earlier_parseLine_TrimSpace _ _ (TrimSpace_dropCR line)) as [EK EV].
  rewrite Hparsed in EK, EV. cbn [Earlier.Key Earlier.Value] in EK, EV.
  unfold Earlier.Query, saved. cbn [Earlier.Entries].
  rewrite !map_app. cbn [map].
  assert (Hskip : forall (pre : list Earlier.Entry) e,
             Forall (fun x => Earlier.hasKey key x = false) pre ->
             Earlier.hasKey key e = true ->
             find (Earlier.hasKey key) (pre ++ [e]) = Some e).
  { intros pre e Hpre He. induction Hpre as [|x pre Hx _ IH]; cbn [app find].
    - rewrite He. reflexivity.
    - rewrite Hx. exact IH. }
  rewrite Hskip.
  - rewrite EV. reflexivity.
  - rewrite !map_map. apply Forall_map.
    eapply Forall_impl; [|exact Habs].
    intros l Hl. unfold Earlier.hasKey in *. cbn beta.
    rewrite Earlier_saved_key_stable. exact Hl.
  - unfold Earlier.hasKey. rewrite EK. apply String.eqb_refl.
Qed.

(** [Set] and [Query] compare keys byte for byte. *)
Lemma Earlier_Query_setWith (d : Earlier.Dictionary) (key value key' : string) :
  Earlier.Query (Earlier.setWith original d key value) key'
  = if String.eqb key key' then Ok value else Earlier.Query d key'.
Proof.
  unfold Earlier.Query, Earlier.setWith, Earlier.addWith, Earlier.KeyExists.
  destruct d as [name es]. cbn [Earlier.Entries].
  assert (Hu : forall es,
             match Earlier.updateFirst key value es with
             | Some es' =>
                 existsb (Earlier.hasKey key) es = true
                 /\ find (Earlier.hasKey key') es'
                    = if String.eqb key key'
                      then option_map
                             (fun e => Earlier.mkEntry (Earlier.Original e)
                                         (Earlier.Key e) value
                                         (Earlier.IsComment e) (Earlier.IsBlank e))
                             (find (Earlier.hasKey key) es)
                      else find (Earlier.hasKey key') es
             | None =>
                 existsb (Earlier.hasKey key) es = false
                 /\ find (Earlier.hasKey key') (es ++ [Earlier.mkEntry
                                                        (original key value) key
                                                        value false false])
                    = if String.eqb key key'
                      then Some (Earlier.mkEntry (original key value) key value
                                                 false false)
                      else find (Earlier.hasKey key') es
             end).
  { clear es. induction es as [|x es IH].
    - cbn [Earlier.updateFirst existsb app find]. split; [reflexivity|].
      unfold Earlier.hasKey at 1. cbn [Earlier.Key].
      destruct (String.eqb key key'); reflexivity.
    - cbn [Earlier.updateFirst existsb]. destruct (Earlier.hasKey key x) eqn:Hx.
      + split; [reflexivity|]. cbn [find]. rewrite Hx. cbn [option_map].
        unfold Earlier.hasKey at 1. cbn [Earlier.Key].
        unfold Earlier.hasKey in Hx. apply String.eqb_eq in Hx.
        destruct (String.eqb key key') eqn:E.
        * apply String.eqb_eq in E. subst key'. rewrite Hx, String.eqb_refl.
          reflexivity.
        * unfold Earlier.hasKey. rewrite Hx.
          rewrite String.eqb_sym in E. rewrite String.eqb_sym, E. reflexivity.
      + destruct (Earlier.updateFirst key value es) as [es'|].
        * destruct IH as [He IH]. split; [exact He|]. cbn [find]. rewrite Hx.
          destruct (Earlier.hasKey key' x) eqn:Hx'.
          -- destruct (String.eqb key key') eqn:E; [|reflexivity].
             apply String.eqb_eq in E. subst key'. congruence.
          -- exact IH.
        * destruct IH as [He IH]. split; [exact He|]. cbn [app find].
          destruct (Earlier.hasKey key' x) eqn:Hx'.
          -- destruct (String.eqb key key') eqn:E; [|reflexivity].
             apply String.eqb_eq in E. subst key'. congruence.
          -- exact IH. }
  specialize (Hu es).
  destruct (Earlier.updateFirst key value es) as [es'|].
  - destruct Hu as [He Hf]. cbn [Earlier.Entries Earlier.withEntries].
    rewrite Hf. destruct (String.eqb key key'); [|reflexivity].
    destruct (find (Earlier.hasKey key) es) as [e|] eqn:F; [reflexivity|].
    exfalso. clear -He F. induction es as [|x es IH]; [discriminate|].
    cbn [existsb find] in *. destruct (Earlier.hasKey key x); [discriminate|].
    auto.
  - destruct Hu as [He Hf]. rewrite He.
    cbn [Earlier.Entries Earlier.withEntries]. rewrite Hf.
    destruct (String.eqb key key'); reflexivity.
Qed.

End EarlierFiles.

(** * The two ways to write a value *)

Section Formats.

Local Open Scope list_scope.

Lemma Quoted_format_trimmed (v : string) :
  Quoted.formattedValue v <> EmptyString
  /\ TrimSpace (Quoted.formattedValue v) = Quoted.formattedValue v.
Proof.
  unfold Quoted.formattedValue. split; [discriminate | apply TrimSpace_quoted].
Qed.

Lemma Quoted_format_no_LF (v : string) :
  Contains v LF = false -> Contains (Quoted.formattedValue v) LF = false.
Proof.
  intros H. unfold Quoted.formattedValue.
  rewrite !Contains_app, (Contains_escapeQuotes v LF eq_refl), H. reflexivity.
Qed.

Lemma Quoted_original_shape (key value : string) :
  exists text, Quoted.newOriginal key value = (key ++ " = " ++ text)%string.
Proof. exists (Q ++ value ++ Q)%string. reflexivity. Qed.

Lemma Unquoted_format_trimmed (v : string) :
  Unquoted.formattedValue v <> EmptyString
  /\ TrimSpace (Unquoted.formattedValue v) = Unquoted.formattedValue v.
Proof.
  unfold Unquoted.formattedValue.
  destruct (Unquoted.needsQuoting v) eqn:E.
  - split; [discriminate | apply TrimSpace_quoted].
  - destruct (needsQuoting_false v E) as (Hne & Ht & _). split; assumption.
Qed.

Lemma Unquoted_format_no_LF (v : string) :
  Contains v LF = false -> Contains (Unquoted.formattedValue v) LF = false.
Proof.
  intros H. unfold Unquoted.formattedValue.
  destruct (Unquoted.needsQuoting v); [|exact H].
  rewrite !Contains_app, H. reflexivity.
Qed.

Lemma Unquoted_original_shape (key value : string) :
  exists text, Unquoted.newOriginal key value = (key ++ " = " ++ text)%string.
Proof. exists value. reflexivity. Qed.

Lemma removeQuotes_Unquoted_format (v : string) :
  Earlier.removeQuotes (Unquoted.formattedValue v) = v.
Proof.
  unfold Unquoted.formattedValue.
  destruct (Unquoted.needsQuoting v) eqn:E.
  - apply removeQuotes_quoted.
  - destruct (needsQuoting_false v E) as (_ & _ & Hq & _).
    apply removeQuotes_plain. exact Hq.
Qed.

Lemma removeQuotes_Quoted_format (v : string) :
  Earlier.removeQuotes (Quoted.formattedValue v) = escapeQuotes v.
Proof. apply removeQuotes_quoted. Qed.

Lemma escapeQuotes_length (v : string) :
  String.length v <= String.length (escapeQuotes v)
  /\ (Contains v dquote = true -> String.length v < String.length (escapeQuotes v)).
Proof.
  unfold escapeQuotes.
  induction v as [|c v [IH1 IH2]];
    [split; [apply Nat.le_refl | intros H; discriminate H]|].
  cbn [ReplaceAll_quote_escaped]. rewrite Contains_cons.
  destruct (Ascii.eqb c dquote); cbn [String.length orb].
  - split; [lia | intros _; lia].
  - split; [lia | intros H; specialize (IH2 H); lia].
Qed.

Lemma escapeQuotes_fixed (v : string) :
  escapeQuotes v = v <-> Contains v dquote = false.
Proof.
  split.
  - intros E. destruct (Contains v dquote) eqn:C; [|reflexivity].
    pose proof (proj2 (escapeQuotes_length v) C) as H. rewrite E in H. lia.
  - unfold escapeQuotes. induction v as [|c v IH]; [reflexivity|].
    rewrite Contains_cons. intros H. apply orb_false_iff in H. destruct H as [Hc Hv].
    cbn [ReplaceAll_quote_escaped]. rewrite Hc, (IH Hv). reflexivity.
Qed.

Lemma quotingRune_ascii (c : ascii) :
  isASCIIByte c = true -> quotingRune (N_of_ascii c) = quotingByte c.
Proof.
  destruct c as [[] [] [] [] [] [] [] []]; intros H;
    first [discriminate H | reflexivity].
Qed.

(** On bytes below 0x80 [needsQuoting] looks at each byte. *)
Lemma needsQuoting_ascii (v : string) :
  allBytes isASCIIByte v = true ->
  Unquoted.needsQuoting v
  = isEmpty v || negb (allBytes (fun c => negb (quotingByte c)) v).
Proof.
  intros H. unfold Unquoted.needsQuoting. f_equal.
  change (existsb (fun char => IsSpace char || N.eqb char 34 || N.eqb char 61)
                  (runes v))
    with (existsb quotingRune (runesFrom 0 v)).
  induction v as [|c r IH]; [reflexivity|].
  cbn [allBytes] in H. apply andb_true_iff in H. destruct H as [Hc Hr].
  cbn [runesFrom]. rewrite (decoderune_ascii c r Hc).
  cbn [Nat.sub existsb allBytes]. rewrite (IH Hr), (quotingRune_ascii c Hc).
  destruct (quotingByte c); reflexivity.
Qed.

End Formats.

(** * A line that is loaded and saved by the two other programs *)

Section EarlierLoadSave.

Lemma Earlier_load_save_line (format : string -> string) (key text : string) :
  wfKey key -> text <> EmptyString -> TrimSpace text = text ->
  Earlier.saveLineWith format (Earlier.parseLine (key ++ " = " ++ text))
  = key ++ " = " ++ format (Earlier.removeQuotes text).
Proof.
  intros (Hne & Htrim & Heq & Hhash) Htn Htt.
  destruct (TrimSpace_fix key Htrim) as [HL HR].
  rewrite (Earlier_parseLine_written key text Heq); try assumption.
  - rewrite Htrim.
    rewrite (saveLineWith_assignment format _ _ _ key _
               (Cut_canonical key text Heq) Hne).
    rewrite (TrimRight_app_cut spaceOrTab key " " eq_refl).
    rewrite (TrimRight_trimRightSpace_fix key HR). reflexivity.
  - rewrite Htrim. exact Hne.
  - rewrite HL. exact Hhash.
Qed.

Lemma Earlier_load_print_line (format : string -> string) (key text : string) :
  wfKey key -> text <> EmptyString -> TrimSpace text = text ->
  Earlier.printLineWith format (Earlier.parseLine (key ++ " = " ++ text))
  = key ++ " = " ++ format (Earlier.removeQuotes text).
Proof.
  intros (Hne & Htrim & Heq & Hhash) Htn Htt.
  destruct (TrimSpace_fix key Htrim) as [HL HR].
  rewrite (Earlier_parseLine_written key text Heq); try assumption.
  - rewrite Htrim. unfold Earlier.printLineWith.
    cbn [Earlier.IsBlank Earlier.IsComment Earlier.Key Earlier.Value].
    replace (isEmpty key) with false by (destruct key; [congruence|reflexivity]).
    reflexivity.
  - rewrite Htrim. exact Hne.
  - rewrite HL. exact Hhash.
Qed.

End EarlierLoadSave.

(** * The command line of the two other programs *)

Section EarlierMain.

Local Open Scope list_scope.

Lemma Unquoted_parseKeyValue_KeyValue (kv key value : string) :
  Unquoted.parseKeyValue kv = KeyValue key value ->
  key <> EmptyString
  /\ TrimSpace key = key
  /\ Contains key equals = false
  /\ forall c, Contains kv c = false ->
               Contains key c = false /\ Contains value c = false.
Proof.
  unfold Unquoted.parseKeyValue, SplitN2. intros H.
  destruct (Cut kv equals) as [[before after]|] eqn:HC; [|discriminate].
  destruct (TrimSpace before) as [|k0 k] eqn:EK; [discriminate|].
  cbn [isEmpty] in H. inversion H; subst. rewrite <- EK.
  split; [rewrite EK; discriminate|]. split; [apply TrimSpace_idem|].
  apply Cut_Some in HC. destruct HC as [-> Hb].
  split; [apply Contains_TrimSpace; exact Hb|].
  intros c Hc.
  rewrite Contains_app in Hc. apply orb_false_iff in Hc. destruct Hc as [Hb' Ha].
  rewrite Contains_cons in Ha. apply orb_false_iff in Ha. destruct Ha as [_ Ha].
  split; [apply Contains_TrimSpace; exact Hb'|].
  apply Contains_removeQuotes. apply Contains_TrimSpace. exact Ha.
Qed.

Lemma saveWith_writes (format : string -> string) (d : Earlier.Dictionary)
      (path : string) (fs : filesystem) :
  canCreate fs path = true ->
  Earlier.saveWith format d path fs
  = (writeFile fs path
       (unlines (map (Earlier.saveLineWith format) (Earlier.Entries d))), None).
Proof. intros H. unfold Earlier.saveWith. rewrite H. reflexivity. Qed.

Lemma saveWith_fails (format : string -> string) (d : Earlier.Dictionary)
      (path : string) (fs : filesystem) :
  canCreate fs path = false ->
  Earlier.saveWith format d path fs = (fs, Some PathError).
Proof. intros H. unfold Earlier.saveWith. rewrite H. reflexivity. Qed.

Lemma saveWith_other (format : string -> string) (d : Earlier.Dictionary)
      (path : string) (fs fs' : filesystem) (err : option error) (p : string) :
  Earlier.saveWith format d path fs = (fs', err) -> p <> path -> fs' p = fs p.
Proof.
  unfold Earlier.saveWith. intros H Hp.
  destruct (canCreate fs path); inversion H; subst; try reflexivity;
    apply writeFile_other; exact Hp.
Qed.

(** [main] writes one file or nothing, and says what it wrote. *)
Lemma Earlier_main_writes (p : Earlier.Program) (format : string -> string)
      (env : Environment) (args : list string) (fs : filesystem) :
  Earlier.save p = Earlier.saveWith format ->
  let '(code, out, fs') := Earlier.main p env args fs in
  fs' = fs
  \/ (code = 0
      /\ exists prog command filename arg d,
          args = [prog; command; filename; arg]
          /\ fs filename <> Denied
          /\ fs' = writeFile fs filename
                     (unlines (map (Earlier.saveLineWith format)
                                   (Earlier.Entries d)))
          /\ ((command = "add"
               /\ exists key value,
                   Earlier.parseKV p arg = KeyValue key value
                   /\ out = ("Added: " ++ key ++ "=" ++ value ++ NL)%string)
              \/ (command = "set"
                  /\ exists key value,
                      Earlier.parseKV p arg = KeyValue key value
                      /\ out = ("Set: " ++ key ++ "=" ++ value ++ NL)%string)
              \/ (command = "remove"
                  /\ out = ("Removed: " ++ arg ++ NL)%string))).
Proof.
  intros Hsave.
  destruct args as [|prog [|command rest]]; [left; reflexivity..|].
  unfold Earlier.main. rewrite Hsave.
  destruct (String.eqb command "help"); [left; reflexivity|].
  destruct (String.eqb command "version"); [left; reflexivity|].
  destruct (String.eqb command "print").
  { destruct rest as [|filename [|x r]]; [left; reflexivity | | left; reflexivity].
    destruct (Earlier.LoadDictionary filename fs); left; reflexivity. }
  destruct (String.eqb command "add") eqn:Eadd.
  { apply String.eqb_eq in Eadd.
    destruct rest as [|filename [|kv [|x r]]];
      [left; reflexivity.. | | left; reflexivity].
    destruct (Earlier.parseKV p kv) as [key value|e] eqn:Hkv; [|left; reflexivity].
    destruct (Earlier.LoadDictionary filename fs) as [dict|e]; [|left; reflexivity].
    destruct (Earlier.add p dict key value) as [dict'|e]; [|left; reflexivity].
    unfold Earlier.saveWith. destruct (canCreate fs filename) eqn:Hf;
      [|left; reflexivity];
      (right; split; [reflexivity|];
       exists prog, command, filename, kv, dict';
       split; [reflexivity|]; split; [intros E; unfold canCreate in Hf; rewrite E in Hf; discriminate|];
       split; [reflexivity|]; left; split; [exact Eadd|];
       exists key, value; split; [exact Hkv | reflexivity]). }
  destruct (String.eqb command "set") eqn:Eset.
  { apply String.eqb_eq in Eset.
    destruct rest as [|filename [|kv [|x r]]];
      [left; reflexivity.. | | left; reflexivity].
    destruct (Earlier.parseKV p kv) as [key value|e] eqn:Hkv; [|left; reflexivity].
    destruct (Earlier.LoadDictionary filename fs) as [dict|e]; [|left; reflexivity].
    unfold Earlier.saveWith. destruct (canCreate fs filename) eqn:Hf;
      [|left; reflexivity];
      (right; split; [reflexivity|];
       exists prog, command, filename, kv, (Earlier.set p dict key value);
       split; [reflexivity|]; split; [intros E; unfold canCreate in Hf; rewrite E in Hf; discriminate|];
       split; [reflexivity|]; right; left; split; [exact Eset|];
       exists key, value; split; [exact Hkv | reflexivity]). }
  destruct (String.eqb command "remove") eqn:Erem.
  { apply String.eqb_eq in Erem.
    destruct rest as [|filename [|key [|x r]]];
      [left; reflexivity.. | | left; reflexivity].
    destruct (Earlier.LoadDictionary filename fs) as [dict|e]; [|left; reflexivity].
    destruct (Earlier.Remove dict key) as [dict'|e]; [|left; reflexivity].
    unfold Earlier.saveWith. destruct (canCreate fs filename) eqn:Hf;
      [|left; reflexivity];
      (right; split; [reflexivity|];
       exists prog, command, filename, key, dict';
       split; [reflexivity|]; split; [intros E; unfold canCreate in Hf; rewrite E in Hf; discriminate|];
       split; [reflexivity|]; right; right; split; [exact Erem | reflexivity]). }
  destruct (String.eqb command "query").
  { destruct rest as [|filename [|key [|x r]]];
      [left; reflexivity.. | | left; reflexivity].
    destruct (Earlier.LoadDictionary filename fs) as [dict|e]; [|left; reflexivity].
    destruct (Earlier.Query dict key); left; reflexivity. }
  left; reflexivity.
Qed.

End EarlierMain.

(** * Setting a key twice *)

Section SetTwice.

Context {T : CaseTables}.

Local Open Scope list_scope.

Lemma updateEntry_twice (e : Entry) (v1 v2 : string) :
  updateEntry (updateEntry e v1) v2 = updateEntry e v2.
Proof. reflexivity. Qed.

Lemma updateEntry_newEntry (key v1 v2 : string) :
  updateEntry (newEntry key v1) v2 = newEntry key v2.
Proof. reflexivity. Qed.

Lemma Set_entries (d : Dictionary) (key value : string) :
  Set_ d key value = withEntries d (Entries (Set_ d key value)).
Proof.
  unfold Set_. destruct (updateFirst (ToLower key) value (Entries d)); reflexivity.
Qed.

Lemma Set_Set (d : Dictionary) (key v1 v2 : string) :
  Set_ (Set_ d key v1) key v2 = Set_ d key v2.
Proof.
  rewrite (Set_entries (Set_ d key v1) key v2), (Set_entries d key v2).
  assert (HF : forall es, withEntries (Set_ d key v1) es = withEntries d es).
  { intros es. rewrite (Set_entries d key v1). reflexivity. }
  rewrite HF. f_equal.
  destruct (Set_cases d key v1)
    as [(pre & e & post & E & Hpre & He & E1)|(Hall & E1)].
  - destruct (Set_cases d key v2)
      as [(pre2 & e2 & post2 & E' & Hpre2 & He2 & E2)|(Hall2 & E2)].
    + unfold Set_ at 1. rewrite E1.
      rewrite (updateFirst_app_first _ v2 pre post (updateEntry e v1) Hpre He).
      cbn [Entries withEntries]. rewrite updateEntry_twice.
      unfold Set_. rewrite E.
      rewrite (updateFirst_app_first _ v2 pre post e Hpre He). reflexivity.
    + exfalso. rewrite E in Hall2. apply Forall_app in Hall2.
      destruct Hall2 as [_ H]. inversion H; subst. congruence.
  - destruct (Set_cases d key v2)
      as [(pre2 & e2 & post2 & E' & Hpre2 & He2 & E2)|(Hall2 & E2)].
    + exfalso. rewrite E' in Hall. apply Forall_app in Hall.
      destruct Hall as [_ H]. inversion H; subst. congruence.
    + unfold Set_ at 1. rewrite E1.
      rewrite (updateFirst_app_first _ v2 (Entries d) [] (newEntry key v1) Hall).
      * cbn [Entries withEntries]. rewrite updateEntry_newEntry, E2. reflexivity.
      * unfold keyMatches. cbn [Key newEntry]. apply String.eqb_refl.
Qed.

Lemma Set_length (d : Dictionary) (key value : string) :
  List.length (Entries (Set_ d key value))
  = if KeyExists d key then List.length (Entries d)
    else S (List.length (Entries d)).
Proof.
  unfold KeyExists, findEntryCaseInsensitive.
  destruct (Set_cases d key value)
    as [(pre & e & post & E & Hpre & He & ->)|(Hall & ->)].
  - rewrite E, (find_app_first _ pre post e Hpre He).
    rewrite !length_app. reflexivity.
  - rewrite (find_none _ _ Hall), length_app. cbn [List.length]. lia.
Qed.

End SetTwice.

(** * Keys that differ in the case of letters *)

Section LetterCase.

Context {T : CaseTables}.

Local Open Scope list_scope.

Lemma sameLetter_lowerByte (x y : ascii) :
  sameLetter x y = true -> lowerByte x = lowerByte y.
Proof.
  unfold sameLetter. intros H.
  apply orb_true_iff in H. destruct H as [H|H].
  - apply orb_true_iff in H. destruct H as [H|H].
    + apply Ascii.eqb_eq in H. subst. reflexivity.
    + apply andb_true_iff in H. destruct H as [Hx Hy]. apply N.eqb_eq in Hy.
      apply N_of_ascii_inj. rewrite !N_of_lowerByte, Hx.
      unfold byteIn in *. apply andb_true_iff in Hx. destruct Hx as [H1 H2].
      apply N.leb_le in H1, H2.
      replace (N.leb 65 (N_of_ascii y) && N.leb (N_of_ascii y) 90) with false
        by (symmetry; apply andb_false_iff; right; apply N.leb_gt; lia).
      lia.
  - apply andb_true_iff in H. destruct H as [Hy Hx]. apply N.eqb_eq in Hx.
    apply N_of_ascii_inj. rewrite !N_of_lowerByte, Hy.
    unfold byteIn in *. apply andb_true_iff in Hy. destruct Hy as [H1 H2].
    apply N.leb_le in H1, H2.
    replace (N.leb 65 (N_of_ascii x) && N.leb (N_of_ascii x) 90) with false
      by (symmetry; apply andb_false_iff; right; apply N.leb_gt; lia).
    lia.
Qed.

Lemma sameLetter_ascii (x y : ascii) :
  sameLetter x y = true -> isASCIIByte y = true -> isASCIIByte x = true.
Proof.
  unfold sameLetter, isASCIIByte, byteIn. intros H Hy. apply N.ltb_lt in Hy.
  apply N.ltb_lt.
  apply orb_true_iff in H. destruct H as [H|H].
  - apply orb_true_iff in H. destruct H as [H|H].
    + apply Ascii.eqb_eq in H. subst. exact Hy.
    + apply andb_true_iff in H. destruct H as [Hx _].
      apply andb_true_iff in Hx. destruct Hx as [_ H2]. apply N.leb_le in H2. lia.
  - apply andb_true_iff in H. destruct H as [Hl Hx]. apply N.eqb_eq in Hx.
    apply andb_true_iff in Hl. destruct Hl as [_ H2]. apply N.leb_le in H2. lia.
Qed.

Lemma sameLetters_lowerBytes (a b : string) :
  sameLetters a b = true -> lowerBytes a = lowerBytes b.
Proof.
  revert b. induction a as [|x a IH]; intros [|y b] H; try discriminate;
    [reflexivity|].
  cbn [sameLetters] in H. apply andb_true_iff in H. destruct H as [Hx Ha].
  cbn [lowerBytes]. rewrite (sameLetter_lowerByte x y Hx), (IH b Ha). reflexivity.
Qed.

Lemma sameLetters_ascii (a b : string) :
  sameLetters a b = true -> allBytes isASCIIByte b = true ->
  allBytes isASCIIByte a = true.
Proof.
  revert b. induction a as [|x a IH]; intros [|y b] H Hb; try discriminate;
    [reflexivity|].
  cbn [sameLetters] in H. apply andb_true_iff in H. destruct H as [Hx Ha].
  cbn [allBytes] in *. apply andb_true_iff in Hb. destruct Hb as [Hy Hb].
  rewrite (sameLetter_ascii x y Hx Hy), (IH b Ha Hb). reflexivity.
Qed.

(** A key of bytes below 0x80 matches every key that differs from it in
    the case of letters only. *)
Lemma keyEq_sameLetters (a b : string) :
  allBytes isASCIIByte b = true -> sameLetters a b = true -> keyEq a b = true.
Proof.
  intros Hb H. unfold keyEq.
  rewrite (ToLower_ascii a (sameLetters_ascii a b H Hb)), (ToLower_ascii b Hb),
    (sameLetters_lowerBytes a b H).
  apply String.eqb_refl.
Qed.

Lemma lowerByte_sameLetter (x y : ascii) :
  lowerByte x = lowerByte y -> sameLetter x y = true.
Proof.
  intros H. apply (f_equal N_of_ascii) in H. rewrite !N_of_lowerByte in H.
  unfold sameLetter.
  destruct (byteIn 65 90 x) eqn:Ux; destruct (byteIn 65 90 y) eqn:Uy.
  - assert (E : N_of_ascii x = N_of_ascii y) by lia.
    apply N_of_ascii_inj in E. subst. rewrite Ascii.eqb_refl. reflexivity.
  - cbn [andb]. rewrite <- H, N.eqb_refl. rewrite orb_true_r. reflexivity.
  - cbn [andb]. rewrite H, N.eqb_refl. rewrite orb_true_r. reflexivity.
  - apply N_of_ascii_inj in H. subst. rewrite Ascii.eqb_refl. reflexivity.
Qed.

Lemma lowerBytes_sameLetters (a b : string) :
  lowerBytes a = lowerBytes b -> sameLetters a b = true.
Proof.
  revert b. induction a as [|x a IH]; intros [|y b] H; try discriminate;
    [reflexivity|].
  cbn [lowerBytes] in H. inversion H as [[Hx Ha]].
  cbn [sameLetters]. rewrite (lowerByte_sameLetter x y Hx), (IH b Ha). reflexivity.
Qed.

(** Between keys of bytes below 0x80 the comparison of
    [findEntryCaseInsensitive] is equality up to the case of letters. *)
Lemma keyEq_ascii (a b : string) :
  allBytes isASCIIByte a = true -> allBytes isASCIIByte b = true ->
  keyEq a b = sameLetters a b.
Proof.
  intros Ha Hb. destruct (sameLetters a b) eqn:E.
  - apply keyEq_sameLetters; assumption.
  - unfold keyEq. rewrite (ToLower_ascii a Ha), (ToLower_ascii b Hb).
    apply String.eqb_neq. intros H. apply lowerBytes_sameLetters in H. congruence.
Qed.

(** A key that is not empty matches no empty key. *)
Lemma keyEq_nonempty (a key : string) :
  key <> EmptyString -> keyEq a key = true -> isEmpty a = false.
Proof.
  intros Hk H. destruct a; [|reflexivity]. exfalso. apply Hk.
  unfold keyEq in H. apply String.eqb_eq in H.
  apply ToLower_empty. symmetry. exact H.
Qed.

(** [Add] fails exactly when [findEntryCaseInsensitive] finds an entry. *)
Lemma Add_existsb (d : Dictionary) (key value : string) :
  Add d key value
  = if existsb (fun e => keyEq (Key e) key) (Entries d)
    then Err (DuplicateKeyError key)
    else Ok (withEntries d (Entries d ++ [newEntry key value])).
Proof.
  unfold Add, KeyExists, findEntryCaseInsensitive.
  induction (Entries d) as [|e es IH]; [reflexivity|].
  cbn [find existsb]. rewrite keyMatches_keyEq.
  destruct (keyEq (Key e) key); [reflexivity|].
  cbn [orb].
  destruct (find (keyMatches (ToLower key)) es);
    destruct (existsb (fun e0 => keyEq (Key e0) key) es); try discriminate;
    reflexivity.
Qed.

(** The long s: when it is its own lower case, as in the tables of
    package unicode, [strings.ToLower] leaves it as it is, while
    [strings.EqualFold] folds it to s by the table [asciiFold]. *)
Lemma ToLower_longS : lowerCase 383 = 383%N -> ToLower longS = longS.
Proof.
  intros H. unfold ToLower.
  change (allBytes isASCIIByte longS) with false. cbv iota.
  unfold Map, longS. cbn [mapScan].
  change (decoderune (String (ascii_of_N 197) (String (ascii_of_N 191) EmptyString)))
    with (383%N, 2).
  cbv zeta beta iota.
  unfold unicodeToLower. change (N.leb 383 127) with false. cbv iota.
  rewrite H. reflexivity.
Qed.

Lemma EqualFold_longS : EqualFold longS "s" = true.
Proof. vm_compute. reflexivity. Qed.

(** Three entries with the keys long s, s and S, and the key s: the
    comparison of [findEntryCaseInsensitive] passes the first entry, that
    of [Remove] stops at it. *)
Lemma long_s_entries (path : string) (e1 e2 e3 : Entry) :
  lowerCase 383 = 383%N ->
  Key e1 = longS -> Key e2 = "s" -> Key e3 = "S" ->
  let d := mkDictionary path [e1; e2; e3] in
  map (fun e => keyEq (Key e) "s") (Entries d) = [false; true; true]
  /\ map (fun e => EqualFold (Key e) "s") (Entries d) = [true; true; true]
  /\ Query d "s" = Ok (Value e2)
  /\ Entries (Set_ d "s" "3") = [e1; updateEntry e2 "3"; e3]
  /\ Remove d "s" = Ok (withEntries d [e2; e3]).
Proof.
  intros H K1 K2 K3 d.
  assert (HL : keyEq longS "s" = false).
  { unfold keyEq. rewrite (ToLower_longS H). reflexivity. }
  assert (M1 : keyMatches "s" e1 = false).
  { unfold keyMatches. rewrite K1. exact HL. }
  assert (M2 : keyMatches "s" e2 = true).
  { unfold keyMatches. rewrite K2. reflexivity. }
  split.
  { cbn [map Entries d]. rewrite K1, K2, K3, HL. reflexivity. }
  split.
  { cbn [map Entries d]. rewrite K1, K2, K3, EqualFold_longS. reflexivity. }
  split.
  { unfold Query, findEntryCaseInsensitive. change (ToLower "s") with "s".
    cbn [Entries d find]. rewrite M1, M2. reflexivity. }
  split.
  { unfold Set_. change (ToLower "s") with "s".
    cbn [Entries d updateFirst]. rewrite M1, M2. reflexivity. }
  unfold Remove. cbn [Entries d removeFirst]. rewrite K1, EqualFold_longS.
  reflexivity.
Qed.

End LetterCase.
(** * The properties of the specification *)

Section Claims.

Context {T : CaseTables}.

Local Open Scope list_scope.

(** C1 (as the code has it).  [Save] and [Print] write each line of a
    loaded file from that line alone: after one key has been changed with
    [Set], every line other than the one [Set] wrote is written as it
    would be written without the [Set]; and what is written is the line
    byte for byte when the line is empty, a comment, or an assignment in
    canonical form with or without an inline comment. *)
Theorem C1_other_lines_are_written_as_before
        (path : string) (lines : list string) (key value : string)
        (i : nat) (l : string) :
  nth_error lines i = Some l ->
  i <> findIndex (ToLower key) (map parseLine lines) ->
  let d := mkDictionary path (map parseLine lines) in
  nth_error (map saveLine (Entries (Set_ d key value))) i
    = Some (saveLine (parseLine l))
  /\ nth_error (map printLine (Entries (Set_ d key value))) i
     = Some (printLine (parseLine l))
  /\ (preservedLine l ->
      saveLine (parseLine l) = l /\ printLine (parseLine l) = l).
Proof.
  intros Hl Hi d.
  assert (He : nth_error (Entries (Set_ d key value)) i = Some (parseLine l)).
  { rewrite (Set_frame d key value i Hi). unfold d. cbn [Entries].
    rewrite nth_error_map, Hl. reflexivity. }
  split; [rewrite nth_error_map, He; reflexivity|].
  split; [rewrite nth_error_map, He; reflexivity|].
  apply preservedLine_fix.
Qed.

(** C2 (as the code has it).  A file whose lines are written with a line
    feed after each, are returned by the scanner as they stand, and are
    each empty, a comment, or an assignment in canonical form without
    inline comment, whose key is well formed and whose value does not end
    in a backslash, is loaded, and saving it to the same path writes the
    bytes it had. *)
Theorem C2_load_save_round_trip
        (fs : filesystem) (path : string) (lines : list string) :
  fs path = Regular (unlines lines) ->
  Forall roundTripLine lines ->
  Forall scannedAsIs lines ->
  exists d fs',
    LoadDictionary path fs = Ok d
    /\ Save d path fs = (fs', None)
    /\ fs' path = Regular (unlines lines).
Proof.
  intros Hfs Hrt Hs.
  assert (Hp : Forall preservedLine lines).
  { eapply Forall_impl; [|exact Hrt]. apply roundTripLine_preserved. }
  destruct (load_save_preserved fs path lines Hfs Hp Hs) as [HL HS].
  exists (mkDictionary path (map parseLine lines)), (writeFile fs path (unlines lines)).
  split; [exact HL|]. split; [exact HS|]. apply writeFile_same.
Qed.

(** C3. Keys are compared without regard to case and keep the case they
    were first written in.  On a document with no entry for foo in any
    case, adding foo with value 1 succeeds and a query for FOO returns 1;
    setting Foo to 2 afterwards updates that entry in place, so the
    document has as many entries as before, the stored key is still foo
    and the line written for it spells foo. *)
Theorem C3_case_insensitive_identity (d : Dictionary) :
  Forall (fun e => keyEq (Key e) "foo" = false) (Entries d) ->
  exists d1,
    Add d "foo" "1" = Ok d1
    /\ Query d1 "FOO" = Ok "1"
    /\ Entries (Set_ d1 "Foo" "2")
       = Entries d ++ [mkEntry ("foo = " ++ Q ++ "2" ++ Q)%string "foo" "2"
                               EmptyString EmptyString false false]
    /\ List.length (Entries (Set_ d1 "Foo" "2")) = List.length (Entries d1)
    /\ saveBytes (Set_ d1 "Foo" "2")
       = (saveBytes d ++ "foo = " ++ Q ++ "2" ++ Q ++ NL)%string
    /\ Query (Set_ d1 "Foo" "2") "FOO" = Ok "2".
Proof.
  intros Hall.
  assert (Hm : Forall (fun x => keyMatches "foo" x = false) (Entries d)) by exact Hall.
  exists (withEntries d (Entries d ++ [newEntry "foo" "1"])).
  assert (HSet : Entries (Set_ (withEntries d (Entries d ++ [newEntry "foo" "1"]))
                               "Foo" "2")
                 = Entries d ++ [mkEntry ("foo = " ++ Q ++ "2" ++ Q)%string "foo" "2"
                                         EmptyString EmptyString false false]).
  { unfold Set_. cbn [Entries withEntries].
    change (ToLower "Foo") with "foo".
    rewrite (updateFirst_app_first "foo" "2" (Entries d) [] (newEntry "foo" "1") Hm eq_refl).
    reflexivity. }
  split.
  { unfold Add, KeyExists, findEntryCaseInsensitive.
    change (ToLower "foo") with "foo". rewrite (find_none "foo" _ Hm). reflexivity. }
  split.
  { unfold Query, findEntryCaseInsensitive. cbn [Entries withEntries].
    change (ToLower "FOO") with "foo".
    rewrite (find_app_first "foo" (Entries d) [] (newEntry "foo" "1") Hm eq_refl).
    reflexivity. }
  split; [exact HSet|].
  split.
  { rewrite HSet. cbn [Entries withEntries]. rewrite !length_app. reflexivity. }
  split.
  { unfold saveBytes. rewrite HSet, map_app, unlines_app. reflexivity. }
  unfold Query, findEntryCaseInsensitive. rewrite HSet.
  change (ToLower "FOO") with "foo".
  erewrite find_app_first; [reflexivity | exact Hm | reflexivity].
Qed.

(** C4 (as the code has it).  For every document and every key that is
    not empty, [Add] fails with the duplicate key error exactly when an
    entry with a key, not a comment or blank line, has the key up to
    case, that is, when the lower-cased keys are equal; where the key and
    the stored keys are made of bytes below 0x80 this is so exactly when
    a stored key differs from the key in the case of letters at most.
    Otherwise [Add] appends one entry, without inline comment, whose line
    is the canonical quoted form.  A second [Add] of the same key fails,
    and [Set] with that key succeeds whether or not the key was there. *)
Theorem C4_add_rejects_duplicates (d : Dictionary) (key value value' : string) :
  key <> EmptyString ->
  Add d key value
  = (if existsb (fun e => negb (isEmpty (Key e)) && keyEq (Key e) key) (Entries d)
     then Err (DuplicateKeyError key)
     else Ok (withEntries d
                (Entries d
                 ++ [mkEntry (key ++ " = " ++ Q ++ escapeQuotes value ++ Q)%string
                             key value EmptyString EmptyString false false])))
  /\ (allBytes isASCIIByte key = true ->
      Forall (fun e => allBytes isASCIIByte (Key e) = true) (Entries d) ->
      (Add d key value = Err (DuplicateKeyError key)
       <-> exists e, In e (Entries d) /\ sameLetters (Key e) key = true))
  /\ Add (withEntries d (Entries d ++ [newEntry key value])) key value'
     = Err (DuplicateKeyError key)
  /\ Query (Set_ d key value') key = Ok value'
  /\ Query (Set_ (withEntries d (Entries d ++ [newEntry key value])) key value') key
     = Ok value'.
Proof.
  intros Hkey.
  split.
  { rewrite Add_existsb.
    replace (existsb (fun e => negb (isEmpty (Key e)) && keyEq (Key e) key)
                     (Entries d))
      with (existsb (fun e => keyEq (Key e) key) (Entries d)); [reflexivity|].
    induction (Entries d) as [|e es IH]; [reflexivity|].
    cbn [existsb]. rewrite IH. f_equal.
    destruct (keyEq (Key e) key) eqn:E; [|rewrite andb_false_r; reflexivity].
    rewrite (keyEq_nonempty (Key e) key Hkey E). reflexivity. }
  split.
  { intros Hascii Hall. rewrite Add_existsb.
    destruct (existsb (fun e => keyEq (Key e) key) (Entries d)) eqn:E.
    - split; [intros _ | reflexivity].
      apply existsb_exists in E. destruct E as (e & Hin & He).
      exists e. split; [exact Hin|].
      rewrite Forall_forall in Hall.
      rewrite <- (keyEq_ascii (Key e) key (Hall e Hin) Hascii). exact He.
    - split; [discriminate|]. intros (e & Hin & He). exfalso.
      assert (Ht : existsb (fun e0 => keyEq (Key e0) key) (Entries d) = true).
      { apply existsb_exists. exists e. split; [exact Hin|].
        apply keyEq_sameLetters; assumption. }
      congruence. }
  split.
  { unfold Add, KeyExists, findEntryCaseInsensitive. cbn [Entries withEntries].
    destruct (find (keyMatches (ToLower key)) (Entries d ++ [newEntry key value]))
      eqn:F; [reflexivity|].
    apply find_none_Forall in F. apply Forall_app in F. destruct F as [_ F].
    inversion F as [|x l Hx _]; subst. unfold keyMatches in Hx. simpl in Hx.
    rewrite String.eqb_refl in Hx. discriminate. }
  split; apply Query_Set.
Qed.

(** C5 (the code at the input where it departs from the property).  A
    file that holds one comment line has no entry for the empty key, yet
    [Query] with the empty key succeeds, and [Remove] with the empty key
    succeeds and deletes the comment line.  Loading a path that names
    nothing gives a dictionary without entries. *)
Theorem C5_empty_key_reaches_comment_line :
  exists d,
    LoadDictionary "test.vmx" (oneFile "test.vmx" ("# note" ++ NL)) = Ok d
    /\ Entries d = [mkEntry "# note" EmptyString EmptyString EmptyString
                            EmptyString true false]
    /\ Query d EmptyString = Ok EmptyString
    /\ Remove d EmptyString = Ok (withEntries d [])
    /\ LoadDictionary "new.vmx" (oneFile "test.vmx" ("# note" ++ NL))
       = Ok (mkDictionary "new.vmx" []).
Proof.
  eexists. split; [vm_compute; reflexivity|].
  repeat split; vm_compute; reflexivity.
Qed.

(** C6. The value a, double quote, b is written to the file as a,
    backslash, double quote, b between double quotes, and is read back as
    it was: for a well formed key that the file does not have yet, [Add],
    [Save], [LoadDictionary] and [Query] succeed, the file ends with the
    line of the key, and [Query] returns the value. *)
Theorem C6_quote_in_value_round_trip
        (fs : filesystem) (path : string) (lines : list string) (key : string) :
  fileLoads fs path lines ->
  Forall (fun l => keyEq (Key (parseLine l)) key = false) lines ->
  Forall (fun l => fits (saveLine (parseLine l)) = true) lines ->
  wfKey key ->
  Contains key LF = false ->
  fits (canonicalLine key ("a" ++ Q ++ "b")) = true ->
  exists d d1 fs' d2,
    LoadDictionary path fs = Ok d
    /\ Add d key ("a" ++ Q ++ "b") = Ok d1
    /\ Save d1 path fs = (fs', None)
    /\ fs' path
       = Regular (saveBytes d
                  ++ key ++ " = " ++ Q ++ "a" ++ BS ++ Q ++ "b" ++ Q ++ NL)%string
    /\ LoadDictionary path fs' = Ok d2
    /\ Query d2 key = Ok ("a" ++ Q ++ "b")%string.
Proof.
  intros Hfile Habs Hfits Hk Hlf Hfit.
  destruct (add_round_trip fs path lines key ("a" ++ Q ++ "b")%string
                           Hfile Habs Hfits Hk)
    as (d & d1 & fs' & d2 & H1 & H2 & H3 & H4 & H5 & H6).
  - vm_compute. discriminate.
  - apply canonicalLine_scannedAsIs; [exact Hlf | reflexivity | exact Hfit].
  - exists d, d1, fs', d2. repeat (split; [assumption|]).
    split; [|split; assumption].
    rewrite H4. unfold canonicalLine.
    change (escapeQuotes ("a" ++ Q ++ "b")) with ("a" ++ BS ++ Q ++ "b")%string.
    rewrite !append_assoc. reflexivity.
Qed.

(** C7. When [Set] finds the key, it updates the value of that entry in
    place, writes its line anew in canonical quoted form, and appends the
    inline comment space and inline comment the entry had: the line that
    [Save] writes for the entry, and the one [Print] prints, end with the
    new quoted value followed by that space and that comment. *)
Theorem C7_set_keeps_inline_comment (d : Dictionary) (key value : string)
        (e : Entry) :
  findEntryCaseInsensitive d key = Some e ->
  IsBlank e = false -> IsComment e = false -> Key e <> EmptyString ->
  exists pre post e',
    Entries d = pre ++ e :: post
    /\ Entries (Set_ d key value) = pre ++ e' :: post
    /\ Value e' = value
    /\ Key e' = Key e
    /\ InlineComment e' = InlineComment e
    /\ InlineCommentSpace e' = InlineCommentSpace e
    /\ Original e'
       = (Key e ++ " = " ++ Q ++ escapeQuotes value ++ Q ++ inlineSuffix e)%string
    /\ (exists keyPart,
           saveLine e'
           = (keyPart ++ " = " ++ Q ++ escapeQuotes value ++ Q
              ++ inlineSuffix e)%string)
    /\ printLine e'
       = (Key e ++ " = " ++ Q ++ escapeQuotes value ++ Q ++ inlineSuffix e)%string
    /\ (InlineComment e <> EmptyString ->
        inlineSuffix e = (InlineCommentSpace e ++ InlineComment e)%string).
Proof.
  intros F Hb Hc Hk.
  destruct (find_split _ _ _ F) as (pre & post & E & Hpre & He).
  exists pre, post, (updateEntry e value).
  apply isEmpty_false in Hk.
  split; [exact E|].
  split.
  { unfold Set_. rewrite E, (updateFirst_app_first _ value pre post e Hpre He).
    reflexivity. }
  repeat (split; [reflexivity|]).
  assert (HO : Original (updateEntry e value)
               = (Key e ++ " = " ++ Q ++ escapeQuotes value ++ Q
                  ++ inlineSuffix e)%string).
  { unfold updateEntry, inlineSuffix. cbn [Original].
    destruct (isEmpty (InlineComment e)); cbn [negb];
      rewrite ?append_assoc, ?append_nil_r; reflexivity. }
  split; [exact HO|].
  split; [|split].
  - exists (if Contains (Original (updateEntry e value)) equals
            then TrimRight (nth 0 (SplitN2 (Original (updateEntry e value)) equals)
                                EmptyString) spaceOrTab
            else Key e).
    unfold saveLine, inlineSuffix.
    change (IsBlank (updateEntry e value)) with (IsBlank e).
    change (IsComment (updateEntry e value)) with (IsComment e).
    change (Key (updateEntry e value)) with (Key e).
    change (Value (updateEntry e value)) with value.
    change (InlineComment (updateEntry e value)) with (InlineComment e).
    change (InlineCommentSpace (updateEntry e value)) with (InlineCommentSpace e).
    rewrite Hb, Hc, Hk. cbn [negb].
    destruct (Contains (Original (updateEntry e value)) equals);
      destruct (isEmpty (InlineComment e)); cbn [negb];
      rewrite ?append_assoc, ?append_nil_r; reflexivity.
  - unfold printLine, inlineSuffix.
    change (IsBlank (updateEntry e value)) with (IsBlank e).
    change (IsComment (updateEntry e value)) with (IsComment e).
    change (Key (updateEntry e value)) with (Key e).
    change (Value (updateEntry e value)) with value.
    change (InlineComment (updateEntry e value)) with (InlineComment e).
    change (InlineCommentSpace (updateEntry e value)) with (InlineCommentSpace e).
    rewrite Hb, Hc, Hk. cbn [negb].
    destruct (isEmpty (InlineComment e)); cbn [negb];
      rewrite ?append_assoc, ?append_nil_r; reflexivity.
  - intros Hi. apply isEmpty_false in Hi. unfold inlineSuffix. rewrite Hi.
    reflexivity.
Qed.

(** C8. Reading a line never fails and gives exactly one of the three
    kinds blank, comment and assignment, keeping the text of the line; a
    line that is not blank, does not start with a hash and has no equals
    sign is a comment whose text is the line as it was. *)
Theorem C8_line_parsing_is_total (raw : string) :
  Original (parseLine raw) = raw
  /\ (exists k, hasKind (parseLine raw) k
                /\ forall k', hasKind (parseLine raw) k' -> k' = k)
  /\ (isEmpty (TrimSpace raw) = false ->
      HasPrefix (TrimSpace raw) "#" = false ->
      Contains raw equals = false ->
      hasKind (parseLine raw) Comment
      /\ parseLine raw
         = mkEntry raw EmptyString EmptyString EmptyString EmptyString true false).
Proof.
  split; [apply parseLine_Original|].
  split.
  - destruct (parseLine_kind raw) as [H|[H|H]];
      [exists Blank | exists Comment | exists Assignment];
      (split; [exact H|]);
      intros [| |] H'; simpl in H, H'; try reflexivity;
      destruct H as (? & ? & ?) || destruct H as (? & ?);
      destruct H' as (? & ? & ?) || destruct H' as (? & ?); congruence.
  - intros Hne _ Heq. rewrite (parseLine_no_equals raw Heq Hne).
    simpl. auto.
Qed.

(** C9 (the code at the input where it departs from the property).
    Loading keeps every line as an entry of its own, also lines with the
    same key.  But [Query] and [Set] compare the lower-cased keys while
    [Remove] compares with [strings.EqualFold], and the long s, which is
    its own lower case, folds to s.  In the file with the keys long s, s
    and S, in this order, the keys s and S are the same key for both
    comparisons; with the key s, [Query] reads and [Set] writes the
    second line, and [Remove] deletes the first, so the three do not work
    on the same first entry. *)
Theorem C9_remove_and_query_disagree_on_first_entry :
  lowerCase 383 = 383%N ->
  let data := (longS ++ " = " ++ Q ++ "0" ++ Q ++ NL
               ++ "s = " ++ Q ++ "1" ++ Q ++ NL
               ++ "S = " ++ Q ++ "2" ++ Q ++ NL)%string in
  exists d,
    LoadDictionary "test.vmx" (oneFile "test.vmx" data) = Ok d
    /\ map Key (Entries d) = [longS; "s"; "S"]
    /\ map Value (Entries d) = ["0"; "1"; "2"]
    /\ map (fun e => keyEq (Key e) "s") (Entries d) = [false; true; true]
    /\ map (fun e => EqualFold (Key e) "s") (Entries d) = [true; true; true]
    /\ Query d "s" = Ok "1"
    /\ map Value (Entries (Set_ d "s" "3")) = ["0"; "3"; "2"]
    /\ exists d',
        Remove d "s" = Ok d'
        /\ map Key (Entries d') = ["s"; "S"]
        /\ map Value (Entries d') = ["1"; "2"].
Proof.
  intros H data.
  set (e1 := parseLine (longS ++ " = " ++ Q ++ "0" ++ Q)%string).
  set (e2 := parseLine ("s = " ++ Q ++ "1" ++ Q)%string).
  set (e3 := parseLine ("S = " ++ Q ++ "2" ++ Q)%string).
  destruct (long_s_entries "test.vmx" e1 e2 e3 H eq_refl eq_refl eq_refl)
    as (HK & HF & HQ & HS & HR).
  exists (mkDictionary "test.vmx" [e1; e2; e3]).
  split; [vm_compute; reflexivity|].
  split; [reflexivity|]. split; [reflexivity|].
  split; [exact HK|]. split; [exact HF|].
  split; [exact HQ|].
  split; [rewrite HS; reflexivity|].
  exists (withEntries (mkDictionary "test.vmx" [e1; e2; e3]) [e2; e3]).
  split; [exact HR|]. split; reflexivity.
Qed.

(** C10 (as the code has it).  A value without backslash and without line
    feed is read back as it was added: for a well formed key without line
    feed that the file does not have yet, when the lines that [Save]
    writes fit the buffer of the scanner, [Add], [Save], [LoadDictionary]
    and [Query] succeed and [Query] returns the value. *)
Theorem C10_value_round_trip
        (fs : filesystem) (path : string) (lines : list string)
        (key value : string) :
  fileLoads fs path lines ->
  Forall (fun l => keyEq (Key (parseLine l)) key = false) lines ->
  Forall (fun l => fits (saveLine (parseLine l)) = true) lines ->
  wfKey key ->
  Contains key LF = false ->
  Contains value backslash = false ->
  Contains value LF = false ->
  fits (canonicalLine key value) = true ->
  exists d d1 fs' d2,
    LoadDictionary path fs = Ok d
    /\ Add d key value = Ok d1
    /\ Save d1 path fs = (fs', None)
    /\ LoadDictionary path fs' = Ok d2
    /\ Query d2 key = Ok value.
Proof.
  intros Hfile Habs Hfits Hk Hklf Hbs Hlf Hfit.
  destruct (add_round_trip fs path lines key value Hfile Habs Hfits Hk)
    as (d & d1 & fs' & d2 & H1 & H2 & H3 & H4 & H5 & H6).
  - apply lastByte_Contains. exact Hbs.
  - apply canonicalLine_scannedAsIs; assumption.
  - exists d, d1, fs', d2. repeat (split; [assumption|]). assumption.
Qed.

(** A value that ends in a backslash is not read back: the backslash
    hides the closing quote. *)
Lemma backslash_at_end_is_not_read_back :
  let fs : filesystem := fun _ => Absent in
  let value := ("a" ++ BS)%string in
  exists d d1 fs' d2,
    LoadDictionary "new.vmx" fs = Ok d
    /\ Add d "annotation" value = Ok d1
    /\ Save d1 "new.vmx" fs = (fs', None)
    /\ LoadDictionary "new.vmx" fs' = Ok d2
    /\ Query d2 "annotation" = Ok (Q ++ "a" ++ BS ++ Q)%string.
Proof.
  intros fs value. do 4 eexists.
  split; [reflexivity|]. split; [reflexivity|]. split; [reflexivity|].
  split; vm_compute; reflexivity.
Qed.

End Claims.

(** * Further properties of the code *)

Section Extras.

Context {T : CaseTables}.

(** X1. [findClosingQuote] returns the index of the first double quote
    at or after the start index that has no backslash right before it:
    the index is inside the string, the byte there is a double quote, no
    backslash precedes it, and every double quote between the start index
    and it has a backslash before it.  When it returns -1 (here [None]),
    every double quote from the start index on has a backslash before
    it. *)
Theorem X1_findClosingQuote_first_unescaped_quote (s : string) (startIdx : nat) :
  match findClosingQuote s startIdx with
  | Some k =>
      startIdx <= k < String.length s
      /\ byteAtIs s k dquote = true
      /\ escapedAt s k = false
      /\ forall j, startIdx <= j < k ->
                   byteAtIs s j dquote = true -> escapedAt s j = true
  | None =>
      forall j, startIdx <= j ->
                byteAtIs s j dquote = true -> escapedAt s j = true
  end.
Proof.
  unfold findClosingQuote.
  destruct (findClosingQuoteLoop s (String.length s - startIdx) startIdx)
    as [k|] eqn:F.
  - destruct (findClosingQuoteLoop_Some s _ _ _ F) as (Hr & Hq & He & Hf).
    pose proof (byteAtIs_length s k dquote Hq) as Hlen.
    split; [lia|]. split; [exact Hq|]. split; [exact He | exact Hf].
  - intros j Hj Hq.
    pose proof (byteAtIs_length s j dquote Hq) as Hlen.
    apply (findClosingQuoteLoop_None s _ _ F j); [lia | exact Hq].
Qed.

(** X2. [unescapeQuotes] undoes [escapeQuotes] for every value.  In the
    text that [Save] writes for a value, a double quote, the escaped
    value and a double quote, [findClosingQuote] finds the last quote as
    the closing one, whatever follows it, when the value does not end in
    a backslash; when the value ends in a backslash it finds no closing
    quote at all. *)
Theorem X2_escaped_value_is_delimited (value tail : string) :
  unescapeQuotes (escapeQuotes value) = value
  /\ (lastByte value <> Some backslash ->
      findClosingQuote (Q ++ escapeQuotes value ++ Q ++ tail) 1
      = Some (S (String.length (escapeQuotes value))))
  /\ (lastByte value = Some backslash ->
      findClosingQuote (Q ++ escapeQuotes value ++ Q) 1 = None).
Proof.
  split; [apply unescape_escape|]. split.
  - apply findClosingQuote_quoted.
  - apply findClosingQuote_hidden.
Qed.


(** X4. [parseKeyValue] fails with the invalid format error exactly when
    its argument has no equals sign, and with the empty key error exactly
    when the text before the first equals sign is white space only.  When
    it succeeds, the key is the trimmed text before the first equals
    sign: it is not empty, has no white space at its ends and no equals
    sign, and a byte that does not occur in the argument occurs neither
    in the key nor in the value. *)
Theorem X4_parseKeyValue_keys_and_errors (kv : string) :
  (parseKeyValue kv = KVError InvalidFormat <-> Contains kv equals = false)
  /\ (parseKeyValue kv = KVError EmptyKey
      <-> exists before after,
          Cut kv equals = Some (before, after)
          /\ TrimSpace before = EmptyString)
  /\ forall key value,
      parseKeyValue kv = KeyValue key value ->
      (exists before after,
          kv = before ++ String equals after
          /\ Contains before equals = false
          /\ key = TrimSpace before)
      /\ key <> EmptyString
      /\ TrimSpace key = key
      /\ Contains key equals = false
      /\ forall c, Contains kv c = false ->
                   Contains key c = false /\ Contains value c = false.
Proof.
  destruct (parseKeyValue_errors kv) as [H1 H2].
  split; [exact H1|]. split; [exact H2|].
  intros key value H.
  destruct (parseKeyValue_wfKey kv key value H) as (Hne & Htrim & Heq).
  destruct (parseKeyValue_KeyValue kv key value H)
    as (before & after & HC & Hkey & _ & _).
  split.
  { exists before, after. apply Cut_Some in HC. destruct HC as [E Hb].
    split; [exact E|]. split; [exact Hb | exact Hkey]. }
  split; [exact Hne|]. split; [exact Htrim|]. split; [exact Heq|].
  intros c Hc. exact (parseKeyValue_no_byte kv key value c H Hc).
Qed.

(** X5. What the tool writes is accepted as its argument: for a key that
    is not empty, has no white space at its ends and no equals sign, and
    for every value, [parseKeyValue] gives back the key and the value
    both from the canonical line that [Save] writes for them and from
    KEY=VALUE with the value between double quotes and its quotes
    escaped. *)
Theorem X5_parseKeyValue_reads_canonical_line (key value : string) :
  key <> EmptyString -> TrimSpace key = key -> Contains key equals = false ->
  parseKeyValue (canonicalLine key value) = KeyValue key value
  /\ parseKeyValue (key ++ "=" ++ Q ++ escapeQuotes value ++ Q)
     = KeyValue key value.
Proof.
  intros Hne Htrim Heq. split.
  - apply parseKeyValue_canonical; assumption.
  - apply parseKeyValue_quoted; assumption.
Qed.

Local Open Scope list_scope.

(** X6. Every entry of a dictionary that [LoadDictionary] returns keeps
    its line without line feed, and is well formed: a key that is not
    empty has no white space at its ends, no equals sign and no hash at
    its start, and belongs to an entry that is neither blank nor a
    comment; an inline comment starts with a hash and does not end in
    white space, the space before it has no hash, and an entry without
    inline comment has no inline comment space; a blank entry has a line
    of white space only.  The dictionary has the name of the file. *)
Theorem X6_loaded_entries_are_well_formed
        (filename : string) (fs : filesystem) (d : Dictionary) :
  LoadDictionary filename fs = Ok d ->
  Filename d = filename
  /\ Forall (fun e =>
               Contains (Original e) LF = false
               /\ (Key e <> EmptyString ->
                   wfKey (Key e) /\ IsBlank e = false /\ IsComment e = false)
               /\ inlineTail (InlineCommentSpace e) (InlineComment e)
               /\ (IsBlank e = true -> TrimSpace (Original e) = EmptyString))
            (Entries d).
Proof.
  assert (Hempty : Ok (mkDictionary filename []) = Ok d ->
                   Filename d = filename
                   /\ Forall (fun e =>
                        Contains (Original e) LF = false
                        /\ (Key e <> EmptyString ->
                            wfKey (Key e) /\ IsBlank e = false
                            /\ IsComment e = false)
                        /\ inlineTail (InlineCommentSpace e) (InlineComment e)
                        /\ (IsBlank e = true
                            -> TrimSpace (Original e) = EmptyString))
                       (Entries d)).
  { intros H. inversion H; subst. split; [reflexivity | constructor]. }
  unfold LoadDictionary.
  destruct (fs filename) as [| | |data|data] eqn:Hf;
    [exact Hempty | exact Hempty | discriminate | |].
  all: destruct (scanLines data) as [lines|] eqn:Hs; [|discriminate].
  all: intros H; inversion H; subst; (split; [reflexivity|]).
  all: cbn [Entries]; apply Forall_map.
  all: pose proof (scanLines_no_LF data lines Hs) as HLF.
  all: eapply Forall_impl; [|exact HLF]; intros l Hl.
  all: destruct (parseLine_shape l) as [Hflags Ht].
  all: (split; [rewrite parseLine_Original; exact Hl|]).
  all: (split;
        [intros Hk; split; [apply parseLine_wfKey; exact Hk | exact (Hflags Hk)]|]).
  all: (split; [exact Ht|]).
  all: rewrite parseLine_Original; unfold parseLine.
  all: destruct (isEmpty (TrimSpace l)) eqn:E;
    [intros _; destruct (TrimSpace l); [reflexivity | discriminate]|].
  all: destruct (HasPrefix (TrimSpace l) "#"); [discriminate|].
  all: destruct (SplitN2 (TrimSpace l) equals) as [|p0 [|p1 [|p2 ps]]];
    try discriminate.
  all: destruct (parseValue (TrimSpace p1)) as [[v c] g]; discriminate.
Qed.

(** X7. [Set] and [Add] touch one key only: for a key that differs from
    the key given, also when case is ignored, [Query] returns after
    [Set], and after an [Add] that succeeds, what it returned before. *)
Theorem X7_set_and_add_leave_other_keys
        (d : Dictionary) (key value key' : string) :
  keyEq key key' = false ->
  Query (Set_ d key value) key' = Query d key'
  /\ forall d1, Add d key value = Ok d1 -> Query d1 key' = Query d key'.
Proof.
  intros Hne. split.
  - apply Query_Set_other. exact Hne.
  - intros d1 HA. exact (Query_Add_other d d1 key value key' HA Hne).
Qed.

(** X8. [Remove] undoes [Add]: when [Add] succeeds for a key that no
    stored key folds to, removing the key from the result gives the
    dictionary as it was before, entry for entry. *)
Theorem X8_remove_undoes_add (d d1 : Dictionary) (key value : string) :
  Add d key value = Ok d1 ->
  Forall (fun e => EqualFold (Key e) key = false) (Entries d) ->
  EqualFold key key = true ->
  Remove d1 key = Ok d.
Proof. apply Remove_Add. Qed.

(** X9. The operations keep keys unique: when no two entries with a key
    have the same key up to case, the same holds after [Set], after an
    [Add] that succeeds and after a [Remove] that succeeds. *)
Theorem X9_operations_keep_keys_unique
        (d : Dictionary) (key value : string) :
  uniqueKeys d ->
  uniqueKeys (Set_ d key value)
  /\ (forall d1, Add d key value = Ok d1 -> uniqueKeys d1)
  /\ (forall d1, Remove d key = Ok d1 -> uniqueKeys d1).
Proof.
  intros Hu. split; [apply uniqueKeys_Set; exact Hu|]. split.
  - intros d1 HA. exact (uniqueKeys_Add d d1 key value Hu HA).
  - intros d1 HR. exact (uniqueKeys_Remove d d1 key Hu HR).
Qed.

(** X10. What [Save] writes is a normal form: when the lines of a file
    do not end in a carriage return and no value read from them ends in a
    backslash, loading the file, saving it, loading what was saved and
    saving again writes the same bytes the second time as the first
    (as long as the scanner can read the saved lines). *)
Theorem X10_saving_twice_writes_the_same
        (fs : filesystem) (path : string) (lines : list string) :
  fileLoads fs path lines ->
  Forall (fun l => dropCR l = l) lines ->
  Forall (fun l => lastByte (Value (parseLine l)) <> Some backslash) lines ->
  Forall (fun l => fits (saveLine (parseLine l)) = true) lines ->
  exists d fs1 d1 fs2,
    LoadDictionary path fs = Ok d
    /\ Save d path fs = (fs1, None)
    /\ LoadDictionary path fs1 = Ok d1
    /\ Save d1 path fs1 = (fs2, None)
    /\ fs2 path = fs1 path
    /\ saveBytes d1 = saveBytes d.
Proof. apply save_normal_form. Qed.

(** X11. [run] writes one file or nothing: either the file system is
    after the run as it was before, or the command was add, set or remove
    with two arguments, the run ended with exit code 0 and without
    output, and the file named by the first argument, and no other, has
    been written with the lines of a dictionary. *)
Theorem X11_run_writes_one_file_or_nothing
        (env : Environment) (args : list string) (fs : filesystem) :
  let '(code, out, fs') := run env args fs in
  fs' = fs
  \/ (code = 0 /\ out = EmptyString
      /\ exists prog command filename arg d,
          args = [prog; command; filename; arg]
          /\ (command = "add" \/ command = "set" \/ command = "remove")
          /\ fs filename <> Denied
          /\ fs' = writeFile fs filename (saveBytes d)).
Proof.
  destruct args as [|prog [|command rest]]; [left; reflexivity..|].
  unfold run.
  destruct (String.eqb command "help"); [left; reflexivity|].
  destruct (String.eqb command "version"); [left; reflexivity|].
  destruct (String.eqb command "print").
  { destruct rest as [|filename [|x r]]; [left; reflexivity | | left; reflexivity].
    unfold runPrint. destruct (LoadDictionary filename fs); left; reflexivity. }
  destruct (String.eqb command "add") eqn:Eadd.
  { apply String.eqb_eq in Eadd.
    destruct rest as [|filename [|kv [|x r]]]; [left; reflexivity.. | | left; reflexivity].
    unfold runAdd. destruct (parseKeyValue kv) as [key value|e]; [|left; reflexivity].
    destruct (LoadDictionary filename fs) as [dict|e]; [|left; reflexivity].
    destruct (KeyExists dict key); [left; reflexivity|].
    destruct (Add dict key value) as [dict'|e]; [|left; reflexivity].
    unfold Save. destruct (canCreate fs filename) eqn:Hf; [|left; reflexivity];
      (right; split; [reflexivity|]; split; [reflexivity|];
       exists prog, command, filename, kv, dict';
       split; [reflexivity|]; split; [left; exact Eadd|];
       split; [intros E; unfold canCreate in Hf; rewrite E in Hf; discriminate
              | reflexivity]). }
  destruct (String.eqb command "set") eqn:Eset.
  { apply String.eqb_eq in Eset.
    destruct rest as [|filename [|kv [|x r]]]; [left; reflexivity.. | | left; reflexivity].
    unfold runSet. destruct (parseKeyValue kv) as [key value|e]; [|left; reflexivity].
    destruct (LoadDictionary filename fs) as [dict|e]; [|left; reflexivity].
    unfold Save. destruct (canCreate fs filename) eqn:Hf; [|left; reflexivity];
      (right; split; [reflexivity|]; split; [reflexivity|];
       exists prog, command, filename, kv, (Set_ dict key value);
       split; [reflexivity|]; split; [right; left; exact Eset|];
       split; [intros E; unfold canCreate in Hf; rewrite E in Hf; discriminate
              | reflexivity]). }
  destruct (String.eqb command "remove") eqn:Erem.
  { apply String.eqb_eq in Erem.
    destruct rest as [|filename [|key [|x r]]]; [left; reflexivity.. | | left; reflexivity].
    unfold runRemove.
    destruct (LoadDictionary filename fs) as [dict|e]; [|left; reflexivity].
    destruct (Remove dict key) as [dict'|e]; [|left; reflexivity].
    unfold Save. destruct (canCreate fs filename) eqn:Hf; [|left; reflexivity];
      (right; split; [reflexivity|]; split; [reflexivity|];
       exists prog, command, filename, key, dict';
       split; [reflexivity|]; split; [right; right; exact Erem|];
       split; [intros E; unfold canCreate in Hf; rewrite E in Hf; discriminate
              | reflexivity]). }
  destruct (String.eqb command "query").
  { destruct rest as [|filename [|key [|x r]]]; [left; reflexivity.. | | left; reflexivity].
    unfold runQuery.
    destruct (LoadDictionary filename fs) as [dict|e]; [|left; reflexivity].
    destruct (Query dict key); left; reflexivity. }
  left; reflexivity.
Qed.

(** X12. The command add, then the command query, on a file that can be
    read and written, or on a path that names nothing and at which a file
    can be created.  When [parseKeyValue] reads a key and a value from
    the argument, the key does not start with a hash, no line of the
    file has a key with the same lower case, the argument has no line
    feed, the value does not end in a backslash, and the lines that
    [Save] writes for the lines of the file and the canonical line for
    the key and the value are each shorter than 64 KiB, then add exits
    with 0, prints nothing and appends the canonical line to what [Save]
    writes for the lines of the file, leaving every other file alone;
    after it, query with a key of the same lower case exits with 0 and
    prints the value. *)
Theorem X12_run_add_then_query
        (env : Environment) (prog path kv key value key' : string)
        (fs : filesystem) (lines : list string) :
  fileLoads fs path lines ->
  parseKeyValue kv = KeyValue key value ->
  HasPrefix key "#" = false ->
  Contains kv LF = false ->
  lastByte value <> Some backslash ->
  Forall (fun l => keyEq (Key (parseLine l)) key = false) lines ->
  Forall (fun l => fits (saveLine (parseLine l)) = true) lines ->
  fits (canonicalLine key value) = true ->
  keyEq key' key = true ->
  exists fs',
    run env [prog; "add"; path; kv] fs = (0, EmptyString, fs')
    /\ fs' path
       = Regular (saveBytes (mkDictionary path (map parseLine lines))
                  ++ canonicalLine key value ++ NL)%string
    /\ (forall p, p <> path -> fs' p = fs p)
    /\ run env [prog; "query"; path; key'] fs' = (0, (value ++ NL)%string, fs').
Proof.
  intros Hfile Hkv Hhash Hlf Hv Habs Hfits Hfit Hk'.
  destruct (parseKeyValue_wfKey kv key value Hkv) as (Hne & Htrim & Heq).
  destruct (parseKeyValue_no_byte kv key value LF Hkv Hlf) as [Hklf Hvlf].
  assert (Hwf : wfKey key) by (apply wfKey_intro; assumption).
  destruct (fileLoads_LoadDictionary fs path lines Hfile) as (HLoad & _ & _).
  destruct (add_round_trip fs path lines key value Hfile Habs Hfits Hwf Hv)
    as (d & d1 & fs' & d2 & H1 & H2 & H3 & H4 & H5 & H6).
  { apply canonicalLine_scannedAsIs; assumption. }
  assert (Ed : d = mkDictionary path (map parseLine lines)) by congruence.
  exists fs'. split.
  { change (run env [prog; "add"; path; kv] fs) with (runAdd env path kv fs).
    unfold runAdd. rewrite Hkv, H1, (Add_Ok_KeyExists d d1 key value H2), H2, H3.
    reflexivity. }
  split; [rewrite H4, Ed; reflexivity|].
  split; [intros p Hp; exact (Save_other d1 path fs fs' None p H3 Hp)|].
  change (run env [prog; "query"; path; key'] fs')
    with (runQuery env path key' fs').
  unfold runQuery. rewrite H5, (Query_keyEq d2 key key' value Hk' H6).
  reflexivity.
Qed.

(** X13. The command set, then the command query, on a file that can be
    read and written, or on a path that names nothing and at which a file
    can be created.  When [parseKeyValue] reads a key and a value from
    the argument, the key does not start with a hash, the argument has no
    line feed, the value does not end in a backslash, and every line that
    [Save] writes after the [Set] is shorter than 64 KiB, then set exits
    with 0 and prints nothing, whether the file has the key or not,
    leaving every other file alone; after it, query with a key of the
    same lower case exits with 0 and prints the value. *)
Theorem X13_run_set_then_query
        (env : Environment) (prog path kv key value key' : string)
        (fs : filesystem) (lines : list string) :
  fileLoads fs path lines ->
  parseKeyValue kv = KeyValue key value ->
  HasPrefix key "#" = false ->
  Contains kv LF = false ->
  lastByte value <> Some backslash ->
  Forall (fun e => fits (saveLine e) = true)
         (Entries (Set_ (mkDictionary path (map parseLine lines)) key value)) ->
  keyEq key' key = true ->
  exists fs',
    run env [prog; "set"; path; kv] fs = (0, EmptyString, fs')
    /\ (forall p, p <> path -> fs' p = fs p)
    /\ run env [prog; "query"; path; key'] fs' = (0, (value ++ NL)%string, fs').
Proof.
  intros Hfile Hkv Hhash Hlf Hv Hfits Hk'.
  destruct (parseKeyValue_wfKey kv key value Hkv) as (Hne & Htrim & Heq).
  destruct (parseKeyValue_no_byte kv key value LF Hkv Hlf) as [Hklf Hvlf].
  assert (Hwf : wfKey key) by (apply wfKey_intro; assumption).
  destruct (fileLoads_LoadDictionary fs path lines Hfile) as (HLoad & _ & _).
  destruct (set_round_trip fs path lines key value Hfile Hwf Hklf Hvlf Hv Hfits)
    as (fs' & d2 & H1 & H2 & H3).
  exists fs'. split.
  { change (run env [prog; "set"; path; kv] fs) with (runSet env path kv fs).
    unfold runSet. rewrite Hkv, HLoad, H1. reflexivity. }
  split; [intros p Hp; exact (Save_other _ path fs fs' None p H1 Hp)|].
  change (run env [prog; "query"; path; key'] fs')
    with (runQuery env path key' fs').
  unfold runQuery. rewrite H2, (Query_keyEq d2 key key' value Hk' H3).
  reflexivity.
Qed.

(** X14. The command remove, then the commands query and remove, on a
    file that can be read and written.  When the key of one line folds to
    the key for [strings.EqualFold], the key of no other line does, nor
    has its lower case, and the lines that [Save] writes for the other
    lines are each shorter than 64 KiB, then remove exits with 0, prints
    nothing and writes the file without that line, leaving every other
    file alone; after it, query and a second remove of the key exit with
    1 and print that the key does not exist, and the file stays as it
    is. *)
Theorem X14_run_remove_then_query
        (env : Environment) (prog path key : string) (fs : filesystem)
        (l1 : list string) (l0 : string) (l2 : list string) :
  fileLoads fs path (l1 ++ l0 :: l2) ->
  Forall (fun l => EqualFold (Key (parseLine l)) key = false
                   /\ keyEq (Key (parseLine l)) key = false) (l1 ++ l2) ->
  EqualFold (Key (parseLine l0)) key = true ->
  Forall (fun l => fits (saveLine (parseLine l)) = true) (l1 ++ l2) ->
  exists fs',
    run env [prog; "remove"; path; key] fs = (0, EmptyString, fs')
    /\ fs' path = Regular (unlines (map saveLine (map parseLine (l1 ++ l2))))
    /\ (forall p, p <> path -> fs' p = fs p)
    /\ run env [prog; "query"; path; key] fs'
       = (1, ("Error: key '" ++ key ++ "' does not exist" ++ NL)%string, fs')
    /\ run env [prog; "remove"; path; key] fs'
       = (1, ("Error: key '" ++ key ++ "' does not exist" ++ NL)%string, fs').
Proof.
  intros Hfile Hother H0 Hfits.
  assert (H1 : Forall (fun l => EqualFold (Key (parseLine l)) key = false
                                /\ keyEq (Key (parseLine l)) key = false) l1).
  { apply Forall_app in Hother. destruct Hother as [Ha _]. exact Ha. }
  assert (H2 : Forall (fun l => keyEq (Key (parseLine l)) key = false) l2).
  { apply Forall_app in Hother. destruct Hother as [_ Hb].
    eapply Forall_impl; [|exact Hb]. intros l [_ Hl]. exact Hl. }
  destruct (fileLoads_LoadDictionary fs path _ Hfile) as (_ & HLF & Hcan).
  destruct (remove_round_trip fs path l1 l0 l2 key Hfile H1 H0 H2 Hfits)
    as (fs' & d2 & HL & HR & HS & Hb & HL2 & _ & HQ).
  exists fs'. split.
  { change (run env [prog; "remove"; path; key] fs)
      with (runRemove env path key fs).
    unfold runRemove. rewrite HL, HR, HS. reflexivity. }
  split; [exact Hb|].
  split; [intros p Hp; exact (Save_other _ path fs fs' None p HS Hp)|].
  split.
  { change (run env [prog; "query"; path; key] fs')
      with (runQuery env path key fs').
    unfold runQuery. rewrite HL2, HQ. unfold errorText.
    rewrite ?append_assoc. reflexivity. }
  change (run env [prog; "remove"; path; key] fs')
    with (runRemove env path key fs').
  unfold runRemove. rewrite HL2.
  assert (Ed2 : Entries d2
                = map (fun l => parseLine (dropCR (saveLine (parseLine l))))
                      (l1 ++ l2)).
  { assert (HLF' : Forall (fun l => Contains l LF = false) (l1 ++ l2)).
    { apply Forall_app in HLF. destruct HLF as [Ha Hc].
      inversion Hc; subst. apply Forall_app. split; assumption. }
    unfold Save in HS. rewrite Hcan in HS. inversion HS; subst fs';
      rewrite (load_saved fs path (l1 ++ l2) HLF' Hfits) in HL2;
      inversion HL2; reflexivity. }
  unfold Remove. rewrite Ed2, removeFirst_none;
    [unfold errorText; rewrite ?append_assoc; reflexivity|].
  apply Forall_map. eapply Forall_impl; [|exact Hother].
  intros l [Hl _]. cbn beta. rewrite saved_key_stable. exact Hl.
Qed.

(** X15. The command print on a file that can be read, made of lines
    with a line feed after each, where every line has no carriage return
    at its end, is shorter than 64 KiB and is empty, a comment or an
    assignment in canonical form, with or without inline comment: print
    exits with 0, prints the bytes of the file and leaves the file system
    as it is. *)
Theorem X15_run_print_echoes_canonical_file
        (env : Environment) (prog path : string) (fs : filesystem)
        (lines : list string) :
  fs path = Regular (unlines lines) \/ fs path = ReadOnly (unlines lines) ->
  Forall preservedLine lines ->
  Forall scannedAsIs lines ->
  run env [prog; "print"; path] fs = (0, unlines lines, fs).
Proof.
  intros Hf Hp Hs.
  assert (HL : LoadDictionary path fs
               = Ok (mkDictionary path (map parseLine lines))).
  { unfold LoadDictionary.
    destruct Hf as [Hf|Hf]; rewrite Hf, (scanLines_scannedAsIs lines Hs);
      reflexivity. }
  change (run env [prog; "print"; path] fs) with (runPrint env path fs).
  unfold runPrint, Print. rewrite HL. cbn [Entries].
  rewrite (map_printLine_preserved lines Hp). reflexivity.
Qed.

(** X16. [Print] and [Save] differ in the text before the equals sign
    only.  For every entry of a loaded dictionary without key they write
    the same line; for an entry with a key, the line has an equals sign,
    [Save] writes the text before it without the spaces and tabs at its
    end, [Print] writes the key, which is that text without white space
    at either end, and both go on with the same text.  So [Print] prints
    the bytes that [Save] writes when the two agree on the text before
    the equals sign of every line with a key. *)
Theorem X16_print_differs_from_save_in_key_part_only
        (filename : string) (fs : filesystem) (d : Dictionary) :
  LoadDictionary filename fs = Ok d ->
  Forall (fun e =>
            (Key e = EmptyString -> printLine e = saveLine e)
            /\ (Key e <> EmptyString ->
                exists pre post tail,
                  Cut (Original e) equals = Some (pre, post)
                  /\ Key e = TrimSpace pre
                  /\ saveLine e = (TrimRight pre spaceOrTab ++ tail)%string
                  /\ printLine e = (Key e ++ tail)%string))
         (Entries d)
  /\ (Forall (fun e =>
                Key e <> EmptyString ->
                forall pre post,
                  Cut (Original e) equals = Some (pre, post) ->
                  TrimRight pre spaceOrTab = TrimSpace pre)
             (Entries d) ->
      Print d = saveBytes d).
Proof.
  intros HL.
  assert (Hd : exists lines, Entries d = map parseLine lines).
  { destruct (LoadDictionary_lines filename fs d HL) as (lines & -> & _).
    exists lines. reflexivity. }
  destruct Hd as (lines & Ed).
  assert (Hall : Forall (fun e =>
            (Key e = EmptyString -> printLine e = saveLine e)
            /\ (Key e <> EmptyString ->
                exists pre post tail,
                  Cut (Original e) equals = Some (pre, post)
                  /\ Key e = TrimSpace pre
                  /\ saveLine e = (TrimRight pre spaceOrTab ++ tail)%string
                  /\ printLine e = (Key e ++ tail)%string))
         (Entries d)).
  { rewrite Ed. apply Forall_map. apply Forall_forall. intros l _.
    destruct (printLine_saveLine l) as [Ha Hb]. split; [exact Ha|].
    intros Hk. destruct (Hb Hk) as (pre & post & tail & HC & EK & HS & HP).
    exists pre, post, tail. rewrite parseLine_Original.
    split; [exact HC|]. split; [exact EK|]. split; [exact HS|].
    rewrite EK. exact HP. }
  split; [exact Hall|].
  intros Hagree. unfold Print, saveBytes. f_equal.
  apply map_ext_in. intros e Hin.
  rewrite Forall_forall in Hall, Hagree.
  destruct (Hall e Hin) as [Ha Hb].
  destruct (Key e) as [|k0 k] eqn:EK; [apply Ha; reflexivity|].
  assert (Hk : String k0 k <> EmptyString) by discriminate.
  destruct (Hb Hk) as (pre & post & tail & HC & EK' & HS & HP).
  assert (Hk' : Key e <> EmptyString) by (rewrite EK; discriminate).
  rewrite HS, HP, EK', (Hagree e Hin Hk' pre post HC). reflexivity.
Qed.

(** X17. The command add for a key that the file has, in any case, exits
    with 1, prints that the key already exists together with the key as
    the first such line of the file has it, and leaves the file system as
    it is. *)
Theorem X17_run_add_reports_the_stored_key
        (env : Environment) (prog path kv key value : string) (fs : filesystem)
        (l1 : list string) (l0 : string) (l2 : list string) :
  fileLoads fs path (l1 ++ l0 :: l2) ->
  parseKeyValue kv = KeyValue key value ->
  Forall (fun l => keyEq (Key (parseLine l)) key = false) l1 ->
  keyEq (Key (parseLine l0)) key = true ->
  run env [prog; "add"; path; kv] fs
  = (1, ("Error: key '" ++ key ++ "' already exists (as '"
         ++ Key (parseLine l0) ++ "')" ++ NL)%string, fs).
Proof.
  intros Hfile Hkv H1 H0.
  destruct (fileLoads_LoadDictionary fs path _ Hfile) as (HL & _ & _).
  change (run env [prog; "add"; path; kv] fs) with (runAdd env path kv fs).
  unfold runAdd, KeyExists, findEntryCaseInsensitive. rewrite Hkv, HL.
  cbn [Entries]. rewrite map_app. cbn [map].
  rewrite (find_app_first (ToLower key) (map parseLine l1) (map parseLine l2)
             (parseLine l0)).
  - reflexivity.
  - apply Forall_map. exact H1.
  - exact H0.
Qed.

(** X18. A path that names nothing and at which a file can be created
    is an empty file, one that can be read and written, to every command:
    with such a first argument [run] ends with the same exit code and the
    same output as it does when an empty file is there, and the two runs
    leave the same file system, except that a run that writes nothing
    leaves the path without file. *)
Theorem X18_missing_file_is_an_empty_file
        (env : Environment) (prog command path : string) (rest : list string)
        (fs : filesystem) :
  fs path = Absent ->
  let '(code, out, fs1) := run env (prog :: command :: path :: rest) fs in
  let '(code0, out0, fs0) :=
    run env (prog :: command :: path :: rest) (writeFile fs path EmptyString) in
  code = code0 /\ out = out0
  /\ forall p, fs1 p = fs0 p
               \/ (p = path /\ fs1 p = Absent /\ fs0 p = Regular EmptyString).
Proof.
  intros Hf.
  destruct (LoadDictionary_Absent fs path Hf) as [HL HL0].
  assert (Hsame : forall p, fs p = writeFile fs path EmptyString p
                            \/ (p = path /\ fs p = Absent
                                /\ writeFile fs path EmptyString p
                                   = Regular EmptyString)).
  { intros p. destruct (String.eqb p path) eqn:Ep.
    - apply String.eqb_eq in Ep. subst p. right.
      split; [reflexivity|]. split; [exact Hf | apply writeFile_same].
    - left. unfold writeFile. rewrite Ep. reflexivity. }
  assert (Hwrite : forall data p,
             writeFile fs path data p
             = writeFile (writeFile fs path EmptyString) path data p).
  { intros data p. unfold writeFile. destruct (String.eqb p path); reflexivity. }
  assert (HS : forall d, Save d path fs = (writeFile fs path (saveBytes d), None)).
  { intros d. apply Save_writes. unfold canCreate. rewrite Hf. reflexivity. }
  assert (HS0 : forall d,
             Save d path (writeFile fs path EmptyString)
             = (writeFile (writeFile fs path EmptyString) path (saveBytes d), None)).
  { intros d. apply Save_writes. apply canCreate_writeFile. }
  unfold run.
  destruct (String.eqb command "help"); [auto|].
  destruct (String.eqb command "version"); [auto|].
  destruct (String.eqb command "print").
  { destruct rest as [|x r]; [|auto].
    unfold runPrint. rewrite HL, HL0. auto. }
  destruct (String.eqb command "add").
  { destruct rest as [|kv [|x r]]; [auto | | auto].
    unfold runAdd. destruct (parseKeyValue kv) as [key value|e]; [|auto].
    rewrite HL, HL0. destruct (KeyExists (mkDictionary path []) key); [auto|].
    destruct (Add (mkDictionary path []) key value) as [d'|e]; [|auto].
    rewrite HS, HS0. split; [reflexivity|]. split; [reflexivity|].
    intros p. left. apply Hwrite. }
  destruct (String.eqb command "set").
  { destruct rest as [|kv [|x r]]; [auto | | auto].
    unfold runSet. destruct (parseKeyValue kv) as [key value|e]; [|auto].
    rewrite HL, HL0, HS, HS0. split; [reflexivity|]. split; [reflexivity|].
    intros p. left. apply Hwrite. }
  destruct (String.eqb command "remove").
  { destruct rest as [|key [|x r]]; [auto | | auto].
    unfold runRemove. rewrite HL, HL0.
    destruct (Remove (mkDictionary path []) key) as [d'|e]; [|auto].
    rewrite HS, HS0. split; [reflexivity|]. split; [reflexivity|].
    intros p. left. apply Hwrite. }
  destruct (String.eqb command "query").
  { destruct rest as [|key [|x r]]; [auto | | auto].
    unfold runQuery. rewrite HL, HL0.
    destruct (Query (mkDictionary path []) key); auto. }
  auto.
Qed.

(** X19. The program that always quotes (lines 1 to 483 of
    src/unnamed/part_001) escapes the double quotes of a value when it
    saves and does not unescape them when it loads.  On a file that can
    be read and written, or a path at which a file can be created, for a
    well formed key without line feed that no line of the file has, and
    a value without line feed, when the lines that [Save] writes are each
    shorter than 64 KiB: after [Add], [Save], [LoadDictionary] and
    [Query], the value that comes back is the value with a backslash
    before each of its double quotes.  It is the value that was added
    exactly when that value has no double quote. *)
Theorem X19_quoting_program_reads_back_escaped_value
        (fs : filesystem) (path : string) (lines : list string)
        (key value : string) :
  fileLoads fs path lines ->
  Forall (fun l => Earlier.hasKey key (Earlier.parseLine l) = false) lines ->
  Forall (fun l => fits (Quoted.saveLine (Earlier.parseLine l)) = true) lines ->
  wfKey key ->
  Contains key LF = false ->
  Contains value LF = false ->
  fits (key ++ " = " ++ Quoted.formattedValue value) = true ->
  exists d d1 fs' d2,
    Earlier.LoadDictionary path fs = Ok d
    /\ Quoted.Add d key value = Ok d1
    /\ Quoted.Save d1 path fs = (fs', None)
    /\ Earlier.LoadDictionary path fs' = Ok d2
    /\ Earlier.Query d2 key = Ok (escapeQuotes value)
    /\ (Earlier.Query d2 key = Ok value <-> Contains value dquote = false).
Proof.
  intros Hfile Habs Hfits Hk Hklf Hvlf Hfit.
  destruct (Earlier_add_round_trip Quoted.formattedValue Quoted.newOriginal
              Quoted_format_trimmed Quoted_format_no_LF Quoted_original_shape
              fs path lines key value Hfile Habs Hfits Hk Hklf Hvlf Hfit)
    as (d1 & fs' & d2 & H1 & H2 & H3 & _ & H5 & H6).
  rewrite removeQuotes_Quoted_format in H6.
  exists (Earlier.mkDictionary path (map Earlier.parseLine lines)), d1, fs', d2.
  split; [exact H1|]. split; [exact H2|]. split; [exact H3|].
  split; [exact H5|]. split; [exact H6|].
  rewrite H6. rewrite <- escapeQuotes_fixed. split.
  - intros E. inversion E. congruence.
  - intros E. rewrite E. reflexivity.
Qed.

(** X20. The two other programs compare keys byte for byte: after
    [Set] of a key, [Query] returns the new value for that very key and,
    for every other key, also one that differs in case only, what it
    returned before. *)
Theorem X20_other_programs_compare_keys_exactly
        (d : Earlier.Dictionary) (key value key' : string) :
  Earlier.Query (Quoted.Set_ d key value) key'
  = (if String.eqb key key' then Ok value else Earlier.Query d key')
  /\ Earlier.Query (Unquoted.Set_ d key value) key'
     = (if String.eqb key key' then Ok value else Earlier.Query d key').
Proof.
  split; apply Earlier_Query_setWith.
Qed.

(** X21. [needsQuoting] of src/vmxtool.go: a value that it lets pass
    without quotes is not empty, has no white space at its ends, no
    double quote and no equals sign, so it is read back as it stands.  On
    a value whose bytes are all below 0x80 it answers true exactly when
    the value is empty or has a white space byte, a double quote or an
    equals sign. *)
Theorem X21_needsQuoting_guards_unquoted_values (value : string) :
  (Unquoted.needsQuoting value = false ->
   value <> EmptyString
   /\ TrimSpace value = value
   /\ Contains value dquote = false
   /\ Contains value equals = false
   /\ Earlier.removeQuotes (TrimSpace value) = value)
  /\ (allBytes isASCIIByte value = true ->
      Unquoted.needsQuoting value
      = isEmpty value || negb (allBytes (fun c => negb (quotingByte c)) value)).
Proof.
  split.
  - intros H. destruct (needsQuoting_false value H) as (Hne & Ht & Hq & He).
    split; [exact Hne|]. split; [exact Ht|]. split; [exact Hq|].
    split; [exact He|]. rewrite Ht. apply removeQuotes_plain. exact Hq.
  - apply needsQuoting_ascii.
Qed.


(** X23. What the program of src/vmxtool.go does to the quotes of a line
    it loads and saves, for a well formed key: a value that needs no
    quoting is written without quotes, whether the line had it between
    double quotes or not, so the unquoted line is kept and the quoted
    line loses its quotes; a value that needs quoting and stands between
    double quotes is kept as it is.  [Print] prints the same lines. *)
Theorem X23_unquoting_program_drops_needless_quotes (key value : string) :
  wfKey key ->
  (Unquoted.needsQuoting value = false ->
   Unquoted.saveLine (Earlier.parseLine (key ++ " = " ++ value))
   = (key ++ " = " ++ value)%string
   /\ Unquoted.saveLine (Earlier.parseLine (key ++ " = " ++ Q ++ value ++ Q))
      = (key ++ " = " ++ value)%string
   /\ Unquoted.printLine (Earlier.parseLine (key ++ " = " ++ Q ++ value ++ Q))
      = (key ++ " = " ++ value)%string)
  /\ (Unquoted.needsQuoting value = true ->
      Unquoted.saveLine (Earlier.parseLine (key ++ " = " ++ Q ++ value ++ Q))
      = (key ++ " = " ++ Q ++ value ++ Q)%string
      /\ Unquoted.printLine (Earlier.parseLine (key ++ " = " ++ Q ++ value ++ Q))
         = (key ++ " = " ++ Q ++ value ++ Q)%string).
Proof.
  intros Hk.
  assert (Hq : (Q ++ value ++ Q)%string <> EmptyString) by discriminate.
  pose proof (TrimSpace_quoted value) as Hqt.
  unfold Unquoted.saveLine, Unquoted.printLine.
  split.
  - intros H. destruct (needsQuoting_false value H) as (Hne & Ht & Hnq & _).
    rewrite (Earlier_load_save_line _ key value Hk Hne Ht).
    rewrite (Earlier_load_save_line _ key _ Hk Hq Hqt).
    rewrite (Earlier_load_print_line _ key _ Hk Hq Hqt).
    rewrite removeQuotes_quoted, (removeQuotes_plain value Hnq).
    unfold Unquoted.formattedValue. rewrite H. repeat split; reflexivity.
  - intros H.
    rewrite (Earlier_load_save_line _ key _ Hk Hq Hqt).
    rewrite (Earlier_load_print_line _ key _ Hk Hq Hqt).
    rewrite removeQuotes_quoted.
    unfold Unquoted.formattedValue. rewrite H. split; reflexivity.
Qed.

(** X24. What the program that always quotes does to a line it loads and
    saves, for a well formed key: a value between double quotes is
    written with a backslash before each of its double quotes, so the
    line is kept when the value has no double quote and grows with every
    load and save when it has one; a text without white space at its
    ends and without double quote is written between double quotes. *)
Theorem X24_quoting_program_escapes_at_every_save (key value : string) :
  wfKey key ->
  Quoted.saveLine (Earlier.parseLine (key ++ " = " ++ Q ++ value ++ Q))
  = (key ++ " = " ++ Q ++ escapeQuotes value ++ Q)%string
  /\ (Contains value dquote = false ->
      Quoted.saveLine (Earlier.parseLine (key ++ " = " ++ Q ++ value ++ Q))
      = (key ++ " = " ++ Q ++ value ++ Q)%string)
  /\ (Contains value dquote = true ->
      String.length (key ++ " = " ++ Q ++ value ++ Q)
      < String.length
          (Quoted.saveLine (Earlier.parseLine (key ++ " = " ++ Q ++ value ++ Q))))
  /\ (value <> EmptyString -> TrimSpace value = value ->
      Contains value dquote = false ->
      Quoted.saveLine (Earlier.parseLine (key ++ " = " ++ value))
      = (key ++ " = " ++ Q ++ value ++ Q)%string).
Proof.
  intros Hk.
  assert (Hq : (Q ++ value ++ Q)%string <> EmptyString) by discriminate.
  pose proof (TrimSpace_quoted value) as Hqt.
  assert (E : Quoted.saveLine (Earlier.parseLine (key ++ " = " ++ Q ++ value ++ Q))
              = (key ++ " = " ++ Q ++ escapeQuotes value ++ Q)%string).
  { unfold Quoted.saveLine.
    rewrite (Earlier_load_save_line _ key _ Hk Hq Hqt), removeQuotes_quoted.
    reflexivity. }
  split; [exact E|]. split; [|split].
  - intros H. rewrite E, (proj2 (escapeQuotes_fixed value) H). reflexivity.
  - intros H. rewrite E, !append_length.
    pose proof (proj2 (escapeQuotes_length value) H). lia.
  - intros Hne Ht Hnq. unfold Quoted.saveLine.
    rewrite (Earlier_load_save_line _ key value Hk Hne Ht).
    rewrite (removeQuotes_plain value Hnq).
    unfold Quoted.formattedValue.
    rewrite (proj2 (escapeQuotes_fixed value) Hnq). reflexivity.
Qed.

(** X25. [main] of the two other programs writes one file or nothing:
    either the file system is after the run as it was before, or the
    command was add, set or remove with two arguments, the run ended with
    exit code 0, only the file named by the first argument was written,
    with the lines [Save] writes for a dictionary, and the output says
    what was added, set or removed. *)
Theorem X25_other_mains_write_one_file_or_nothing
        (env : Environment) (args : list string) (fs : filesystem)
        (unquoted : bool) :
  let main := if unquoted then Unquoted.main else Quoted.main in
  let program := if unquoted then Unquoted.program else Quoted.program in
  let saveLine := if unquoted then Unquoted.saveLine else Quoted.saveLine in
  let '(code, out, fs') := main env args fs in
  fs' = fs
  \/ (code = 0
      /\ exists prog command filename arg d,
          args = [prog; command; filename; arg]
          /\ fs filename <> Denied
          /\ fs' = writeFile fs filename
                     (unlines (map saveLine (Earlier.Entries d)))
          /\ ((command = "add"
               /\ exists key value,
                   Earlier.parseKV program arg = KeyValue key value
                   /\ out = ("Added: " ++ key ++ "=" ++ value ++ NL)%string)
              \/ (command = "set"
                  /\ exists key value,
                      Earlier.parseKV program arg = KeyValue key value
                      /\ out = ("Set: " ++ key ++ "=" ++ value ++ NL)%string)
              \/ (command = "remove"
                  /\ out = ("Removed: " ++ arg ++ NL)%string))).
Proof.
  destruct unquoted; cbv zeta.
  - exact (Earlier_main_writes Unquoted.program Unquoted.formattedValue
             env args fs eq_refl).
  - exact (Earlier_main_writes Quoted.program Quoted.formattedValue
             env args fs eq_refl).
Qed.

(** X26. The command add, then the command query, in the program of
    src/vmxtool.go, on a file that can be read and written, or on a path
    that names nothing and at which a file can be created.  When
    [parseKeyValue] reads a key and a value from the argument, the key
    does not start with a hash and is the key of no line of the file,
    the argument has no line feed, and the lines that [Save] writes for
    the lines of the file and for the key and the value are each shorter
    than 64 KiB, then add exits with 0, says what it added and leaves
    every other file alone; after it, query with the key exits with 0
    and prints the value, whatever the value is. *)
Theorem X26_unquoting_main_add_then_query
        (env : Environment) (prog path kv key value : string)
        (fs : filesystem) (lines : list string) :
  fileLoads fs path lines ->
  Unquoted.parseKeyValue kv = KeyValue key value ->
  HasPrefix key "#" = false ->
  Contains kv LF = false ->
  Forall (fun l => Earlier.hasKey key (Earlier.parseLine l) = false) lines ->
  Forall (fun l => fits (Unquoted.saveLine (Earlier.parseLine l)) = true) lines ->
  fits (key ++ " = " ++ Unquoted.formattedValue value) = true ->
  exists fs',
    Unquoted.main env [prog; "add"; path; kv] fs
    = (0, ("Added: " ++ key ++ "=" ++ value ++ NL)%string, fs')
    /\ (forall p, p <> path -> fs' p = fs p)
    /\ Unquoted.main env [prog; "query"; path; key] fs'
       = (0, (value ++ NL)%string, fs').
Proof.
  intros Hfile Hkv Hhash Hlf Habs Hfits Hfit.
  destruct (Unquoted_parseKeyValue_KeyValue kv key value Hkv)
    as (Hne & Htrim & Heq & Hbytes).
  destruct (Hbytes LF Hlf) as [Hklf Hvlf].
  assert (Hwf : wfKey key) by (apply wfKey_intro; assumption).
  destruct (Earlier_add_round_trip Unquoted.formattedValue Unquoted.newOriginal
              Unquoted_format_trimmed Unquoted_format_no_LF Unquoted_original_shape
              fs path lines key value Hfile Habs Hfits Hwf Hklf Hvlf Hfit)
    as (d1 & fs' & d2 & H1 & H2 & H3 & _ & H5 & H6).
  rewrite removeQuotes_Unquoted_format in H6.
  exists fs'. split.
  { unfold Unquoted.main, Earlier.main.
    cbn [String.eqb Ascii.eqb Bool.eqb Earlier.parseKV Earlier.add Earlier.save
         Unquoted.program].
    rewrite Hkv, H1. unfold Unquoted.Add. rewrite H2.
    unfold Unquoted.Save. rewrite H3. reflexivity. }
  split; [intros p Hp; exact (saveWith_other _ d1 path fs fs' None p H3 Hp)|].
  unfold Unquoted.main, Earlier.main.
  cbn [String.eqb Ascii.eqb Bool.eqb]. rewrite H5, H6. reflexivity.
Qed.

(** X27. The command add, then the command query, in the program that
    always quotes, on a file that can be read and written, or on a path
    that names nothing and at which a file can be created.  When
    [parseKeyValue] reads a key and a value from the argument, the key
    does not start with a hash and is the key of no line of the file,
    the argument has no line feed, and the lines that [Save] writes for
    the lines of the file and for the key and the value are each shorter
    than 64 KiB, then add exits with 0 and says what it added, leaving
    every other file alone; after it, query with the key exits with 0
    and prints the value with a backslash before each of its double
    quotes, which is the value itself when it has no double quote. *)
Theorem X27_quoting_main_add_then_query
        (env : Environment) (prog path kv key value : string)
        (fs : filesystem) (lines : list string) :
  fileLoads fs path lines ->
  parseKeyValue kv = KeyValue key value ->
  HasPrefix key "#" = false ->
  Contains kv LF = false ->
  Forall (fun l => Earlier.hasKey key (Earlier.parseLine l) = false) lines ->
  Forall (fun l => fits (Quoted.saveLine (Earlier.parseLine l)) = true) lines ->
  fits (key ++ " = " ++ Quoted.formattedValue value) = true ->
  exists fs',
    Quoted.main env [prog; "add"; path; kv] fs
    = (0, ("Added: " ++ key ++ "=" ++ value ++ NL)%string, fs')
    /\ (forall p, p <> path -> fs' p = fs p)
    /\ Quoted.main env [prog; "query"; path; key] fs'
       = (0, (escapeQuotes value ++ NL)%string, fs')
    /\ (Contains value dquote = false -> escapeQuotes value = value).
Proof.
  intros Hfile Hkv Hhash Hlf Habs Hfits Hfit.
  destruct (parseKeyValue_wfKey kv key value Hkv) as (Hne & Htrim & Heq).
  destruct (parseKeyValue_no_byte kv key value LF Hkv Hlf) as [Hklf Hvlf].
  assert (Hwf : wfKey key) by (apply wfKey_intro; assumption).
  destruct (Earlier_add_round_trip Quoted.formattedValue Quoted.newOriginal
              Quoted_format_trimmed Quoted_format_no_LF Quoted_original_shape
              fs path lines key value Hfile Habs Hfits Hwf Hklf Hvlf Hfit)
    as (d1 & fs' & d2 & H1 & H2 & H3 & _ & H5 & H6).
  rewrite removeQuotes_Quoted_format in H6.
  exists fs'. split.
  { unfold Quoted.main, Earlier.main.
    cbn [String.eqb Ascii.eqb Bool.eqb Earlier.parseKV Earlier.add Earlier.save
         Quoted.program].
    rewrite Hkv, H1. unfold Quoted.Add. rewrite H2.
    unfold Quoted.Save. rewrite H3. reflexivity. }
  split; [intros p Hp; exact (saveWith_other _ d1 path fs fs' None p H3 Hp)|].
  split.
  { unfold Quoted.main, Earlier.main.
    cbn [String.eqb Ascii.eqb Bool.eqb]. rewrite H5, H6. reflexivity. }
  intros H. apply escapeQuotes_fixed. exact H.
Qed.

(** X28. The last [Set] wins: setting a key twice gives the dictionary
    that the second [Set] alone gives, entry for entry, so setting the
    same value twice changes nothing more; and [Set] adds one entry when
    no stored key matches the key, and none when one does. *)
Theorem X28_last_set_wins (d : Dictionary) (key v1 v2 : string) :
  Set_ (Set_ d key v1) key v2 = Set_ d key v2
  /\ Set_ (Set_ d key v2) key v2 = Set_ d key v2
  /\ List.length (Entries (Set_ d key v2))
     = (if KeyExists d key then List.length (Entries d)
        else S (List.length (Entries d))).
Proof.
  split; [apply Set_Set|]. split; [apply Set_Set | apply Set_length].
Qed.

(** X29. A file that cannot be written is reported when it is to be
    saved.  On a file that can be read but not written, and on a path
    that names nothing and at which no file can be created, such as the
    empty path or a path in a directory that does not exist, the file
    loads; then set with an argument that [parseKeyValue] reads, add of a
    key that no line has, and remove of a key that [Remove] finds, exit
    with 1, print Error saving file with the error of the operating
    system and leave the file system as it is.  The command set of the
    two other programs does the same. *)
Theorem X29_save_failure_is_reported
        (env : Environment) (prog path : string) (fs : filesystem)
        (lines : list string) :
  fileLoadsOnly fs path lines ->
  let d := mkDictionary path (map parseLine lines) in
  let failed :=
    (1, ("Error saving file: " ++ pathErrorText env path ++ NL)%string, fs) in
  (forall kv key value,
      parseKeyValue kv = KeyValue key value ->
      run env [prog; "set"; path; kv] fs = failed
      /\ (KeyExists d key = false -> run env [prog; "add"; path; kv] fs = failed)
      /\ Quoted.main env [prog; "set"; path; kv] fs = failed)
  /\ (forall key d',
        Remove d key = Ok d' -> run env [prog; "remove"; path; key] fs = failed)
  /\ (forall kv key value,
        Unquoted.parseKeyValue kv = KeyValue key value ->
        Unquoted.main env [prog; "set"; path; kv] fs = failed).
Proof.
  intros Hfile d failed.
  assert (H : LoadDictionary path fs = Ok d
              /\ Earlier.LoadDictionary path fs
                 = Ok (Earlier.mkDictionary path (map Earlier.parseLine lines))
              /\ canCreate fs path = false).
  { unfold fileLoadsOnly in Hfile.
    unfold LoadDictionary, Earlier.LoadDictionary, canCreate, d.
    destruct (fs path) as [| | |data|data]; try contradiction.
    - subst lines. repeat split.
    - rewrite Hfile. repeat split. }
  destruct H as (HL & HE & Hcan).
  split.
  { intros kv key value Hkv. split.
    { change (run env [prog; "set"; path; kv] fs) with (runSet env path kv fs).
      unfold runSet. rewrite Hkv, HL, (Save_fails _ path fs Hcan). reflexivity. }
    split.
    { intros Hnew.
      change (run env [prog; "add"; path; kv] fs) with (runAdd env path kv fs).
      unfold runAdd. rewrite Hkv, HL, Hnew. unfold Add. rewrite Hnew.
      rewrite (Save_fails _ path fs Hcan). reflexivity. }
    change (Quoted.main env [prog; "set"; path; kv] fs)
      with (match Earlier.parseKV Quoted.program kv with
            | KVError e => (1, ("Error: " ++ kvErrorText e ++ NL)%string, fs)
            | KeyValue key value =>
                match Earlier.LoadDictionary path fs with
                | Err e =>
                    (1, ("Error loading file: " ++ errorText env path e ++ NL)%string,
                     fs)
                | Ok dict =>
                    match Earlier.save Quoted.program
                            (Earlier.set Quoted.program dict key value) path fs with
                    | (fs', Some e) =>
                        (1, ("Error saving file: "
                             ++ errorText env path e ++ NL)%string, fs')
                    | (fs', None) =>
                        (0, ("Set: " ++ key ++ "=" ++ value ++ NL)%string, fs')
                    end
                end
            end).
    change (Earlier.parseKV Quoted.program kv) with (parseKeyValue kv).
    rewrite Hkv, HE.
    change (Earlier.save Quoted.program)
      with (Earlier.saveWith Quoted.formattedValue).
    rewrite (saveWith_fails _ _ path fs Hcan). reflexivity. }
  split.
  { intros key d' HR.
    change (run env [prog; "remove"; path; key] fs)
      with (runRemove env path key fs).
    unfold runRemove. rewrite HL, HR, (Save_fails _ path fs Hcan). reflexivity. }
  intros kv key value Hkv.
  change (Unquoted.main env [prog; "set"; path; kv] fs)
    with (match Earlier.parseKV Unquoted.program kv with
          | KVError e => (1, ("Error: " ++ kvErrorText e ++ NL)%string, fs)
          | KeyValue key value =>
              match Earlier.LoadDictionary path fs with
              | Err e =>
                  (1, ("Error loading file: " ++ errorText env path e ++ NL)%string,
                   fs)
              | Ok dict =>
                  match Earlier.save Unquoted.program
                          (Earlier.set Unquoted.program dict key value) path fs with
                  | (fs', Some e) =>
                      (1, ("Error saving file: "
                           ++ errorText env path e ++ NL)%string, fs')
                  | (fs', None) =>
                      (0, ("Set: " ++ key ++ "=" ++ value ++ NL)%string, fs')
                  end
              end
          end).
  change (Earlier.parseKV Unquoted.program kv) with (Unquoted.parseKeyValue kv).
  rewrite Hkv, HE.
  change (Earlier.save Unquoted.program)
    with (Earlier.saveWith Unquoted.formattedValue).
  rewrite (saveWith_fails _ _ path fs Hcan). reflexivity.
Qed.

(** X30. Keys of bytes below 0x80, for which the comparison of
    [findEntryCaseInsensitive] and that of [Remove] agree: the first
    entry whose key has the lower case of the key is the one that [Query]
    reads, [Set] writes and [Remove] deletes; the entries after it stay
    as they are, also those with the same key.  [Set] stores the value
    in that entry and keeps its key and its inline comment, so [Query]
    returns the new value afterwards. *)
Theorem X30_first_match_wins_for_ascii_keys
        (path : string) (pre post : list Entry) (e1 : Entry)
        (key value : string) :
  allBytes isASCIIByte key = true ->
  Forall (fun e => allBytes isASCIIByte (Key e) = true
                   /\ keyEq (Key e) key = false) pre ->
  allBytes isASCIIByte (Key e1) = true ->
  keyEq (Key e1) key = true ->
  let d := mkDictionary path (pre ++ e1 :: post) in
  Query d key = Ok (Value e1)
  /\ (exists e1',
        Entries (Set_ d key value) = pre ++ e1' :: post
        /\ Key e1' = Key e1 /\ Value e1' = value
        /\ InlineComment e1' = InlineComment e1
        /\ InlineCommentSpace e1' = InlineCommentSpace e1)
  /\ Query (Set_ d key value) key = Ok value
  /\ Remove d key = Ok (withEntries d (pre ++ post)).
Proof.
  intros Hkey Hpre Ha1 H1 d.
  assert (Hm : Forall (fun x => keyMatches (ToLower key) x = false) pre).
  { eapply Forall_impl; [|exact Hpre]. intros e [_ He]. exact He. }
  assert (Hf : Forall (fun x => EqualFold (Key x) key = false) pre).
  { eapply Forall_impl; [|exact Hpre]. intros e [Ha He]. cbn beta.
    rewrite (EqualFold_ascii (Key e) key Ha Hkey). exact He. }
  assert (H1' : EqualFold (Key e1) key = true).
  { rewrite (EqualFold_ascii (Key e1) key Ha1 Hkey). exact H1. }
  split.
  { unfold Query, findEntryCaseInsensitive. cbn [Entries d].
    rewrite (find_app_first _ pre _ e1 Hm H1). reflexivity. }
  split.
  { exists (updateEntry e1 value). split; [|repeat split].
    unfold Set_. cbn [Entries d].
    rewrite (updateFirst_app_first _ value pre _ e1 Hm H1). reflexivity. }
  split; [apply Query_Set|].
  unfold Remove. cbn [Entries d].
  rewrite (removeFirst_app_first key pre _ e1 Hf H1'). reflexivity.
Qed.

End Extras.

(** * The properties at concrete inputs

    Each property that has a condition is applied to a concrete input
    that meets it, and each statement of the specification that the code
    does not follow is evaluated where it fails.  The keys of the
    examples are read with [sampleTables]. *)

Section Examples.

#[local] Existing Instance sampleTables.

(** ** Quotes and the argument KEY=VALUE *)

Lemma X1_findClosingQuote_first_unescaped_quote_witness :
  let s := (Q ++ "a" ++ BS ++ Q ++ "b" ++ Q ++ " # c") in
  findClosingQuote s 1 = Some 5
  /\ byteAtIs s 3 dquote = true
  /\ escapedAt s 3 = true
  /\ escapedAt s 5 = false.
Proof.
  intros s.
  pose proof (X1_findClosingQuote_first_unescaped_quote s 1) as H.
  change (findClosingQuote s 1) with (Some 5) in H.
  destruct H as (_ & _ & He & Hf).
  split; [reflexivity|]. split; [reflexivity|].
  split; [apply Hf; [lia | reflexivity] | exact He].
Defined.

Lemma X2_escaped_value_is_delimited_witness :
  let value := ("say " ++ Q ++ "hi" ++ Q) in
  lastByte value <> Some backslash
  /\ lastByte ("C:" ++ BS) = Some backslash
  /\ findClosingQuote (Q ++ escapeQuotes value ++ Q ++ "  # note") 1 = Some 11
  /\ findClosingQuote (Q ++ escapeQuotes ("C:" ++ BS) ++ Q) 1 = None.
Proof.
  intros value.
  assert (H1 : lastByte value <> Some backslash) by discriminate.
  assert (H2 : lastByte ("C:" ++ BS) = Some backslash) by reflexivity.
  split; [exact H1|]. split; [exact H2|]. split.
  - exact (proj1 (proj2 (X2_escaped_value_is_delimited value "  # note")) H1).
  - exact (proj2 (proj2 (X2_escaped_value_is_delimited ("C:" ++ BS) EmptyString))
                 H2).
Defined.


Lemma X4_parseKeyValue_keys_and_errors_witness :
  parseKeyValue " memsize = 512 " = KeyValue "memsize" "512"
  /\ TrimSpace "memsize" = "memsize"
  /\ Contains "memsize" equals = false.
Proof.
  assert (H : parseKeyValue " memsize = 512 " = KeyValue "memsize" "512")
    by reflexivity.
  split; [exact H|].
  destruct (proj2 (proj2 (X4_parseKeyValue_keys_and_errors " memsize = 512 "))
                  "memsize" "512" H) as (_ & _ & Ht & He & _).
  split; [exact Ht | exact He].
Defined.

Lemma X5_parseKeyValue_reads_canonical_line_witness :
  let value := (" a " ++ Q ++ "b" ++ Q ++ BS) in
  parseKeyValue (canonicalLine "displayName" value) = KeyValue "displayName" value
  /\ parseKeyValue ("displayName" ++ "=" ++ Q ++ escapeQuotes value ++ Q)
     = KeyValue "displayName" value.
Proof.
  intros value.
  apply (X5_parseKeyValue_reads_canonical_line "displayName" value);
    [discriminate | reflexivity | reflexivity].
Defined.

Local Open Scope list_scope.

(** ** The properties of the specification *)

Lemma C1_other_lines_are_written_as_before_witness :
  let inline := (canonicalLine "name" "vm1" ++ "   " ++ "# keep me")%string in
  let lines := ["# head"; "memsize=512"; inline] in
  nth_error lines 2 = Some inline
  /\ 2 <> findIndex (ToLower "MEMSIZE") (map parseLine lines)
  /\ preservedLine inline
  /\ nth_error
       (map saveLine
            (Entries (Set_ (mkDictionary "test.vmx" (map parseLine lines))
                           "MEMSIZE" "1024"))) 2
     = Some (saveLine (parseLine inline))
  /\ saveLine (parseLine inline) = inline.
Proof.
  intros inline lines.
  assert (H1 : nth_error lines 2 = Some inline) by reflexivity.
  assert (H2 : 2 <> findIndex (ToLower "MEMSIZE") (map parseLine lines))
    by (vm_compute; discriminate).
  assert (H3 : preservedLine inline).
  { apply preserved_assignment.
    - apply wfKey_intro; [discriminate | reflexivity | reflexivity | reflexivity].
    - vm_compute; discriminate.
    - apply tail_comment; reflexivity. }
  split; [exact H1|]. split; [exact H2|]. split; [exact H3|].
  destruct (C1_other_lines_are_written_as_before
              "test.vmx" lines "MEMSIZE" "1024" 2 inline H1 H2) as (Hs & _ & Hp).
  split; [exact Hs | exact (proj1 (Hp H3))].
Defined.

(** C1 as stated fails: a loaded assignment that is not in canonical form
    is written in canonical form, also when [Set] changed another key. *)
Lemma C1_counterexample :
  let data := ("memsize=512" ++ NL ++ "guestOS = " ++ Q ++ "other" ++ Q ++ NL)%string in
  exists d,
    LoadDictionary "test.vmx" (oneFile "test.vmx" data) = Ok d
    /\ findIndex (ToLower "guestOS") (Entries d) = 1
    /\ nth_error (rawLines data) 0 = Some "memsize=512"
    /\ nth_error (map saveLine (Entries (Set_ d "guestOS" "linux"))) 0
       = Some ("memsize = " ++ Q ++ "512" ++ Q)%string
    /\ nth_error (map saveLine (Entries (Set_ d "guestOS" "linux"))) 0
       <> nth_error (rawLines data) 0.
Proof.
  intros data. eexists. split; [vm_compute; reflexivity|].
  split; [reflexivity|]. split; [reflexivity|]. split; [reflexivity|].
  vm_compute. discriminate.
Qed.

Lemma C2_load_save_round_trip_witness :
  let lines := ["# VMware configuration"; EmptyString;
                canonicalLine "guestOS" "other";
                canonicalLine "displayName" ("my " ++ Q ++ "test" ++ Q ++ " vm")%string] in
  Forall roundTripLine lines
  /\ Forall scannedAsIs lines
  /\ exists d fs',
      LoadDictionary "test.vmx" (oneFile "test.vmx" (unlines lines)) = Ok d
      /\ Save d "test.vmx" (oneFile "test.vmx" (unlines lines)) = (fs', None)
      /\ fs' "test.vmx" = Regular (unlines lines).
Proof.
  intros lines.
  assert (H1 : Forall roundTripLine lines).
  { constructor; [apply roundTrip_comment; reflexivity|].
    constructor; [apply roundTrip_empty|].
    constructor.
    { apply roundTrip_assignment.
      - apply wfKey_intro; [discriminate | reflexivity | reflexivity | reflexivity].
      - vm_compute; discriminate. }
    constructor; [|constructor].
    apply roundTrip_assignment.
    - apply wfKey_intro; [discriminate | reflexivity | reflexivity | reflexivity].
    - vm_compute; discriminate. }
  assert (H2 : Forall scannedAsIs lines)
    by (repeat constructor; reflexivity).
  split; [exact H1|]. split; [exact H2|].
  exact (C2_load_save_round_trip (oneFile "test.vmx" (unlines lines)) "test.vmx"
                                 lines (writeFile_same _ _ _) H1 H2).
Defined.

(** C2 as stated fails: a line of white space only is written back as an
    empty line. *)
Lemma C2_counterexample :
  let data := ("guestOS = " ++ Q ++ "other" ++ Q ++ NL ++ "  " ++ NL)%string in
  exists d fs',
    LoadDictionary "test.vmx" (oneFile "test.vmx" data) = Ok d
    /\ Save d "test.vmx" (oneFile "test.vmx" data) = (fs', None)
    /\ fs' "test.vmx"
       = Regular ("guestOS = " ++ Q ++ "other" ++ Q ++ NL ++ NL)%string
    /\ fs' "test.vmx" <> Regular data.
Proof.
  intros data. eexists. eexists.
  split; [vm_compute; reflexivity|].
  split; [vm_compute; reflexivity|].
  split; [reflexivity|].
  vm_compute. discriminate.
Qed.

Lemma C3_case_insensitive_identity_witness :
  Forall (fun e => keyEq (Key e) "foo" = false)
         (Entries (mkDictionary "test.vmx" []))
  /\ exists d1,
      Add (mkDictionary "test.vmx" []) "foo" "1" = Ok d1
      /\ Query d1 "FOO" = Ok "1".
Proof.
  split; [constructor|].
  destruct (C3_case_insensitive_identity (mkDictionary "test.vmx" []))
    as (d1 & H1 & H2 & _); [constructor|].
  exists d1. split; assumption.
Defined.

Lemma C4_add_rejects_duplicates_witness :
  let d := mkDictionary "test.vmx"
             (map parseLine ["# note"; "guestOS = " ++ Q ++ "other" ++ Q]%string) in
  "GUESTOS" <> EmptyString
  /\ allBytes isASCIIByte "GUESTOS" = true
  /\ Forall (fun e => allBytes isASCIIByte (Key e) = true) (Entries d)
  /\ sameLetters "guestOS" "GUESTOS" = true
  /\ Add d "GUESTOS" "linux" = Err (DuplicateKeyError "GUESTOS")
  /\ Query (Set_ d "GUESTOS" "linux") "GUESTOS" = Ok "linux".
Proof.
  intros d.
  assert (Hk : "GUESTOS" <> EmptyString) by discriminate.
  assert (Ha : Forall (fun e => allBytes isASCIIByte (Key e) = true) (Entries d))
    by (repeat constructor).
  split; [exact Hk|]. split; [reflexivity|]. split; [exact Ha|].
  split; [reflexivity|].
  destruct (C4_add_rejects_duplicates d "GUESTOS" "linux" "linux" Hk)
    as (_ & Hdup & _ & HQ & _).
  split; [|exact HQ].
  apply (Hdup eq_refl Ha).
  exists (parseLine ("guestOS = " ++ Q ++ "other" ++ Q)).
  split; [right; left; reflexivity | reflexivity].
Defined.

(** C4 as stated fails for the empty key: on a document whose only line
    is a comment, which no key matches, [Add] of the empty key fails with
    the duplicate key error. *)
Lemma C4_counterexample :
  let d := mkDictionary "test.vmx" (map parseLine ["# note"]) in
  Forall (fun e => IsComment e = true /\ Key e = EmptyString) (Entries d)
  /\ Add d EmptyString "1" = Err (DuplicateKeyError EmptyString).
Proof.
  intros d. split; [repeat constructor | reflexivity].
Qed.

Lemma C6_quote_in_value_round_trip_witness :
  let lines := ["# VMware configuration"; "guestOS=other # default"] in
  let fs := oneFile "test.vmx" (unlines lines) in
  fileLoads fs "test.vmx" lines
  /\ wfKey "displayName"
  /\ exists d d1 fs' d2,
      LoadDictionary "test.vmx" fs = Ok d
      /\ Add d "displayName" ("a" ++ Q ++ "b") = Ok d1
      /\ Save d1 "test.vmx" fs = (fs', None)
      /\ fs' "test.vmx"
         = Regular (saveBytes d ++ "displayName" ++ " = "
                    ++ Q ++ "a" ++ BS ++ Q ++ "b" ++ Q ++ NL)%string
      /\ LoadDictionary "test.vmx" fs' = Ok d2
      /\ Query d2 "displayName" = Ok ("a" ++ Q ++ "b")%string.
Proof.
  intros lines fs.
  assert (Hfile : fileLoads fs "test.vmx" lines) by reflexivity.
  assert (Hkey : wfKey "displayName")
    by (apply wfKey_intro; [discriminate | reflexivity | reflexivity | reflexivity]).
  split; [exact Hfile|]. split; [exact Hkey|].
  apply (C6_quote_in_value_round_trip fs "test.vmx" lines "displayName" Hfile).
  - repeat constructor.
  - repeat constructor.
  - exact Hkey.
  - reflexivity.
  - reflexivity.
Defined.

Lemma C7_set_keeps_inline_comment_witness :
  let e := parseLine ("name = " ++ Q ++ "old" ++ Q ++ "   # keep me")%string in
  let d := mkDictionary "test.vmx" [parseLine "# head"; e] in
  findEntryCaseInsensitive d "NAME" = Some e
  /\ Key e <> EmptyString
  /\ exists pre post e',
      Entries (Set_ d "NAME" "new") = pre ++ e' :: post
      /\ printLine e'
         = ("name = " ++ Q ++ "new" ++ Q ++ "   # keep me")%string.
Proof.
  intros e d.
  assert (F : findEntryCaseInsensitive d "NAME" = Some e) by (vm_compute; reflexivity).
  assert (Hk : Key e <> EmptyString) by (vm_compute; discriminate).
  split; [exact F|]. split; [exact Hk|].
  destruct (C7_set_keeps_inline_comment d "NAME" "new" e F)
    as (pre & post & e' & _ & HS & _ & _ & _ & _ & _ & _ & HP & _);
    [reflexivity | reflexivity | exact Hk |].
  exists pre, post, e'. split; [exact HS | exact HP].
Defined.

Lemma C8_line_parsing_is_total_witness :
  isEmpty (TrimSpace " not an assignment ") = false
  /\ HasPrefix (TrimSpace " not an assignment ") "#" = false
  /\ Contains " not an assignment " equals = false
  /\ hasKind (parseLine " not an assignment ") Comment.
Proof.
  split; [reflexivity|]. split; [reflexivity|]. split; [reflexivity|].
  destruct (C8_line_parsing_is_total " not an assignment ") as (_ & _ & H).
  apply H; reflexivity.
Defined.

Lemma C9_remove_and_query_disagree_on_first_entry_witness :
  let data := (longS ++ " = " ++ Q ++ "0" ++ Q ++ NL
               ++ "s = " ++ Q ++ "1" ++ Q ++ NL
               ++ "S = " ++ Q ++ "2" ++ Q ++ NL)%string in
  lowerCase 383 = 383%N
  /\ exists d d',
      LoadDictionary "test.vmx" (oneFile "test.vmx" data) = Ok d
      /\ map Key (Entries d) = [longS; "s"; "S"]
      /\ Query d "s" = Ok "1"
      /\ map Value (Entries (Set_ d "s" "3")) = ["0"; "3"; "2"]
      /\ Remove d "s" = Ok d'
      /\ map Value (Entries d') = ["1"; "2"].
Proof.
  intros data.
  assert (H : lowerCase 383 = 383%N) by reflexivity.
  split; [exact H|].
  destruct (C9_remove_and_query_disagree_on_first_entry H)
    as (d & HL & HK & _ & _ & _ & HQ & HS & d' & HR & _ & HV).
  exists d, d'.
  split; [exact HL|]. split; [exact HK|]. split; [exact HQ|].
  split; [exact HS|]. split; [exact HR | exact HV].
Defined.

Lemma C10_value_round_trip_witness :
  let lines := ["memsize=512"; "  "; "name = vm1   # first"] in
  let fs := oneFile "test.vmx" (unlines lines) in
  let value := ("say " ++ Q ++ "hi" ++ Q ++ " # twice")%string in
  fileLoads fs "test.vmx" lines
  /\ wfKey "annotation"
  /\ Contains value backslash = false
  /\ exists d d1 fs' d2,
      LoadDictionary "test.vmx" fs = Ok d
      /\ Add d "annotation" value = Ok d1
      /\ Save d1 "test.vmx" fs = (fs', None)
      /\ LoadDictionary "test.vmx" fs' = Ok d2
      /\ Query d2 "annotation" = Ok value.
Proof.
  intros lines fs value.
  assert (Hfile : fileLoads fs "test.vmx" lines) by reflexivity.
  assert (Hkey : wfKey "annotation")
    by (apply wfKey_intro; [discriminate | reflexivity | reflexivity | reflexivity]).
  split; [exact Hfile|]. split; [exact Hkey|]. split; [reflexivity|].
  apply (C10_value_round_trip fs "test.vmx" lines "annotation" value Hfile).
  - repeat constructor.
  - repeat constructor.
  - exact Hkey.
  - reflexivity.
  - reflexivity.
  - reflexivity.
  - reflexivity.
Defined.

(** C10 as stated fails: a value with a line feed and without backslash
    is written on two lines, and the first of them is read back as an
    unquoted value. *)
Lemma C10_counterexample :
  let fs : filesystem := fun _ => Absent in
  let value := ("a" ++ NL ++ "b")%string in
  Contains value backslash = false
  /\ exists d d1 fs' d2,
      LoadDictionary "new.vmx" fs = Ok d
      /\ Add d "annotation" value = Ok d1
      /\ Save d1 "new.vmx" fs = (fs', None)
      /\ LoadDictionary "new.vmx" fs' = Ok d2
      /\ Query d2 "annotation" = Ok (Q ++ "a")%string
      /\ Query d2 "annotation" <> Ok value.
Proof.
  intros fs value. split; [reflexivity|].
  do 4 eexists.
  split; [reflexivity|]. split; [reflexivity|]. split; [reflexivity|].
  split; [vm_compute; reflexivity|].
  split; [vm_compute; reflexivity|].
  vm_compute. discriminate.
Qed.

(** ** Dictionaries, files and the command line *)

Lemma X6_loaded_entries_are_well_formed_witness :
  let data := ("  Name = vm1   # first" ++ NL ++ "# note" ++ NL)%string in
  exists d,
    LoadDictionary "test.vmx" (oneFile "test.vmx" data) = Ok d
    /\ Filename d = "test.vmx"
    /\ Forall (fun e => Key e <> EmptyString -> wfKey (Key e)) (Entries d).
Proof.
  intros data.
  exists (mkDictionary "test.vmx" (map parseLine ["  Name = vm1   # first"; "# note"])).
  assert (H : LoadDictionary "test.vmx" (oneFile "test.vmx" data)
              = Ok (mkDictionary "test.vmx"
                      (map parseLine ["  Name = vm1   # first"; "# note"])))
    by reflexivity.
  split; [exact H|].
  destruct (X6_loaded_entries_are_well_formed _ _ _ H) as [Hn Hall].
  split; [exact Hn|].
  eapply Forall_impl; [|exact Hall].
  intros e (_ & Hk & _) Hne. exact (proj1 (Hk Hne)).
Defined.

Lemma X7_set_and_add_leave_other_keys_witness :
  let d := mkDictionary "test.vmx"
             (map parseLine ["memsize = 512"; "# note"; "name = vm1"]) in
  keyEq "MemSize" "NAME" = false
  /\ Query (Set_ d "MemSize" "1024") "NAME" = Ok "vm1"
  /\ Query (Set_ d "numvcpus" "2") "MEMSIZE" = Ok "512".
Proof.
  intros d.
  assert (H : keyEq "MemSize" "NAME" = false) by reflexivity.
  split; [exact H|]. split.
  - rewrite (proj1 (X7_set_and_add_leave_other_keys d "MemSize" "1024" "NAME" H)).
    reflexivity.
  - rewrite (proj1 (X7_set_and_add_leave_other_keys d "numvcpus" "2" "MEMSIZE"
                                                      eq_refl)).
    reflexivity.
Defined.

Lemma X8_remove_undoes_add_witness :
  let d := mkDictionary "test.vmx"
             (map parseLine ["memsize = 512"; "# note"; "name = vm1"]) in
  let d1 := withEntries d (Entries d ++ [newEntry "numvcpus" "2"]) in
  Add d "numvcpus" "2" = Ok d1
  /\ Forall (fun e => EqualFold (Key e) "numvcpus" = false) (Entries d)
  /\ Remove d1 "numvcpus" = Ok d.
Proof.
  intros d d1.
  assert (HA : Add d "numvcpus" "2" = Ok d1) by reflexivity.
  assert (HF : Forall (fun e => EqualFold (Key e) "numvcpus" = false) (Entries d))
    by (repeat constructor).
  split; [exact HA|]. split; [exact HF|].
  exact (X8_remove_undoes_add d d1 "numvcpus" "2" HA HF eq_refl).
Defined.

Lemma X9_operations_keep_keys_unique_witness :
  let d := mkDictionary "test.vmx"
             (map parseLine ["memsize = 512"; "# note"; "# more"; "name = vm1"]) in
  uniqueKeys d
  /\ uniqueKeys (Set_ d "MemSize" "1024")
  /\ uniqueKeys (Set_ d "numvcpus" "2").
Proof.
  intros d.
  assert (Hu : uniqueKeys d).
  { unfold uniqueKeys. vm_compute.
    constructor; [intros [H|[]]; discriminate H|].
    constructor; [intros []|]. constructor. }
  split; [exact Hu|]. split.
  - exact (proj1 (X9_operations_keep_keys_unique d "MemSize" "1024" Hu)).
  - exact (proj1 (X9_operations_keep_keys_unique d "numvcpus" "2" Hu)).
Defined.

Lemma X10_saving_twice_writes_the_same_witness :
  let lines := ["  memsize=512"; "  "; "name = vm1   # first"; "not a pair"] in
  let fs := oneFile "test.vmx" (unlines lines) in
  fileLoads fs "test.vmx" lines
  /\ exists d fs1 d1 fs2,
      LoadDictionary "test.vmx" fs = Ok d
      /\ Save d "test.vmx" fs = (fs1, None)
      /\ fs1 "test.vmx" <> fs "test.vmx"
      /\ LoadDictionary "test.vmx" fs1 = Ok d1
      /\ Save d1 "test.vmx" fs1 = (fs2, None)
      /\ fs2 "test.vmx" = fs1 "test.vmx".
Proof.
  intros lines fs.
  assert (Hfile : fileLoads fs "test.vmx" lines) by reflexivity.
  split; [exact Hfile|].
  destruct (X10_saving_twice_writes_the_same fs "test.vmx" lines Hfile)
    as (d & fs1 & d1 & fs2 & H1 & H2 & H3 & H4 & H5 & _).
  - repeat constructor.
  - repeat constructor; discriminate.
  - repeat constructor.
  - exists d, fs1, d1, fs2.
    split; [exact H1|]. split; [exact H2|]. split.
    + assert (E : d = mkDictionary "test.vmx" (map parseLine lines)).
      { assert (E0 : LoadDictionary "test.vmx" fs
                     = Ok (mkDictionary "test.vmx" (map parseLine lines)))
          by reflexivity.
        rewrite E0 in H1. inversion H1. reflexivity. }
      subst d. inversion H2; subst. discriminate.
    + split; [exact H3|]. split; [exact H4 | exact H5].
Defined.

Lemma X12_run_add_then_query_witness :
  let env := mkEnvironment "1.0.0" "today" "abc" (fun p => p) in
  let lines := ["memsize=512"; "  "; "name = vm1   # first"] in
  let fs := oneFile "test.vmx" (unlines lines) in
  let value := ("say " ++ Q ++ "hi" ++ Q)%string in
  let kv := ("  annotation = " ++ Q ++ "say " ++ BS ++ Q ++ "hi" ++ BS ++ Q ++ Q)%string in
  parseKeyValue kv = KeyValue "annotation" value
  /\ exists fs',
      run env ["vmxtool"; "add"; "test.vmx"; kv] fs = (0, EmptyString, fs')
      /\ run env ["vmxtool"; "query"; "test.vmx"; "ANNOTATION"] fs'
         = (0, (value ++ NL)%string, fs').
Proof.
  intros env lines fs value kv.
  assert (Hkv : parseKeyValue kv = KeyValue "annotation" value) by reflexivity.
  split; [exact Hkv|].
  destruct (X12_run_add_then_query env "vmxtool" "test.vmx" kv "annotation" value
              "ANNOTATION" fs lines)
    as (fs' & H1 & _ & _ & H2);
    [reflexivity | exact Hkv | reflexivity | reflexivity | discriminate
     | repeat constructor | repeat constructor | reflexivity | reflexivity |].
  exists fs'. split; [exact H1 | exact H2].
Defined.

Lemma X13_run_set_then_query_witness :
  let env := mkEnvironment "1.0.0" "today" "abc" (fun p => p) in
  let lines := ["memsize=512"; "  "; "Name = vm1   # first"] in
  let fs := oneFile "test.vmx" (unlines lines) in
  parseKeyValue "name=vm2" = KeyValue "name" "vm2"
  /\ exists fs',
      run env ["vmxtool"; "set"; "test.vmx"; "name=vm2"] fs = (0, EmptyString, fs')
      /\ run env ["vmxtool"; "query"; "test.vmx"; "NAME"] fs'
         = (0, ("vm2" ++ NL)%string, fs').
Proof.
  intros env lines fs.
  assert (Hkv : parseKeyValue "name=vm2" = KeyValue "name" "vm2") by reflexivity.
  split; [exact Hkv|].
  destruct (X13_run_set_then_query env "vmxtool" "test.vmx" "name=vm2" "name" "vm2"
              "NAME" fs lines)
    as (fs' & H1 & _ & H2);
    [reflexivity | exact Hkv | reflexivity | reflexivity | discriminate
     | repeat constructor | reflexivity |].
  exists fs'. split; [exact H1 | exact H2].
Defined.

Lemma X14_run_remove_then_query_witness :
  let env := mkEnvironment "1.0.0" "today" "abc" (fun p => p) in
  let fs := oneFile "test.vmx"
              (unlines ["memsize=512"; "Name = vm1   # first"; "# end"]) in
  exists fs',
    run env ["vmxtool"; "remove"; "test.vmx"; "NAME"] fs = (0, EmptyString, fs')
    /\ fs' "test.vmx"
       = Regular ("memsize = " ++ Q ++ "512" ++ Q ++ NL ++ "# end" ++ NL)%string
    /\ run env ["vmxtool"; "query"; "test.vmx"; "NAME"] fs'
       = (1, ("Error: key 'NAME' does not exist" ++ NL)%string, fs').
Proof.
  intros env fs.
  destruct (X14_run_remove_then_query env "vmxtool" "test.vmx" "NAME" fs
              ["memsize=512"] "Name = vm1   # first" ["# end"])
    as (fs' & H1 & H2 & _ & H3 & _);
    [reflexivity | repeat constructor | reflexivity | repeat constructor |].
  exists fs'. split; [exact H1|]. split; [exact H2 | exact H3].
Defined.

Lemma X15_run_print_echoes_canonical_file_witness :
  let env := mkEnvironment "1.0.0" "today" "abc" (fun p => p) in
  let lines := ["# VMware configuration"; EmptyString;
                (canonicalLine "guestOS" "other" ++ "  " ++ "# default")%string;
                canonicalLine "displayName" ("my " ++ Q ++ "test" ++ Q ++ " vm")%string] in
  let fs : filesystem :=
    fun p => if String.eqb p "test.vmx" then ReadOnly (unlines lines) else Absent in
  (fs "test.vmx" = Regular (unlines lines)
   \/ fs "test.vmx" = ReadOnly (unlines lines))
  /\ Forall preservedLine lines
  /\ Forall scannedAsIs lines
  /\ run env ["vmxtool"; "print"; "test.vmx"] fs = (0, unlines lines, fs).
Proof.
  intros env lines fs.
  assert (Hk1 : wfKey "guestOS")
    by (apply wfKey_intro; [discriminate | reflexivity | reflexivity | reflexivity]).
  assert (Hk2 : wfKey "displayName")
    by (apply wfKey_intro; [discriminate | reflexivity | reflexivity | reflexivity]).
  assert (Hp : Forall preservedLine lines).
  { constructor; [apply preserved_comment; reflexivity|].
    constructor; [apply preserved_empty|].
    constructor.
    { apply preserved_assignment; [exact Hk1 | discriminate|].
      apply tail_comment; reflexivity. }
    constructor; [|constructor].
    change (canonicalLine "displayName" ("my " ++ Q ++ "test" ++ Q ++ " vm"))
      with (canonicalLine "displayName" ("my " ++ Q ++ "test" ++ Q ++ " vm")
            ++ EmptyString ++ EmptyString)%string.
    apply preserved_assignment; [exact Hk2 | discriminate | apply tail_none]. }
  assert (Hs : Forall scannedAsIs lines).
  { repeat constructor. }
  assert (Hf : fs "test.vmx" = Regular (unlines lines)
               \/ fs "test.vmx" = ReadOnly (unlines lines))
    by (right; reflexivity).
  split; [exact Hf|]. split; [exact Hp|]. split; [exact Hs|].
  exact (X15_run_print_echoes_canonical_file env "vmxtool" "test.vmx" fs lines
           Hf Hp Hs).
Defined.

Lemma X16_print_differs_from_save_in_key_part_only_witness :
  let data := ("  memsize=512" ++ NL ++ "# note" ++ NL)%string in
  exists d,
    LoadDictionary "test.vmx" (oneFile "test.vmx" data) = Ok d
    /\ Forall (fun e => Key e = EmptyString -> printLine e = saveLine e) (Entries d)
    /\ saveBytes d = ("  memsize = " ++ Q ++ "512" ++ Q ++ NL ++ "# note" ++ NL)%string
    /\ Print d = ("memsize = " ++ Q ++ "512" ++ Q ++ NL ++ "# note" ++ NL)%string.
Proof.
  intros data.
  exists (mkDictionary "test.vmx" (map parseLine ["  memsize=512"; "# note"])).
  assert (H : LoadDictionary "test.vmx" (oneFile "test.vmx" data)
              = Ok (mkDictionary "test.vmx"
                      (map parseLine ["  memsize=512"; "# note"])))
    by reflexivity.
  split; [exact H|].
  destruct (X16_print_differs_from_save_in_key_part_only _ _ _ H) as [Hall _].
  split.
  - eapply Forall_impl; [|exact Hall]. intros e [Ha _]. exact Ha.
  - split; reflexivity.
Defined.

Lemma X17_run_add_reports_the_stored_key_witness :
  let env := mkEnvironment "1.0.0" "today" "abc" (fun p => p) in
  let fs := oneFile "test.vmx"
              (unlines ["memsize=512"; "Name = vm1   # first"; "# end"]) in
  run env ["vmxtool"; "add"; "test.vmx"; "NAME=vm2"] fs
  = (1, ("Error: key 'NAME' already exists (as 'Name')" ++ NL)%string, fs).
Proof.
  intros env fs.
  apply (X17_run_add_reports_the_stored_key env "vmxtool" "test.vmx" "NAME=vm2"
           "NAME" "vm2" fs ["memsize=512"] "Name = vm1   # first" ["# end"]);
    [reflexivity | reflexivity | repeat constructor | reflexivity].
Defined.

Lemma X18_missing_file_is_an_empty_file_witness :
  let env := mkEnvironment "1.0.0" "today" "abc" (fun p => p) in
  let fs : filesystem := fun _ => Absent in
  let '(code, out, fs1) := run env ["vmxtool"; "set"; "new.vmx"; "a=1"] fs in
  let '(code0, out0, fs0) :=
    run env ["vmxtool"; "set"; "new.vmx"; "a=1"]
        (writeFile fs "new.vmx" EmptyString) in
  code = code0 /\ out = out0
  /\ forall p, fs1 p = fs0 p
               \/ (p = "new.vmx" /\ fs1 p = Absent /\ fs0 p = Regular EmptyString).
Proof.
  intros env fs.
  exact (X18_missing_file_is_an_empty_file env "vmxtool" "set" "new.vmx" ["a=1"]
           fs eq_refl).
Defined.

Lemma X19_quoting_program_reads_back_escaped_value_witness :
  let lines := ["memsize=512"; "# note"] in
  let fs := oneFile "test.vmx" (unlines lines) in
  let value := ("say " ++ Q ++ "hi" ++ Q)%string in
  exists d d1 fs' d2,
    Earlier.LoadDictionary "test.vmx" fs = Ok d
    /\ Quoted.Add d "annotation" value = Ok d1
    /\ Quoted.Save d1 "test.vmx" fs = (fs', None)
    /\ Earlier.LoadDictionary "test.vmx" fs' = Ok d2
    /\ Earlier.Query d2 "annotation"
       = Ok ("say " ++ BS ++ Q ++ "hi" ++ BS ++ Q)%string.
Proof.
  intros lines fs value.
  assert (Hkey : wfKey "annotation")
    by (apply wfKey_intro; [discriminate | reflexivity | reflexivity | reflexivity]).
  destruct (X19_quoting_program_reads_back_escaped_value
              fs "test.vmx" lines "annotation" value)
    as (d & d1 & fs' & d2 & H1 & H2 & H3 & H4 & H5 & _);
    [reflexivity | repeat constructor | repeat constructor | exact Hkey
     | reflexivity | reflexivity | reflexivity |].
  exists d, d1, fs', d2.
  split; [exact H1|]. split; [exact H2|]. split; [exact H3|].
  split; [exact H4 | exact H5].
Defined.

Lemma X20_other_programs_compare_keys_exactly_witness :
  let d := Earlier.mkDictionary "test.vmx" (map Earlier.parseLine ["name = vm1"]) in
  Earlier.Query (Unquoted.Set_ d "Name" "vm2") "name" = Ok "vm1"
  /\ Earlier.Query (Unquoted.Set_ d "Name" "vm2") "Name" = Ok "vm2"
  /\ List.length (Earlier.Entries (Unquoted.Set_ d "Name" "vm2")) = 2.
Proof.
  intros d.
  split; [|split; [|reflexivity]].
  - rewrite (proj2 (X20_other_programs_compare_keys_exactly d "Name" "vm2" "name")).
    reflexivity.
  - rewrite (proj2 (X20_other_programs_compare_keys_exactly d "Name" "vm2" "Name")).
    reflexivity.
Defined.

Lemma X21_needsQuoting_guards_unquoted_values_witness :
  let nbsp := String (ascii_of_N 194) (String (ascii_of_N 160) EmptyString) in
  Unquoted.needsQuoting "vmx-19" = false
  /\ TrimSpace "vmx-19" = "vmx-19"
  /\ Unquoted.needsQuoting "Windows 11" = true
  /\ Unquoted.needsQuoting ("a" ++ nbsp ++ "b") = true.
Proof.
  intros nbsp.
  assert (H : Unquoted.needsQuoting "vmx-19" = false) by reflexivity.
  split; [exact H|]. split.
  - exact (proj1 (proj2 (proj1 (X21_needsQuoting_guards_unquoted_values "vmx-19") H))).
  - split.
    + rewrite (proj2 (X21_needsQuoting_guards_unquoted_values "Windows 11") eq_refl).
      reflexivity.
    + reflexivity.
Defined.


Lemma X23_unquoting_program_drops_needless_quotes_witness :
  wfKey "guestOS"
  /\ Unquoted.needsQuoting "other" = false
  /\ Unquoted.saveLine (Earlier.parseLine ("guestOS = " ++ Q ++ "other" ++ Q))
     = "guestOS = other"
  /\ Unquoted.needsQuoting "Windows 11" = true
  /\ Unquoted.saveLine (Earlier.parseLine ("guestOS = " ++ Q ++ "Windows 11" ++ Q))
     = ("guestOS = " ++ Q ++ "Windows 11" ++ Q)%string.
Proof.
  assert (Hk : wfKey "guestOS")
    by (apply wfKey_intro; [discriminate | reflexivity | reflexivity | reflexivity]).
  assert (H1 : Unquoted.needsQuoting "other" = false) by reflexivity.
  assert (H2 : Unquoted.needsQuoting "Windows 11" = true) by reflexivity.
  split; [exact Hk|]. split; [exact H1|]. split.
  - exact (proj1 (proj2 (proj1 (X23_unquoting_program_drops_needless_quotes
                                  "guestOS" "other" Hk) H1))).
  - split; [exact H2|].
    exact (proj1 (proj2 (X23_unquoting_program_drops_needless_quotes
                           "guestOS" "Windows 11" Hk) H2)).
Defined.

Lemma X24_quoting_program_escapes_at_every_save_witness :
  let value := ("a" ++ Q ++ "b")%string in
  wfKey "name"
  /\ Contains value dquote = true
  /\ Quoted.saveLine (Earlier.parseLine ("name = " ++ Q ++ value ++ Q))
     = ("name = " ++ Q ++ "a" ++ BS ++ Q ++ "b" ++ Q)%string
  /\ Quoted.saveLine (Earlier.parseLine ("name = vm1"))
     = ("name = " ++ Q ++ "vm1" ++ Q)%string.
Proof.
  intros value.
  assert (Hk : wfKey "name")
    by (apply wfKey_intro; [discriminate | reflexivity | reflexivity | reflexivity]).
  split; [exact Hk|]. split; [reflexivity|]. split.
  - exact (proj1 (X24_quoting_program_escapes_at_every_save "name" value Hk)).
  - apply (proj2 (proj2 (proj2
             (X24_quoting_program_escapes_at_every_save "name" "vm1" Hk))));
      [discriminate | reflexivity | reflexivity].
Defined.

Lemma X26_unquoting_main_add_then_query_witness :
  let env := mkEnvironment "1.0.0" "today" "abc" (fun p => p) in
  let fs := oneFile "test.vmx" (unlines ["memsize=512"; "# note"]) in
  let value := ("C:" ++ BS)%string in
  exists fs',
    Unquoted.main env ["vmxtool"; "add"; "test.vmx"; ("path=C:" ++ BS)%string] fs
    = (0, ("Added: path=C:" ++ BS ++ NL)%string, fs')
    /\ Unquoted.main env ["vmxtool"; "query"; "test.vmx"; "path"] fs'
       = (0, (value ++ NL)%string, fs').
Proof.
  intros env fs value.
  destruct (X26_unquoting_main_add_then_query env "vmxtool" "test.vmx"
              ("path=C:" ++ BS)%string "path" value fs ["memsize=512"; "# note"])
    as (fs' & H1 & _ & H2);
    [reflexivity | reflexivity | reflexivity | reflexivity
     | repeat constructor | repeat constructor | reflexivity |].
  exists fs'. split; [exact H1 | exact H2].
Defined.

Lemma X27_quoting_main_add_then_query_witness :
  let env := mkEnvironment "1.0.0" "today" "abc" (fun p => p) in
  let fs := oneFile "test.vmx" (unlines ["memsize=512"; "# note"]) in
  let kv := ("name=a" ++ Q ++ "b")%string in
  exists fs',
    Quoted.main env ["vmxtool"; "add"; "test.vmx"; kv] fs
    = (0, ("Added: name=a" ++ Q ++ "b" ++ NL)%string, fs')
    /\ Quoted.main env ["vmxtool"; "query"; "test.vmx"; "name"] fs'
       = (0, ("a" ++ BS ++ Q ++ "b" ++ NL)%string, fs').
Proof.
  intros env fs kv.
  destruct (X27_quoting_main_add_then_query env "vmxtool" "test.vmx"
              kv "name" ("a" ++ Q ++ "b")%string fs ["memsize=512"; "# note"])
    as (fs' & H1 & _ & H2 & _);
    [reflexivity | reflexivity | reflexivity | reflexivity
     | repeat constructor | repeat constructor | reflexivity |].
  exists fs'. split; [exact H1 | exact H2].
Defined.

Lemma X29_save_failure_is_reported_witness :
  let env := mkEnvironment "1.0.0" "today" "abc"
               (fun p => "open " ++ p ++ ": no such file or directory")%string in
  let fs : filesystem :=
    fun p => if String.eqb p "test.vmx"
             then ReadOnly ("memsize = " ++ Q ++ "512" ++ Q ++ NL)%string
             else Uncreatable in
  let failed p :=
    (1, ("Error saving file: open " ++ p ++ ": no such file or directory" ++ NL)%string,
     fs) in
  fileLoadsOnly fs "nodir/new.vmx" []
  /\ fileLoadsOnly fs "test.vmx" [("memsize = " ++ Q ++ "512" ++ Q)%string]
  /\ run env ["vmxtool"; "set"; "nodir/new.vmx"; "a=1"] fs = failed "nodir/new.vmx"
  /\ run env ["vmxtool"; "add"; "nodir/new.vmx"; "a=1"] fs = failed "nodir/new.vmx"
  /\ run env ["vmxtool"; "remove"; "test.vmx"; "MEMSIZE"] fs = failed "test.vmx"
  /\ Unquoted.main env ["vmxtool"; "set"; "test.vmx"; "a=1"] fs = failed "test.vmx".
Proof.
  intros env fs failed.
  assert (H1 : fileLoadsOnly fs "nodir/new.vmx" []) by reflexivity.
  assert (H2 : fileLoadsOnly fs "test.vmx" [("memsize = " ++ Q ++ "512" ++ Q)%string])
    by reflexivity.
  split; [exact H1|]. split; [exact H2|].
  destruct (X29_save_failure_is_reported env "vmxtool" "nodir/new.vmx" fs [] H1)
    as (Hset & _ & _).
  destruct (Hset "a=1" "a" "1" eq_refl) as (Hs & Ha & _).
  destruct (X29_save_failure_is_reported env "vmxtool" "test.vmx" fs _ H2)
    as (_ & Hrem & Hother).
  split; [exact Hs|]. split; [exact (Ha eq_refl)|].
  split; [exact (Hrem "MEMSIZE" _ eq_refl)|].
  exact (Hother "a=1" "a" "1" eq_refl).
Defined.

Lemma X30_first_match_wins_for_ascii_keys_witness :
  let e1 := parseLine ("Foo = " ++ Q ++ "1" ++ Q ++ " # first")%string in
  let e2 := parseLine ("foo = " ++ Q ++ "2" ++ Q)%string in
  let d := mkDictionary "test.vmx" ([parseLine "# note"; e1; e2]) in
  allBytes isASCIIByte "FOO" = true
  /\ Forall (fun e => allBytes isASCIIByte (Key e) = true
                      /\ keyEq (Key e) "FOO" = false) [parseLine "# note"]
  /\ allBytes isASCIIByte (Key e1) = true
  /\ keyEq (Key e1) "FOO" = true
  /\ keyEq (Key e2) "FOO" = true
  /\ Query d "FOO" = Ok "1"
  /\ map saveLine (Entries (Set_ d "FOO" "3"))
     = ["# note"; ("Foo = " ++ Q ++ "3" ++ Q ++ " # first")%string;
        ("foo = " ++ Q ++ "2" ++ Q)%string]
  /\ Query (Set_ d "FOO" "3") "FOO" = Ok "3"
  /\ Remove d "FOO" = Ok (withEntries d [parseLine "# note"; e2]).
Proof.
  intros e1 e2 d.
  assert (Hpre : Forall (fun e => allBytes isASCIIByte (Key e) = true
                                  /\ keyEq (Key e) "FOO" = false)
                        [parseLine "# note"])
    by (repeat constructor).
  split; [reflexivity|]. split; [exact Hpre|].
  split; [reflexivity|]. split; [reflexivity|]. split; [reflexivity|].
  destruct (X30_first_match_wins_for_ascii_keys
              "test.vmx" [parseLine "# note"] [e2] e1 "FOO" "3"
              eq_refl Hpre eq_refl eq_refl)
    as (HQ & (e1' & HS & _) & HQ' & HR).
  split; [exact HQ|].
  split; [reflexivity|].
  split; [exact HQ' | exact HR].
Defined.

End Examples.
